(** * DSRL-NA (stable_baselines3/dsrl/dsrl.py): a shallow embedding

    The training engine of the noise-aliased DSRL algorithm, embedded as
    Rocq functions.  Python exceptions are values of [exn]; code that
    mutates [self] is a state-and-exception computation [M]; float tensors
    are matrices of real numbers (floats are idealised as reals, so
    rounding, overflow and NaN are outside the model). *)

From Stdlib Require Import ZArith QArith Qround List Bool Lia Reals Lra Permutation FinFun.
From Stdlib Require String Ascii.
Import String.StringSyntax Ascii.AsciiSyntax.
Import ListNotations.

Local Open Scope Z_scope.

(* ===================================================================== *)
(** ** Python: exceptions and the two monads *)
(* ===================================================================== *)

Module Py.

Inductive exn : Type :=
| ZeroDivisionError
| ValueError
| TypeError
| IndexError
| AssertionError
| UnboundLocalError
| AttributeError
| RuntimeError.

Inductive result (A : Type) : Type :=
| Ok (a : A)
| Raise (e : exn).
Arguments Ok {A} a.
Arguments Raise {A} e.

Class Monad (m : Type -> Type) : Type :=
  { ret : forall {A}, A -> m A;
    bind : forall {A B}, m A -> (A -> m B) -> m B }.

#[export] Instance Monad_result : Monad result :=
  { ret := fun A a => Ok a;
    bind := fun A B c f => match c with Ok a => f a | Raise e => Raise e end }.

(** A method of an object of type [S]: it may mutate the object and then
    return or raise; what was mutated before an exception stays mutated. *)
Definition M (S A : Type) : Type := S -> S * result A.

#[export] Instance Monad_M (S : Type) : Monad (M S) :=
  { ret := fun A a s => (s, Ok a);
    bind := fun A B c f s =>
      match c s with
      | (s', Ok a) => f a s'
      | (s', Raise e) => (s', Raise e)
      end }.

Definition get {S} : M S S := fun s => (s, Ok s).
Definition modify {S} (f : S -> S) : M S unit := fun s => (f s, Ok tt).
Definition lift {S A} (r : result A) : M S A := fun s => (s, r).
Definition raise {S A} (e : exn) : M S A := fun s => (s, Raise e).

(** [range(n)] *)
Definition range (n : Z) : list Z := map Z.of_nat (seq 0 (Z.to_nat n)).

(** [for x in l: acc = body(x, acc)], stopping at the first exception *)
Fixpoint for_each {m} `{Monad m} {A B} (l : list A) (body : A -> B -> m B) (acc : B) : m B :=
  match l with
  | [] => ret acc
  | x :: l' => bind (body x acc) (for_each l' body)
  end.

(** [[f(x) for x in l]] *)
Fixpoint mapM {A B} (f : A -> result B) (l : list A) : result (list B) :=
  match l with
  | [] => Ok []
  | x :: l' =>
      match f x with
      | Ok y => match mapM f l' with Ok ys => Ok (y :: ys) | Raise e => Raise e end
      | Raise e => Raise e
      end
  end.

End Py.
Import Py.

Declare Scope py_scope.
Notation "x <- c ;; k" := (bind c (fun x => k))
  (at level 61, c at next level, right associativity) : py_scope.
Notation "' pat <- c ;; k" := (bind c (fun x => match x with pat => k end))
  (at level 61, pat pattern, c at next level, right associativity) : py_scope.
Notation "c ;;; k" := (bind c (fun _ => k))
  (at level 61, right associativity) : py_scope.
Local Open Scope py_scope.

(* ===================================================================== *)
(** ** numpy: [linspace] with an integer dtype *)
(* ===================================================================== *)

Module Np.

(** The [i]-th sample of [np.linspace(start, stop, num)] for integer end
    points, as an exact rational: [start + i * ((stop - start) / (num - 1))];
    with [num = 1] the only sample is [start]. *)
Definition linspace_sample (start stop num i : Z) : Q :=
  if num =? 1 then inject_Z start
  else (inject_Z start + inject_Z i * (inject_Z (stop - start) / inject_Z (num - 1)))%Q.

(** [np.linspace(start, stop, num, dtype=int)]: a negative [num] raises
    ValueError; with an integer dtype the samples are floored. *)
Definition linspace_int (start stop num : Z) : result (list Z) :=
  if num <? 0 then Raise ValueError
  else Ok (map (fun i => Qfloor (linspace_sample start stop num i)) (range num)).

(** [x in arr] for an integer array *)
Definition contains (arr : list Z) (x : Z) : bool := existsb (Z.eqb x) arr.

(** [np.mean] of a list of scalars *)
Definition mean (l : list R) : R := (fold_right Rplus 0 l / INR (length l))%R.

End Np.

(* ===================================================================== *)
(** ** torch: tensors of rank at most two, broadcasting, grad tracking *)
(* ===================================================================== *)

Module Torch.
Local Open Scope R_scope.

(** A tensor of shape [(B, M)] is a list of [B] rows of [M] entries.  A
    tensor of shape [(M,)] is the single row, and a scalar tensor the single
    entry: with numpy's right-aligned broadcasting they behave alike. *)
Definition matrix : Type := list (list R).

(** [requires_grad]: whether [backward()] propagates through the value. *)
Record Tensor : Type := mkTensor { data : matrix; requires_grad : bool }.

Fixpoint zip_with {A B C} (f : A -> B -> C) (l1 : list A) (l2 : list B) : list C :=
  match l1, l2 with
  | x :: l1', y :: l2' => f x y :: zip_with f l1' l2'
  | _, _ => []
  end.

Fixpoint zipM {A B C} (f : A -> B -> result C) (l1 : list A) (l2 : list B)
  : result (list C) :=
  match l1, l2 with
  | [], [] => Ok []
  | x :: l1', y :: l2' =>
      match f x y with
      | Ok z => match zipM f l1' l2' with Ok zs => Ok (z :: zs) | Raise e => Raise e end
      | Raise e => Raise e
      end
  | _, _ => Raise RuntimeError
  end.

(** Broadcasting along the last dimension: sizes agree or one of them is 1. *)
Definition broadcast_row (f : R -> R -> R) (r1 r2 : list R) : result (list R) :=
  match r1, r2 with
  | [x], _ => Ok (map (f x) r2)
  | _, [y] => Ok (map (fun x => f x y) r1)
  | _, _ => if Nat.eqb (length r1) (length r2)
            then Ok (zip_with f r1 r2) else Raise RuntimeError
  end.

(** Broadcasting of two tensors; a shape mismatch raises RuntimeError. *)
Definition broadcast (f : R -> R -> R) (a b : matrix) : result matrix :=
  match a, b with
  | [r], _ => mapM (fun r2 => broadcast_row f r r2) b
  | _, [r] => mapM (fun r1 => broadcast_row f r1 r) a
  | _, _ => zipM (broadcast_row f) a b
  end.

(** A binary operator; [gm] is the grad mode ([false] inside
    [with th.no_grad()]). *)
Definition op2 (gm : bool) (f : R -> R -> R) (a b : Tensor) : result Tensor :=
  d <- broadcast f (data a) (data b) ;;
  ret (mkTensor d (gm && (requires_grad a || requires_grad b))).

(** An elementwise operator, also with a Python scalar as other operand. *)
Definition op1 (gm : bool) (f : R -> R) (a : Tensor) : Tensor :=
  mkTensor (map (map f) (data a)) (gm && requires_grad a).

Definition detach (a : Tensor) : Tensor := mkTensor (data a) false.

(** [t.reshape(-1, 1)] *)
Definition reshape_col (a : Tensor) : Tensor :=
  mkTensor (map (fun x => [x]) (concat (data a))) (requires_grad a).

(** [th.cat(ts, dim=1)]: the rows are joined; an empty list of tensors or
    tensors of different heights raise. *)
Fixpoint cat_dim1 (ms : list matrix) : result matrix :=
  match ms with
  | [] => Raise RuntimeError
  | [m] => Ok m
  | m :: ms' =>
      rest <- cat_dim1 ms' ;;
      if Nat.eqb (length m) (length rest)
      then Ok (zip_with (@app R) m rest) else Raise RuntimeError
  end.

Definition cat (gm : bool) (ts : list Tensor) : result Tensor :=
  d <- cat_dim1 (map data ts) ;;
  ret (mkTensor d (gm && existsb requires_grad ts)).

Definition row_min (r : list R) : result R :=
  match r with
  | [] => Raise IndexError
  | x :: r' => Ok (fold_right Rmin x r')
  end.

Definition sum_list (l : list R) : R := fold_right Rplus 0 l.

Definition row_mean (r : list R) : R := sum_list r / INR (length r).

(** The values of [th.min(t, dim=1, keepdim=True)]; a dimension of size 0
    cannot be reduced. *)
Definition min_dim1 (gm : bool) (a : Tensor) : result Tensor :=
  d <- mapM (fun r => x <- row_min r ;; ret [x]) (data a) ;;
  ret (mkTensor d (gm && requires_grad a)).

(** [th.mean(t, dim=1, keepdim=True)] *)
Definition mean_dim1 (gm : bool) (a : Tensor) : Tensor :=
  mkTensor (map (fun r => [row_mean r]) (data a)) (gm && requires_grad a).

(** [t.mean()], a scalar tensor *)
Definition mean (gm : bool) (a : Tensor) : Tensor :=
  mkTensor [[row_mean (concat (data a))]] (gm && requires_grad a).

(** [F.mse_loss(input, target)]: the two are broadcast together and the
    squared differences averaged. *)
Definition mse_loss (gm : bool) (input target : Tensor) : result Tensor :=
  d <- op2 gm (fun x y => (x - y) * (x - y)) input target ;;
  ret (mean gm d).

(** [t.item()]: the tensor must hold one element. *)
Definition item (a : Tensor) : result R :=
  match data a with
  | [[x]] => Ok x
  | _ => Raise RuntimeError
  end.

Definition scalar (x : R) (rg : bool) : Tensor := mkTensor [[x]] rg.

(** Split a flat list in blocks of [n]; the length must be a multiple. *)
Fixpoint chunks {A} (fuel n : nat) (l : list A) : result (list (list A)) :=
  match l with
  | [] => Ok []
  | _ =>
      match fuel with
      | O => Raise RuntimeError
      | S fuel' =>
          if Nat.ltb (length l) n then Raise RuntimeError
          else rest <- chunks fuel' n (skipn n l) ;; ret (firstn n l :: rest)
      end
  end.

(** A tensor of shape [(B, c, d)]: [B] blocks of [c] rows of [d] entries. *)
Definition tensor3 : Type := list matrix.

Definition flatten3 (t : tensor3) : list R := concat (map (@concat R) t).

(** [t.reshape(-1, c, d)] of a rank-2 tensor.  A negative or zero size, or
    a number of elements that is not a multiple of [c * d], raises. *)
Definition reshape3 (c d : Z) (m : matrix) : result tensor3 :=
  if (c <=? 0)%Z || (d <=? 0)%Z then Raise RuntimeError
  else
    let flat := concat m in
    rows <- chunks (length flat) (Z.to_nat d) flat ;;
    chunks (length rows) (Z.to_nat c) rows.

(** [t.reshape(-1, n)] of a rank-3 tensor. *)
Definition reshape2 (n : Z) (t : tensor3) : result matrix :=
  if (n <=? 0)%Z then Raise RuntimeError
  else let flat := flatten3 t in chunks (length flat) (Z.to_nat n) flat.

End Torch.

(* ===================================================================== *)
(** ** Python strings *)
(* ===================================================================== *)

Module PyStr.
Import String Ascii.
Local Open Scope string_scope.

(** [s.startswith(p)] *)
Definition startswith (p s : string) : bool := prefix p s.

(** [c in s] for a one-character [c] *)
Fixpoint contains (c : ascii) (s : string) : bool :=
  match s with
  | EmptyString => false
  | String a s' => Ascii.eqb a c || contains c s'
  end.

(** [s.split(c)] for a one-character separator: never empty, and
    ["a_b".split("_") = ["a", "b"]], ["a_".split("_") = ["a", ""]]. *)
Fixpoint split (c : ascii) (s : string) : list string :=
  match s with
  | EmptyString => [EmptyString]
  | String a s' =>
      if Ascii.eqb a c then EmptyString :: split c s'
      else match split c s' with
           | [] => [String a EmptyString]
           | w :: ws => String a w :: ws
           end
  end.

(** [l[i]] on a list *)
Definition getitem {A} (l : list A) (i : nat) : result A :=
  match nth_error l i with
  | Some x => Ok x
  | None => Raise IndexError
  end.

(** *** A decimal instance of [float(s)]

    The decimal fragment of the grammar of Python's [float]: an optional
    sign, digits with single underscores between them, an optional
    fraction.  Exponents, [inf], [nan] and surrounding blanks are left
    out.  It instantiates the [py_float] collaborator in concrete runs. *)

Definition digit_of (a : ascii) : option Z :=
  let n := nat_of_ascii a in
  if (Nat.leb 48 n && Nat.leb n 57)%bool then Some (Z.of_nat (n - 48)) else None.

(** Digits with single underscores between them: the value and the number
    of digits; [after_digit] says whether an underscore may come next. *)
Fixpoint digitpart (s : string) (after_digit : bool) (acc : Z) (n : nat)
  : option (Z * nat * string) :=
  match s with
  | EmptyString => if after_digit then Some (acc, n, EmptyString) else None
  | String a s' =>
      match digit_of a with
      | Some d => digitpart s' true (10 * acc + d)%Z (S n)
      | None =>
          if Ascii.eqb a "_" then
            if after_digit then
              match s' with
              | String b _ =>
                  match digit_of b with
                  | Some _ => digitpart s' false acc n
                  | None => None
                  end
              | EmptyString => None
              end
            else None
          else if after_digit then Some (acc, n, s) else None
      end
  end.

Definition unsigned_decimal (s : string) : option Q :=
  match s with
  | String "." s' =>
      match digitpart s' false 0 0 with
      | Some (f, k, EmptyString) => Some (f # Pos.of_nat (10 ^ k))
      | _ => None
      end
  | _ =>
      match digitpart s false 0 0 with
      | Some (i, _, EmptyString) => Some (inject_Z i)
      | Some (i, _, String "." EmptyString) => Some (inject_Z i)
      | Some (i, _, String "." s') =>
          match digitpart s' false 0 0 with
          | Some (f, k, EmptyString) =>
              Some (inject_Z i + (f # Pos.of_nat (10 ^ k)))%Q
          | _ => None
          end
      | _ => None
      end
  end.

Definition float_of_decimal (s : string) : result R :=
  let signed :=
    match s with
    | String "-" s' => option_map Qopp (unsigned_decimal s')
    | String "+" s' => unsigned_decimal s'
    | _ => unsigned_decimal s
    end in
  match signed with
  | Some q => Ok (Q2R q)
  | None => Raise ValueError
  end.

End PyStr.

(* ===================================================================== *)
(** ** The collaborators of the algorithm *)
(* ===================================================================== *)

Import Torch.

(** [Union[str, float]] *)
Inductive pyval : Type :=
| PyStr (s : String.string)
| PyFloat (x : R).

(** A network with its optimizer: the parameter tensors ([parameters()]),
    the running statistics of its normalisation layers (the buffers whose
    name contains [running_]), the optimizer state and the training flag.
    Each tensor is kept flat. *)
Record Net (optim : Type) : Type := mkNet {
  parameters : list (list R);
  running_stats : list (list R);
  optimizer : optim;
  training : bool }.
Arguments mkNet {optim}.
Arguments parameters {optim}.
Arguments running_stats {optim}.
Arguments optimizer {optim}.
Arguments training {optim}.

Definition set_parameters {optim} (p : list (list R)) (n : Net optim) : Net optim :=
  mkNet p (running_stats n) (optimizer n) (training n).
Definition set_running_stats {optim} (r : list (list R)) (n : Net optim) : Net optim :=
  mkNet (parameters n) r (optimizer n) (training n).
Definition set_optimizer {optim} (o : optim) (n : Net optim) : Net optim :=
  mkNet (parameters n) (running_stats n) o (training n).
(** [net.set_training_mode(mode)] *)
Definition set_training_mode {optim} (mode : bool) (n : Net optim) : Net optim :=
  mkNet (parameters n) (running_stats n) (optimizer n) mode.

(** A batch drawn from the replay buffer. *)
Record ReplayBufferSamples (obs : Type) : Type := mkSamples {
  observations : obs;
  actions : matrix;
  next_observations : obs;
  dones : matrix;
  rewards : matrix }.
Arguments mkSamples {obs}.
Arguments observations {obs}.
Arguments actions {obs}.
Arguments next_observations {obs}.
Arguments dones {obs}.
Arguments rewards {obs}.

(** What the module imports: the base class, the policy networks, the
    optimizers, the replay buffer, the random generators and the builtin
    [float].  Forward passes are pure; what [backward()] and
    [optimizer.step()] do to a network is a function of the operands of
    the loss. *)
Class Externals : Type := {
  obs : Type;
  optim : Type;
  py_float : String.string -> result R;
  base_init : result unit;
  base_setup_model : result (Net optim * Net optim * Net optim);
  make_policy_critic : result (Net optim);
  action_space_dim : Z;
  action_space_is_box : bool;
  lr_schedule : R -> R;
  new_adam : R -> optim;
  update_learning_rate : R -> optim -> optim;
  sample_buffer : nat -> Z -> ReplayBufferSamples obs;
  action_log_prob : Net optim -> obs -> nat -> matrix * list R;
  reset_noise : Net optim -> nat -> Net optim;
  q_values : Net optim -> obs -> matrix -> list matrix;
  scale_action : matrix -> matrix;
  unscale_action : matrix -> matrix;
  randn : nat -> nat -> nat -> nat -> tensor3;
  predict : Net optim -> obs -> nat -> matrix;
  space_sample : nat -> list R;
  ent_coef_update : optim -> R -> R -> Tensor -> optim * R;
  critic_update : Net optim -> ReplayBufferSamples obs -> Tensor -> Net optim;
  actor_update : Net optim -> Net optim -> ReplayBufferSamples obs -> R -> Net optim;
  noise_critic_update :
    Net optim -> Net optim -> ReplayBufferSamples obs -> tensor3 -> Net optim }.

(* ===================================================================== *)
(** ** The DSRL object *)
(* ===================================================================== *)

Section Model.
Context {E : Externals}.
Local Abbreviation Net := (Net optim).
Local Open Scope string_scope.

(** The frozen decoder: [diffusion_policy(obs, noise, return_numpy=False)] *)
Definition decoder : Type := obs -> tensor3 -> tensor3.

(** The arguments of the constructor that the module itself reads. *)
Record Args : Type := mkArgs {
  arg_tau : R;
  arg_gamma : R;
  arg_ent_coef : pyval;
  arg_target_update_interval : Z;
  arg_target_entropy : pyval;
  arg_use_sde : bool;
  arg_use_sde_at_warmup : bool;
  arg_init_setup_model : bool;
  arg_actor_gradient_steps : Z;
  arg_diffusion_policy : option decoder;
  arg_diffusion_act_dim : option (list Z);
  arg_noise_critic_grad_steps : Z;
  arg_critic_backup_combine_type : String.string }.

(** The attributes that [__init__] sets once. *)
Record Hyper : Type := mkHyper {
  tau : R;
  gamma : R;
  use_sde : bool;
  use_sde_at_warmup : bool;
  ent_coef : pyval;
  target_update_interval : Z;
  actor_gradient_steps : Z;
  diffusion_policy : option decoder;
  diffusion_act_chunk : Z;
  diffusion_act_dim : Z;
  noise_critic_grad_steps : Z;
  critic_backup_combine_type : String.string }.

(** Calls observed on the object, in order. *)
Inductive event : Type :=
| EvBaseInit
| EvSetupModel
| EvEntCoefStep (gradient_step : Z)
| EvCriticStep (gradient_step : Z) (ent_coef : R)
| EvActorStep (gradient_step : Z)
| EvTargetSync (gradient_step : Z)
| EvNoiseCriticStep (gradient_step : Z).

(** [self].  An attribute that does not exist yet is [None]; [trace]
    records the calls and [rng] counts the random draws. *)
Record DSRL : Type := mkDSRL {
  hyper : Hyper;
  num_timesteps : Z;
  _last_obs : option obs;
  _current_progress_remaining : R;
  target_entropy : pyval;
  log_ent_coef : option R;
  ent_coef_optimizer : option optim;
  ent_coef_tensor : option R;
  actor : option Net;
  critic : option Net;
  critic_target : option Net;
  critic_noise : option Net;
  _n_updates : Z;
  logger : list (String.string * R);
  rng : nat;
  trace : list event }.

Definition set_hyper (v : Hyper) (s : DSRL) : DSRL :=
  {| hyper := v;
     num_timesteps := num_timesteps s;
     _last_obs := _last_obs s;
     _current_progress_remaining := _current_progress_remaining s;
     target_entropy := target_entropy s;
     log_ent_coef := log_ent_coef s;
     ent_coef_optimizer := ent_coef_optimizer s;
     ent_coef_tensor := ent_coef_tensor s;
     actor := actor s;
     critic := critic s;
     critic_target := critic_target s;
     critic_noise := critic_noise s;
     _n_updates := _n_updates s;
     logger := logger s;
     rng := rng s;
     trace := trace s |}.

Definition set_target_entropy (v : pyval) (s : DSRL) : DSRL :=
  {| hyper := hyper s;
     num_timesteps := num_timesteps s;
     _last_obs := _last_obs s;
     _current_progress_remaining := _current_progress_remaining s;
     target_entropy := v;
     log_ent_coef := log_ent_coef s;
     ent_coef_optimizer := ent_coef_optimizer s;
     ent_coef_tensor := ent_coef_tensor s;
     actor := actor s;
     critic := critic s;
     critic_target := critic_target s;
     critic_noise := critic_noise s;
     _n_updates := _n_updates s;
     logger := logger s;
     rng := rng s;
     trace := trace s |}.

Definition set_log_ent_coef (v : option R) (s : DSRL) : DSRL :=
  {| hyper := hyper s;
     num_timesteps := num_timesteps s;
     _last_obs := _last_obs s;
     _current_progress_remaining := _current_progress_remaining s;
     target_entropy := target_entropy s;
     log_ent_coef := v;
     ent_coef_optimizer := ent_coef_optimizer s;
     ent_coef_tensor := ent_coef_tensor s;
     actor := actor s;
     critic := critic s;
     critic_target := critic_target s;
     critic_noise := critic_noise s;
     _n_updates := _n_updates s;
     logger := logger s;
     rng := rng s;
     trace := trace s |}.

Definition set_ent_coef_optimizer (v : option optim) (s : DSRL) : DSRL :=
  {| hyper := hyper s;
     num_timesteps := num_timesteps s;
     _last_obs := _last_obs s;
     _current_progress_remaining := _current_progress_remaining s;
     target_entropy := target_entropy s;
     log_ent_coef := log_ent_coef s;
     ent_coef_optimizer := v;
     ent_coef_tensor := ent_coef_tensor s;
     actor := actor s;
     critic := critic s;
     critic_target := critic_target s;
     critic_noise := critic_noise s;
     _n_updates := _n_updates s;
     logger := logger s;
     rng := rng s;
     trace := trace s |}.

Definition set_ent_coef_tensor (v : option R) (s : DSRL) : DSRL :=
  {| hyper := hyper s;
     num_timesteps := num_timesteps s;
     _last_obs := _last_obs s;
     _current_progress_remaining := _current_progress_remaining s;
     target_entropy := target_entropy s;
     log_ent_coef := log_ent_coef s;
     ent_coef_optimizer := ent_coef_optimizer s;
     ent_coef_tensor := v;
     actor := actor s;
     critic := critic s;
     critic_target := critic_target s;
     critic_noise := critic_noise s;
     _n_updates := _n_updates s;
     logger := logger s;
     rng := rng s;
     trace := trace s |}.

Definition set_actor (v : option Net) (s : DSRL) : DSRL :=
  {| hyper := hyper s;
     num_timesteps := num_timesteps s;
     _last_obs := _last_obs s;
     _current_progress_remaining := _current_progress_remaining s;
     target_entropy := target_entropy s;
     log_ent_coef := log_ent_coef s;
     ent_coef_optimizer := ent_coef_optimizer s;
     ent_coef_tensor := ent_coef_tensor s;
     actor := v;
     critic := critic s;
     critic_target := critic_target s;
     critic_noise := critic_noise s;
     _n_updates := _n_updates s;
     logger := logger s;
     rng := rng s;
     trace := trace s |}.

Definition set_critic (v : option Net) (s : DSRL) : DSRL :=
  {| hyper := hyper s;
     num_timesteps := num_timesteps s;
     _last_obs := _last_obs s;
     _current_progress_remaining := _current_progress_remaining s;
     target_entropy := target_entropy s;
     log_ent_coef := log_ent_coef s;
     ent_coef_optimizer := ent_coef_optimizer s;
     ent_coef_tensor := ent_coef_tensor s;
     actor := actor s;
     critic := v;
     critic_target := critic_target s;
     critic_noise := critic_noise s;
     _n_updates := _n_updates s;
     logger := logger s;
     rng := rng s;
     trace := trace s |}.

Definition set_critic_target (v : option Net) (s : DSRL) : DSRL :=
  {| hyper := hyper s;
     num_timesteps := num_timesteps s;
     _last_obs := _last_obs s;
     _current_progress_remaining := _current_progress_remaining s;
     target_entropy := target_entropy s;
     log_ent_coef := log_ent_coef s;
     ent_coef_optimizer := ent_coef_optimizer s;
     ent_coef_tensor := ent_coef_tensor s;
     actor := actor s;
     critic := critic s;
     critic_target := v;
     critic_noise := critic_noise s;
     _n_updates := _n_updates s;
     logger := logger s;
     rng := rng s;
     trace := trace s |}.

Definition set_critic_noise (v : option Net) (s : DSRL) : DSRL :=
  {| hyper := hyper s;
     num_timesteps := num_timesteps s;
     _last_obs := _last_obs s;
     _current_progress_remaining := _current_progress_remaining s;
     target_entropy := target_entropy s;
     log_ent_coef := log_ent_coef s;
     ent_coef_optimizer := ent_coef_optimizer s;
     ent_coef_tensor := ent_coef_tensor s;
     actor := actor s;
     critic := critic s;
     critic_target := critic_target s;
     critic_noise := v;
     _n_updates := _n_updates s;
     logger := logger s;
     rng := rng s;
     trace := trace s |}.

Definition set_n_updates (v : Z) (s : DSRL) : DSRL :=
  {| hyper := hyper s;
     num_timesteps := num_timesteps s;
     _last_obs := _last_obs s;
     _current_progress_remaining := _current_progress_remaining s;
     target_entropy := target_entropy s;
     log_ent_coef := log_ent_coef s;
     ent_coef_optimizer := ent_coef_optimizer s;
     ent_coef_tensor := ent_coef_tensor s;
     actor := actor s;
     critic := critic s;
     critic_target := critic_target s;
     critic_noise := critic_noise s;
     _n_updates := v;
     logger := logger s;
     rng := rng s;
     trace := trace s |}.

Definition set_logger (v : list (String.string * R)) (s : DSRL) : DSRL :=
  {| hyper := hyper s;
     num_timesteps := num_timesteps s;
     _last_obs := _last_obs s;
     _current_progress_remaining := _current_progress_remaining s;
     target_entropy := target_entropy s;
     log_ent_coef := log_ent_coef s;
     ent_coef_optimizer := ent_coef_optimizer s;
     ent_coef_tensor := ent_coef_tensor s;
     actor := actor s;
     critic := critic s;
     critic_target := critic_target s;
     critic_noise := critic_noise s;
     _n_updates := _n_updates s;
     logger := v;
     rng := rng s;
     trace := trace s |}.

Definition set_rng (v : nat) (s : DSRL) : DSRL :=
  {| hyper := hyper s;
     num_timesteps := num_timesteps s;
     _last_obs := _last_obs s;
     _current_progress_remaining := _current_progress_remaining s;
     target_entropy := target_entropy s;
     log_ent_coef := log_ent_coef s;
     ent_coef_optimizer := ent_coef_optimizer s;
     ent_coef_tensor := ent_coef_tensor s;
     actor := actor s;
     critic := critic s;
     critic_target := critic_target s;
     critic_noise := critic_noise s;
     _n_updates := _n_updates s;
     logger := logger s;
     rng := v;
     trace := trace s |}.

Definition set_trace (v : list event) (s : DSRL) : DSRL :=
  {| hyper := hyper s;
     num_timesteps := num_timesteps s;
     _last_obs := _last_obs s;
     _current_progress_remaining := _current_progress_remaining s;
     target_entropy := target_entropy s;
     log_ent_coef := log_ent_coef s;
     ent_coef_optimizer := ent_coef_optimizer s;
     ent_coef_tensor := ent_coef_tensor s;
     actor := actor s;
     critic := critic s;
     critic_target := critic_target s;
     critic_noise := critic_noise s;
     _n_updates := _n_updates s;
     logger := logger s;
     rng := rng s;
     trace := v |}.

Definition log_event (e : event) (s : DSRL) : DSRL := set_trace (trace s ++ [e]) s.
Definition tick (s : DSRL) : DSRL := set_rng (S (rng s)) s.
Definition record (key : String.string) (v : R) (s : DSRL) : DSRL :=
  set_logger (logger s ++ [(key, v)]) s.

(** Reading an attribute that was never set *)
Definition attr {A} (o : option A) : M DSRL A :=
  match o with
  | Some x => ret x
  | None => raise AttributeError
  end.

Definition blank : DSRL :=
  {| hyper := mkHyper 0 0 false false (PyFloat 0) 0 0 None 0 0 0 String.EmptyString;
     num_timesteps := 0;
     _last_obs := None;
     _current_progress_remaining := 1;
     target_entropy := PyFloat 0;
     log_ent_coef := None;
     ent_coef_optimizer := None;
     ent_coef_tensor := None;
     actor := None;
     critic := None;
     critic_target := None;
     critic_noise := None;
     _n_updates := 0;
     logger := [];
     rng := O;
     trace := [] |}.

(** [x[i]] where [x] may be [None]: subscripting [None] is a TypeError. *)
Definition subscript (x : option (list Z)) (i : nat) : result Z :=
  match x with
  | None => Raise TypeError
  | Some l => PyStr.getitem l i
  end.

(** [float(x)] for [x : Union[str, float]] *)
Definition to_float (x : pyval) : result R :=
  match x with
  | PyStr s => py_float s
  | PyFloat v => Ok v
  end.

(** Lines 179-185: ['auto'] is minus the dimension of the action space,
    anything else is converted with [float]. *)
Definition resolve_target_entropy (te : pyval) : result R :=
  match te with
  | PyStr str =>
      if String.eqb str "auto" then Ok (- IZR action_space_dim)%R
      else py_float str
  | PyFloat v => Ok v
  end.

(** [DSRL._setup_model] *)
Definition _setup_model : M DSRL unit :=
  modify (log_event EvSetupModel) ;;;
  (* super()._setup_model(); self._create_aliases() *)
  '(a, c, ct) <- lift base_setup_model ;;
  modify (set_actor (Some a)) ;;;
  modify (set_critic (Some c)) ;;;
  modify (set_critic_target (Some ct)) ;;;
  (* batch_norm_stats and batch_norm_stats_target alias the running
     statistics of critic and critic_target *)
  s <- get ;;
  te <- lift (resolve_target_entropy (target_entropy s)) ;;
  modify (set_target_entropy (PyFloat te)) ;;;
  match ent_coef (hyper s) with
  | PyStr str =>
      if PyStr.startswith "auto" str then
        init_value <-
          (if PyStr.contains "_" str then
             w <- lift (PyStr.getitem (PyStr.split "_" str) 1) ;;
             v <- lift (py_float w) ;;
             if Rlt_dec 0 v then ret v else raise AssertionError
           else ret 1%R) ;;
        modify (set_log_ent_coef (Some (ln init_value))) ;;;
        modify (set_ent_coef_optimizer (Some (new_adam (lr_schedule 1))))
      else
        v <- lift (py_float str) ;;
        modify (set_ent_coef_tensor (Some v))
  | PyFloat v => modify (set_ent_coef_tensor (Some v))
  end ;;;
  cn <- lift make_policy_critic ;;
  modify (set_critic_noise (Some cn)).

(** [DSRL.__init__] *)
Definition __init__ (a : Args) : M DSRL unit :=
  lift base_init ;;;
  modify (log_event EvBaseInit) ;;;
  modify (set_target_entropy (arg_target_entropy a)) ;;;
  modify (set_log_ent_coef None) ;;;
  modify (set_ent_coef_optimizer None) ;;;
  chunk <- lift (subscript (arg_diffusion_act_dim a) 0) ;;
  dim <- lift (subscript (arg_diffusion_act_dim a) 1) ;;
  modify (set_hyper
    {| tau := arg_tau a;
       gamma := arg_gamma a;
       use_sde := arg_use_sde a;
       use_sde_at_warmup := arg_use_sde_at_warmup a;
       ent_coef := arg_ent_coef a;
       target_update_interval := arg_target_update_interval a;
       actor_gradient_steps := arg_actor_gradient_steps a;
       diffusion_policy := arg_diffusion_policy a;
       diffusion_act_chunk := chunk;
       diffusion_act_dim := dim;
       noise_critic_grad_steps := arg_noise_critic_grad_steps a;
       critic_backup_combine_type := arg_critic_backup_combine_type a |}) ;;;
  if arg_init_setup_model a then _setup_model else ret tt.

(** [DSRL(...)]: the object is returned when [__init__] returns. *)
Definition new (a : Args) : DSRL * result unit := __init__ a blank.

(** *** [train]: the pure parts *)

(** The local lists of [train] *)
Record Locals : Type := mkLocals {
  ent_coef_losses : list R;
  ent_coefs : list R;
  actor_losses : list R;
  critic_losses : list R;
  noise_critic_losses : list R }.

Definition no_losses : Locals := mkLocals [] [] [] [] [].

(** Lines 236-239: the steps at which the actor is updated.
    [int(gradient_steps / K)] truncates the quotient and raises
    ZeroDivisionError for [K = 0]. *)
Definition actor_gradient_idx (actor_gradient_steps gradient_steps : Z)
  : result (list Z) :=
  if actor_gradient_steps <? 0 then
    Np.linspace_int 0 (gradient_steps - 1) gradient_steps
  else if actor_gradient_steps =? 0 then Raise ZeroDivisionError
  else
    Np.linspace_int (Z.quot gradient_steps actor_gradient_steps - 1)
      (gradient_steps - 1) actor_gradient_steps.

(** Lines 281-284 and 309-312: ['min'] reduces along the ensemble, ['mean']
    averages, any other value leaves the variable as it was ([None] when it
    was not bound before). *)
Definition combine (gm : bool) (combine_type : String.string)
    (unbound : option Tensor) (q : Tensor) : result (option Tensor) :=
  if String.eqb combine_type "min" then
    m <- min_dim1 gm q ;; ret (Some m)
  else if String.eqb combine_type "mean" then ret (Some (mean_dim1 gm q))
  else ret unbound.

(** Reading a local variable that was never bound *)
Definition local {A} (o : option A) : result A :=
  match o with
  | Some x => Ok x
  | None => Raise UnboundLocalError
  end.

(** Lines 280-288, inside [with th.no_grad()]: the TD target from the
    outputs of the target critics on the decoded next action. *)
Definition td_target (combine_type : String.string) (gamma ent_coef : R)
    (rewards dones : Tensor) (next_q_list : list Tensor) (next_log_prob : Tensor)
  : result Tensor :=
  next_q_values <- cat false next_q_list ;;
  combined <- combine false combine_type (Some next_q_values) next_q_values ;;
  next_q_values <- local combined ;;
  next_q_values <-
    op2 false Rminus next_q_values
      (op1 false (Rmult ent_coef) (reshape_col next_log_prob)) ;;
  scaled <- op2 false Rmult
              (op1 false (fun x => x * gamma)%R (op1 false (fun d => 1 - d)%R dones))
              next_q_values ;;
  op2 false Rplus rewards scaled.

(** [sum(xs)] of scalar tensors; [None] is the integer [0] of an empty sum *)
Fixpoint py_sum (gm : bool) (acc : option Tensor) (xs : list Tensor)
  : result (option Tensor) :=
  match xs with
  | [] => Ok acc
  | x :: xs' =>
      match acc with
      | None => py_sum gm (Some x) xs'
      | Some a => s <- op2 gm Rplus a x ;; py_sum gm (Some s) xs'
      end
  end.

(** Lines 295-296: half the sum of the critics' mean squared errors.  With
    no critic the sum is the integer [0] and the assertion fails. *)
Definition critic_loss (current_q_values : list Tensor) (target_q_values : Tensor)
  : result Tensor :=
  losses <- mapM (fun current_q => mse_loss true current_q target_q_values)
              current_q_values ;;
  total <- py_sum true None losses ;;
  match total with
  | Some t => Ok (op1 true (Rmult (1 / 2)) t)
  | None => Raise AssertionError
  end.

(** Line 259: [-(log_ent_coef * (log_prob + target_entropy).detach()).mean()] *)
Definition ent_coef_loss (log_ent_coef target_entropy : R) (log_prob : Tensor)
  : result Tensor :=
  prod <- op2 true Rmult (scalar log_ent_coef true)
            (detach (op1 true (fun x => x + target_entropy)%R log_prob)) ;;
  ret (op1 true Ropp (mean true prod)).

(** Lines 308-313: the actor objective on the noise critic. *)
Definition actor_loss (combine_type : String.string) (ent_coef : R)
    (log_prob : Tensor) (q_pi_list : list Tensor) : result Tensor :=
  q_values_pi <- cat true q_pi_list ;;
  min_qf_pi <- combine true combine_type None q_values_pi ;;
  min_qf_pi <- local min_qf_pi ;;
  diff <- op2 true Rminus (op1 true (Rmult ent_coef) log_prob) min_qf_pi ;;
  ret (mean true diff).

(** Lines 358-363: the distillation loss; [None] is the integer [0]. *)
Fixpoint distill_loss (acc : option Tensor) (current_q_values current_q_noise_vals : list Tensor)
  : result (option Tensor) :=
  match current_q_values with
  | [] => Ok acc
  | current_q :: qs =>
      match current_q_noise_vals with
      | [] => Raise IndexError
      | current_q_noise :: ns =>
          l <- mse_loss true (detach current_q) current_q_noise ;;
          let half := op1 true (Rmult (1 / 2)) l in
          acc' <- match acc with
                  | None => Ok half
                  | Some a => op2 true Rplus a half
                  end ;;
          distill_loss (Some acc') qs ns
      end
  end.

(** Modelled from the spec: [polyak_update] of [common/utils.py], which is
    not among the sources: every target parameter becomes
    [(1 - tau) * target + tau * online]. *)
Definition polyak_update (params target_params : list (list R)) (tau : R)
  : list (list R) :=
  zip_with (zip_with (fun theta theta_targ => (1 - tau) * theta_targ + tau * theta)%R)
    params target_params.

(** *** [train]: the two loops *)

(** A random draw: the generator state is read and advanced. *)
Definition draw : M DSRL nat :=
  s <- get ;;
  modify tick ;;;
  ret (rng s).

(** Calling [self.diffusion_policy], whose default is [None] *)
Definition callable (f : option decoder) : M DSRL decoder :=
  match f with
  | Some g => ret g
  | None => raise TypeError
  end.

(** [diffusion_policy(obs, a.reshape(-1, chunk, dim), return_numpy=False)]
    followed by [.reshape(-1, chunk * dim)] (lines 277-278, 446-447). *)
Definition decode (o : obs) (a : matrix) : M DSRL matrix :=
  s <- get ;;
  let h := hyper s in
  x <- lift (reshape3 (diffusion_act_chunk h) (diffusion_act_dim h) a) ;;
  dp <- callable (diffusion_policy h) ;;
  lift (reshape2 (diffusion_act_chunk h * diffusion_act_dim h) (dp o x)).

Definition with_grad (gm : bool) (ms : list matrix) : list Tensor :=
  map (fun m => mkTensor m gm) ms.

(** Lines 322-325: the two [polyak_update] calls.  The lists
    [batch_norm_stats] and [batch_norm_stats_target] alias the running
    statistics of the two critics, so the second call writes into
    [critic_target]. *)
Definition sync_target (gradient_step : Z) : M DSRL unit :=
  s <- get ;;
  c <- attr (critic s) ;;
  ct <- attr (critic_target s) ;;
  let ct := set_parameters (polyak_update (parameters c) (parameters ct) (tau (hyper s))) ct in
  let ct := set_running_stats (polyak_update (running_stats c) (running_stats ct) 1) ct in
  modify (set_critic_target (Some ct)) ;;;
  modify (log_event (EvTargetSync gradient_step)).

(** Lines 242-325: one iteration of the first loop. *)
Definition gradient_step_body (batch_size : Z) (actor_gradient_idx : list Z)
    (gradient_step : Z) (loc : Locals) : M DSRL Locals :=
  r <- draw ;;
  let replay_data := sample_buffer r batch_size in
  s <- get ;;
  (if use_sde (hyper s) then
     a <- attr (actor s) ;;
     r <- draw ;;
     modify (set_actor (Some (reset_noise a r)))
   else ret tt) ;;;
  s <- get ;;
  a <- attr (actor s) ;;
  r <- draw ;;
  let '(actions_pi, log_prob) := action_log_prob a (observations replay_data) r in
  let log_prob := reshape_col (mkTensor [log_prob] true) in
  (* entropy coefficient *)
  '(ent_coef, ent_coef_loss_v) <-
    match ent_coef_optimizer s, log_ent_coef s with
    | Some _, Some l =>
        te <- match target_entropy s with
              | PyFloat te => ret te
              | PyStr _ => raise TypeError
              end ;;
        loss <- lift (ent_coef_loss l te log_prob) ;;
        v <- lift (item loss) ;;
        ret (exp l, Some (te, v))
    | _, _ =>
        c <- attr (ent_coef_tensor s) ;;
        ret (c, None)
    end ;;
  let loc :=
    match ent_coef_loss_v with
    | Some (_, v) =>
        mkLocals (ent_coef_losses loc ++ [v]) (ent_coefs loc ++ [ent_coef])
          (actor_losses loc) (critic_losses loc) (noise_critic_losses loc)
    | None =>
        mkLocals (ent_coef_losses loc) (ent_coefs loc ++ [ent_coef])
          (actor_losses loc) (critic_losses loc) (noise_critic_losses loc)
    end in
  match ent_coef_loss_v, ent_coef_optimizer s, log_ent_coef s with
  | Some (te, _), Some opt, Some l =>
      let '(opt', l') := ent_coef_update opt l te log_prob in
      modify (set_log_ent_coef (Some l')) ;;;
      modify (set_ent_coef_optimizer (Some opt')) ;;;
      modify (log_event (EvEntCoefStep gradient_step))
  | _, _, _ => ret tt
  end ;;;
  (* with th.no_grad(): the TD target *)
  r <- draw ;;
  let '(next_actions, next_log_prob) :=
    action_log_prob a (next_observations replay_data) r in
  next_actions <- decode (next_observations replay_data) (unscale_action next_actions) ;;
  ct <- attr (critic_target s) ;;
  target_q_values <-
    lift (td_target (critic_backup_combine_type (hyper s)) (gamma (hyper s)) ent_coef
            (mkTensor (rewards replay_data) false) (mkTensor (dones replay_data) false)
            (with_grad false (q_values ct (next_observations replay_data) next_actions))
            (mkTensor [next_log_prob] false)) ;;
  (* the critic *)
  c <- attr (critic s) ;;
  closs <-
    lift (critic_loss
            (with_grad true (q_values c (observations replay_data) (actions replay_data)))
            target_q_values) ;;
  v <- lift (item closs) ;;
  let loc :=
    mkLocals (ent_coef_losses loc) (ent_coefs loc) (actor_losses loc)
      (critic_losses loc ++ [v]) (noise_critic_losses loc) in
  modify (set_critic (Some (critic_update c replay_data target_q_values))) ;;;
  modify (log_event (EvCriticStep gradient_step ent_coef)) ;;;
  (* the actor, at the selected steps *)
  loc <-
    (if Np.contains actor_gradient_idx gradient_step then
       cn <- attr (critic_noise s) ;;
       aloss <-
         lift (actor_loss (critic_backup_combine_type (hyper s)) ent_coef log_prob
                 (with_grad true (q_values cn (observations replay_data) actions_pi))) ;;
       v <- lift (item aloss) ;;
       modify (set_actor (Some (actor_update a cn replay_data ent_coef))) ;;;
       modify (log_event (EvActorStep gradient_step)) ;;;
       ret (mkLocals (ent_coef_losses loc) (ent_coefs loc) (actor_losses loc ++ [v])
              (critic_losses loc) (noise_critic_losses loc))
     else ret loc) ;;
  (* the target networks *)
  (if target_update_interval (hyper s) =? 0 then raise ZeroDivisionError
   else if gradient_step mod target_update_interval (hyper s) =? 0
        then sync_target gradient_step
        else ret tt) ;;;
  ret loc.

(** [DSRL.update_noise_critic]; the result is the loss ([None] for the
    integer [0]) and, for [backward()], the noise it was computed from. *)
Definition update_noise_critic (replay_data : ReplayBufferSamples obs)
  : M DSRL (option Tensor * tensor3) :=
  s <- get ;;
  let h := hyper s in
  (if (diffusion_act_chunk h <? 0) || (diffusion_act_dim h <? 0)
   then raise RuntimeError else ret tt) ;;;
  r <- draw ;;
  let noise_actions :=
    randn r (length (actions replay_data)) (Z.to_nat (diffusion_act_chunk h))
      (Z.to_nat (diffusion_act_dim h)) in
  dp <- callable (diffusion_policy h) ;;
  diffused_actions <-
    lift (reshape2 (diffusion_act_chunk h * diffusion_act_dim h)
            (dp (observations replay_data) noise_actions)) ;;
  c <- attr (critic s) ;;
  let current_q_values :=
    with_grad false (q_values c (observations replay_data) diffused_actions) in
  flat <- lift (reshape2 (diffusion_act_chunk h * diffusion_act_dim h) noise_actions) ;;
  cn <- attr (critic_noise s) ;;
  let current_q_noise_vals :=
    with_grad true (q_values cn (observations replay_data) (scale_action flat)) in
  loss <- lift (distill_loss None current_q_values current_q_noise_vals) ;;
  ret (loss, noise_actions).

(** Lines 328-335: one iteration of the second loop.  When the loss is
    still the integer [0] it has no [item]. *)
Definition noise_critic_body (batch_size : Z) (gradient_step : Z) (loc : Locals)
  : M DSRL Locals :=
  r <- draw ;;
  let replay_data := sample_buffer r batch_size in
  '(loss, noise) <- update_noise_critic replay_data ;;
  critic_distill_loss <- attr loss ;;
  v <- lift (item critic_distill_loss) ;;
  s <- get ;;
  cn <- attr (critic_noise s) ;;
  c <- attr (critic s) ;;
  modify (set_critic_noise (Some (noise_critic_update cn c replay_data noise))) ;;;
  modify (log_event (EvNoiseCriticStep gradient_step)) ;;;
  ret (mkLocals (ent_coef_losses loc) (ent_coefs loc) (actor_losses loc)
         (critic_losses loc) (noise_critic_losses loc ++ [v])).

(** Lines 222-231: training mode and learning rates. *)
Definition train_prologue : M DSRL unit :=
  s <- get ;;
  a <- attr (actor s) ;;
  c <- attr (critic s) ;;
  modify (set_actor (Some (set_training_mode true a))) ;;;
  modify (set_critic (Some (set_training_mode true c))) ;;;
  cn <- attr (critic_noise s) ;;
  modify (set_critic_noise (Some (set_training_mode true cn))) ;;;
  let lr := lr_schedule (_current_progress_remaining s) in
  let upd := fun n : Net => set_optimizer (update_learning_rate lr (optimizer n)) n in
  modify (record "train/learning_rate" lr) ;;;
  modify (set_actor (Some (upd (set_training_mode true a)))) ;;;
  modify (set_critic (Some (upd (set_training_mode true c)))) ;;;
  modify (set_critic_noise (Some (upd (set_training_mode true cn)))) ;;;
  modify (set_ent_coef_optimizer
            (option_map (update_learning_rate lr) (ent_coef_optimizer s))).

(** Lines 337-346: the counter and the metrics. *)
Definition train_epilogue (gradient_steps : Z) (loc : Locals) : M DSRL unit :=
  s <- get ;;
  cn <- attr (critic_noise s) ;;
  modify (set_critic_noise (Some (set_training_mode false cn))) ;;;
  modify (set_n_updates (_n_updates s + gradient_steps)) ;;;
  modify (record "train/n_updates" (IZR (_n_updates s + gradient_steps))) ;;;
  modify (record "train/ent_coef" (Np.mean (ent_coefs loc))) ;;;
  modify (record "train/actor_loss" (Np.mean (actor_losses loc))) ;;;
  modify (record "train/critic_loss" (Np.mean (critic_losses loc))) ;;;
  modify (record "train/noise_critic_loss" (Np.mean (noise_critic_losses loc))) ;;;
  if (0 <? length (ent_coef_losses loc))%nat
  then modify (record "train/ent_coef_loss" (Np.mean (ent_coef_losses loc)))
  else ret tt.

(** The first loop (lines 241-325) *)
Definition critic_phase (gradient_steps batch_size : Z) (idx : list Z) (loc : Locals)
  : M DSRL Locals :=
  for_each (range gradient_steps) (gradient_step_body batch_size idx) loc.

(** The second loop (lines 327-335) *)
Definition noise_critic_phase (batch_size : Z) (loc : Locals) : M DSRL Locals :=
  s <- get ;;
  for_each (range (noise_critic_grad_steps (hyper s))) (noise_critic_body batch_size) loc.

(** [DSRL.train] *)
Definition train (gradient_steps batch_size : Z) : M DSRL unit :=
  train_prologue ;;;
  s <- get ;;
  idx <- lift (actor_gradient_idx (actor_gradient_steps (hyper s)) gradient_steps) ;;
  loc <- critic_phase gradient_steps batch_size idx no_losses ;;
  loc <- noise_critic_phase batch_size loc ;;
  train_epilogue gradient_steps loc.

(** *** [_sample_action] *)

(** [np.clip(x, -1, 1)] *)
Definition clip (x : R) : R := Rmin (Rmax x (-1)) 1.

(** [[self.action_space.sample() for _ in range(n_envs)]] *)
Fixpoint sample_actions (n_envs : nat) : M DSRL matrix :=
  match n_envs with
  | O => ret []
  | S n =>
      r <- draw ;;
      rest <- sample_actions n ;;
      ret (space_sample r :: rest)
  end.

(** [DSRL._sample_action]; [action_noise], when given, is called once. *)
Definition _sample_action (learning_starts : Z) (action_noise : option (nat -> matrix))
    (n_envs : Z) : M DSRL (matrix * matrix) :=
  s <- get ;;
  unscaled_action <-
    (if (num_timesteps s <? learning_starts)
          && negb (use_sde (hyper s) && use_sde_at_warmup (hyper s))
     then sample_actions (Z.to_nat n_envs)
     else
       o <- match _last_obs s with
            | Some o => ret o
            | None => raise AssertionError
            end ;;
       a <- attr (actor s) ;;
       r <- draw ;;
       ret (predict a o r)) ;;
  '(action, buffer_action) <-
    (if action_space_is_box then
       let scaled_action := scale_action unscaled_action in
       scaled_action <-
         match action_noise with
         | Some noise =>
             r <- draw ;;
             noisy <- lift (broadcast Rplus scaled_action (noise r)) ;;
             ret (map (map clip) noisy)
         | None => ret scaled_action
         end ;;
       let buffer_action := scaled_action in
       ret (unscale_action scaled_action, buffer_action)
     else
       let buffer_action := unscaled_action in
       ret (buffer_action, buffer_action)) ;;
  obs <- match _last_obs s with
         | Some o => ret o
         | None => raise RuntimeError
         end ;;
  action <- decode obs action ;;
  let buffer_action := action in
  ret (action, buffer_action).

(** *** [predict_diffused] *)

Section PredictDiffused.
Context {pystate : Type}.

(** [self.policy.predict(observation, state, episode_start, deterministic)]
    of the policy whose actor is the first argument; the policy is created
    together with its actor (lines 173-174 and 217). *)
Variable policy_predict :
  Net -> obs -> option pystate -> option (list bool) -> bool -> nat
  -> matrix * option pystate.

(** [DSRL.predict_diffused] *)
Definition predict_diffused (observation : obs) (state : option pystate)
    (episode_start : option (list bool)) (deterministic : bool)
  : M DSRL (matrix * option pystate) :=
  s <- get ;;
  a <- attr (actor s) ;;
  r <- draw ;;
  let '(unscaled_action, predict_second_return) :=
    policy_predict a observation state episode_start deterministic r in
  '(action, buffer_action) <-
    (if action_space_is_box then
       let scaled_action := scale_action unscaled_action in
       let buffer_action := scaled_action in
       ret (unscale_action scaled_action, buffer_action)
     else
       let buffer_action := unscaled_action in
       ret (buffer_action, buffer_action)) ;;
  action <- decode observation action ;;
  ret (action, predict_second_return).

End PredictDiffused.

(** *** Saving *)

(** [DSRL._get_torch_save_params]: the names of the state dicts and of the
    torch variables that are saved. *)
Definition _get_torch_save_params (s : DSRL)
  : list String.string * list String.string :=
  let state_dicts := ["policy"; "actor.optimizer"; "critic.optimizer"; "critic_noise"] in
  match ent_coef_optimizer s with
  | Some _ => (state_dicts ++ ["ent_coef_optimizer"], ["log_ent_coef"])
  | None => (state_dicts, ["ent_coef_tensor"])
  end.

End Model.

(* ===================================================================== *)
(** ** A small concrete instance *)
(* ===================================================================== *)

(** Two critics on a batch of two transitions, a decoder that is the
    identity and optimizers that subtract a constant: enough to run the
    methods on concrete data. *)
Module Toy.
Local Open Scope string_scope.
Local Open Scope R_scope.

Definition net (p : list (list R)) : Net unit := mkNet p [[0; 1]] tt false.

(** A critic is an ensemble of two networks: with parameters [[b1]; [b2]]
    it answers, for each of them, the column of the row sums of the action
    plus [b]. *)
Definition toy_q_values (n : Net unit) (o : unit) (a : matrix) : list matrix :=
  map (fun p => map (fun row => [sum_list row + hd 0 p]) a)
    [nth 0 (parameters n) []; nth 1 (parameters n) []].

Definition toy_batch : ReplayBufferSamples unit :=
  mkSamples tt [[1]; [2]] tt [[0]; [1]] [[1]; [0]].

#[export] Instance externals : Externals :=
  {| obs := unit;
     optim := unit;
     py_float := PyStr.float_of_decimal;
     base_init := Ok tt;
     base_setup_model := Ok (net [[0]], net [[1]; [2]], net [[3]; [5]]);
     make_policy_critic := Ok (net [[1]; [1]]);
     action_space_dim := 1;
     action_space_is_box := true;
     lr_schedule := fun _ => 1;
     new_adam := fun _ => tt;
     update_learning_rate := fun _ o => o;
     sample_buffer := fun _ _ => toy_batch;
     action_log_prob := fun _ _ _ => ([[1]; [0]], [-1; -2]);
     reset_noise := fun n _ => n;
     q_values := toy_q_values;
     scale_action := fun a => a;
     unscale_action := fun a => a;
     randn := fun _ b c d => repeat (repeat (repeat 0 d) c) b;
     predict := fun _ _ _ => [[1]];
     space_sample := fun _ => [0];
     ent_coef_update := fun o l _ _ => (o, l - 1);
     critic_update := fun n _ _ => set_parameters (map (map (Rplus 1)) (parameters n)) n;
     actor_update := fun n _ _ _ => n;
     noise_critic_update := fun n _ _ _ => n |}.

Definition toy_args : Args :=
  {| arg_tau := 1 / 2;
     arg_gamma := 1 / 2;
     arg_ent_coef := PyStr "auto";
     arg_target_update_interval := 1;
     arg_target_entropy := PyStr "auto";
     arg_use_sde := false;
     arg_use_sde_at_warmup := false;
     arg_init_setup_model := true;
     arg_actor_gradient_steps := 2;
     arg_diffusion_policy := Some (fun _ x => x);
     arg_diffusion_act_dim := Some [1; 1]%Z;
     arg_noise_critic_grad_steps := 1;
     arg_critic_backup_combine_type := "min" |}.

Definition toy : DSRL := fst (new toy_args).

(** The same arguments with another [ent_coef], [_init_setup_model],
    [diffusion_act_dim] or combine rule *)
Definition toy_args_with (ent : pyval) (setup : bool) (act_dim : option (list Z))
    (combine_type : String.string) : Args :=
  {| arg_tau := arg_tau toy_args;
     arg_gamma := arg_gamma toy_args;
     arg_ent_coef := ent;
     arg_target_update_interval := arg_target_update_interval toy_args;
     arg_target_entropy := arg_target_entropy toy_args;
     arg_use_sde := arg_use_sde toy_args;
     arg_use_sde_at_warmup := arg_use_sde_at_warmup toy_args;
     arg_init_setup_model := setup;
     arg_actor_gradient_steps := arg_actor_gradient_steps toy_args;
     arg_diffusion_policy := arg_diffusion_policy toy_args;
     arg_diffusion_act_dim := act_dim;
     arg_noise_critic_grad_steps := arg_noise_critic_grad_steps toy_args;
     arg_critic_backup_combine_type := combine_type |}.

(** An unrecognised combine rule *)
Definition toy_max : DSRL :=
  fst (new (toy_args_with (PyStr "auto") true (Some [1; 1]%Z) "max")).


(** Objects that still have to be set up *)
Definition toy_unset (ent_coef : String.string) : DSRL :=
  fst (new (toy_args_with (PyStr ent_coef) false (Some [1; 1]%Z) "min")).

(** The object during a rollout: the environment has produced an
    observation. *)
Definition toy_rollout : DSRL :=
  {| hyper := hyper toy;
     num_timesteps := 0;
     _last_obs := Some tt;
     _current_progress_remaining := 1;
     target_entropy := target_entropy toy;
     log_ent_coef := log_ent_coef toy;
     ent_coef_optimizer := ent_coef_optimizer toy;
     ent_coef_tensor := ent_coef_tensor toy;
     actor := actor toy;
     critic := critic toy;
     critic_target := critic_target toy;
     critic_noise := critic_noise toy;
     _n_updates := 0;
     logger := [];
     rng := O;
     trace := trace toy |}.

End Toy.

(** Variants of the instance: other step counts, target update intervals
    and decoder dimensions, and a policy that answers a constant. *)
Module ToyMore.
Import Toy.
Local Open Scope string_scope.
Local Open Scope R_scope.

Definition toy_args_steps (K T : Z) (act_dim : list Z) : Args :=
  {| arg_tau := arg_tau toy_args;
     arg_gamma := arg_gamma toy_args;
     arg_ent_coef := arg_ent_coef toy_args;
     arg_target_update_interval := T;
     arg_target_entropy := arg_target_entropy toy_args;
     arg_use_sde := arg_use_sde toy_args;
     arg_use_sde_at_warmup := arg_use_sde_at_warmup toy_args;
     arg_init_setup_model := true;
     arg_actor_gradient_steps := K;
     arg_diffusion_policy := arg_diffusion_policy toy_args;
     arg_diffusion_act_dim := Some act_dim;
     arg_noise_critic_grad_steps := arg_noise_critic_grad_steps toy_args;
     arg_critic_backup_combine_type := arg_critic_backup_combine_type toy_args |}.

Definition toy_steps (K T : Z) : DSRL := fst (new (toy_args_steps K T [1; 1]%Z)).

(** A chunk length of zero *)
Definition toy_no_chunk : DSRL := fst (new (toy_args_steps 2 1 [0; 1]%Z)).

(** [policy.predict] answers one action and hands the state back *)
Definition toy_policy_predict (a : Net unit) (o : unit) (state : option unit)
    (episode_start : option (list bool)) (deterministic : bool) (r : nat)
  : matrix * option unit :=
  ([[1]], state).

End ToyMore.

(* ===================================================================== *)
(** ** The vocabulary of the specification *)
(* ===================================================================== *)

(** [post c s Q]: running [c] from [s] ends in a state and a result that
    satisfy [Q]. *)
Definition post {S A} (c : M S A) (s : S) (Q : S -> result A -> Prop) : Prop :=
  Q (fst (c s)) (snd (c s)).

(** *** Setup *)

Section SetupVocabulary.
Context {ext : Externals}.
Local Open Scope string_scope.
Local Open Scope R_scope.

(** What [_setup_model] has done with [ent_coef] when it returns *)
Definition ent_coef_configured (s s' : DSRL) : Prop :=
  match ent_coef (hyper s) with
  | PyStr str =>
      if PyStr.startswith "auto" str then
        exists init_value,
          0 < init_value /\
          log_ent_coef s' = Some (ln init_value) /\
          ent_coef_optimizer s' = Some (new_adam (lr_schedule 1)) /\
          if PyStr.contains "_" str
          then exists w, PyStr.getitem (PyStr.split "_" str) 1 = Ok w /\
                         py_float w = Ok init_value
          else init_value = 1
      else
        exists v, py_float str = Ok v /\ ent_coef_tensor s' = Some v /\
                  log_ent_coef s' = log_ent_coef s /\
                  ent_coef_optimizer s' = ent_coef_optimizer s
  | PyFloat v =>
      ent_coef_tensor s' = Some v /\ log_ent_coef s' = log_ent_coef s /\
      ent_coef_optimizer s' = ent_coef_optimizer s
  end.

End SetupVocabulary.

(** *** The critic loss, transition by transition *)

Section CriticLossVocabulary.
Local Open Scope R_scope.
Local Open Scope nat_scope.
Local Open Scope string_scope.

(** A column tensor of height [B] given by its entries *)
Definition tab (B : nat) (F : nat -> R) : matrix := map (fun i => [F i]) (seq 0 B).

(** A list as a column tensor *)
Definition col (l : list R) : matrix := map (fun x => [x]) l.

(** The minimum of a non-empty list *)
Fixpoint list_min (x : R) (l : list R) : R :=
  match l with
  | [] => x
  | y :: l' => Rmin x (list_min y l')
  end.

(** The values of the ensemble on transition [i] *)
Definition ensemble_at (qs : list (list R)) (i : nat) : list R :=
  map (fun q => nth i q 0%R) qs.

(** The combine rule of the spec: the minimum, or the mean *)
Definition combine_spec (combine_type : String.string) (qs : list R) : R :=
  if String.eqb combine_type "min"
  then match qs with [] => 0%R | x :: l => list_min x l end
  else (sum_list qs / INR (length qs))%R.

(** The TD target of transition [i] *)
Definition td_target_spec (combine_type : String.string) (gamma ent_coef : R)
    (r d lp : list R) (tq : list (list R)) (i : nat) : R :=
  (nth i r 0 + (1 - nth i d 0) * gamma
               * (combine_spec combine_type (ensemble_at tq i) - ent_coef * nth i lp 0))%R.

(** The mean squared error of a critic against the targets *)
Definition mse_spec (B : nat) (q : list R) (target : nat -> R) : R :=
  (sum_list (map (fun i => (nth i q 0 - target i) * (nth i q 0 - target i)) (seq 0 B))
   / INR B)%R.

Definition critic_loss_spec (B : nat) (qs : list (list R)) (target : nat -> R) : R :=
  (1 / 2 * sum_list (map (fun q => mse_spec B q target) qs))%R.

End CriticLossVocabulary.

(** *** Shapes *)

Section ShapeVocabulary.
Context {ext : Externals}.
Local Open Scope nat_scope.

(** A tensor of shape [(B, w)] *)
Definition shape2 (B w : nat) (m : matrix) : Prop :=
  length m = B /\ Forall (fun row => length row = w) m.

(** A tensor of shape [(B, c, d)] *)
Definition shape3 (B c d : nat) (t : tensor3) : Prop :=
  length t = B /\ Forall (shape2 c d) t.


End ShapeVocabulary.

(** *** The trace of a call of [train] *)

Section TrainVocabulary.
Context {ext : Externals}.
Local Open Scope string_scope.


(** Whether the entropy coefficient is learned *)
Definition learned (s : DSRL) : bool :=
  match ent_coef_optimizer s, log_ent_coef s with
  | Some _, Some _ => true
  | _, _ => false
  end.

(** The coefficient that a gradient step started in [s] reads *)
Definition coef_of (s : DSRL) (a : R) : Prop :=
  match ent_coef_optimizer s, log_ent_coef s with
  | Some _, Some l => a = exp l
  | _, _ => ent_coef_tensor s = Some a
  end.

(** The calls of one complete iteration of the first loop *)
Definition step_events (s : DSRL) (idx : list Z) (i : Z) (a : R) : list event :=
  (if learned s then [EvEntCoefStep i] else []) ++
  [EvCriticStep i a] ++
  (if Np.contains idx i then [EvActorStep i] else []) ++
  (if i mod target_update_interval (hyper s) =? 0 then [EvTargetSync i] else []).

(** What neither loop changes *)
Definition frame (s s' : DSRL) : Prop :=
  hyper s' = hyper s /\ _n_updates s' = _n_updates s /\
  ent_coef_tensor s' = ent_coef_tensor s /\ learned s' = learned s /\
  num_timesteps s' = num_timesteps s /\ target_entropy s' = target_entropy s.

Definition body_post (s : DSRL) (idx : list Z) (i : Z) (loc : Locals)
    (s' : DSRL) (r : result Locals) : Prop :=
  frame s s' /\
  ((trace s' = trace s /\ exists e, r = Raise e) \/
   exists a k, coef_of s a /\
     trace s' = trace s ++ firstn k (step_events s idx i a) /\
     forall loc', r = Ok loc' ->
       trace s' = trace s ++ step_events s idx i a /\
       ent_coefs loc' = ent_coefs loc ++ [a]).

Definition noise_post (s : DSRL) (j : Z) (loc : Locals) (s' : DSRL) (r : result Locals)
  : Prop :=
  frame s s' /\
  ((trace s' = trace s /\ exists e, r = Raise e) \/
   (trace s' = trace s ++ [EvNoiseCriticStep j] /\
    exists loc', r = Ok loc' /\ ent_coefs loc' = ent_coefs loc)).

(** The coefficient of a step of a call started in [s]: [exp] of the
    current logarithm when learned, the constant tensor otherwise. *)
Definition coef_ok (s : DSRL) (a : R) : Prop :=
  if learned s then exists l, a = exp l else ent_coef_tensor s = Some a.

(** The calls of complete iterations over the steps [l], with the
    coefficients [coefs] read at each of them *)
Fixpoint run_events (s : DSRL) (idx : list Z) (l : list Z) (coefs : list R)
  : list event :=
  match l, coefs with
  | i :: l', a :: coefs' => step_events s idx i a ++ run_events s idx l' coefs'
  | _, _ => []
  end.

(** What the first loop leaves behind: complete iterations over a prefix
    [l1] of the steps, then possibly the beginning of one more. *)
Definition phase_post (s : DSRL) (idx l : list Z) (loc : Locals)
    (s' : DSRL) (r : result Locals) : Prop :=
  frame s s' /\
  exists l1 l2 coefs partial,
    l = l1 ++ l2 /\ length coefs = length l1 /\ Forall (coef_ok s) coefs /\
    trace s' = trace s ++ run_events s idx l1 coefs ++ partial /\
    (partial = [] \/
     exists i l3 a k, l2 = i :: l3 /\ coef_ok s a /\
                      partial = firstn k (step_events s idx i a)) /\
    (forall loc', r = Ok loc' ->
       l2 = [] /\ partial = [] /\ ent_coefs loc' = ent_coefs loc ++ coefs).

(** What the second loop leaves behind *)
Definition noise_phase_post (s : DSRL) (l : list Z) (loc : Locals)
    (s' : DSRL) (r : result Locals) : Prop :=
  frame s s' /\
  exists l1 l2,
    l = l1 ++ l2 /\
    trace s' = trace s ++ map EvNoiseCriticStep l1 /\
    (forall loc', r = Ok loc' -> l2 = [] /\ ent_coefs loc' = ent_coefs loc).

(** The steps at which the actor is updated; none when they cannot be
    computed *)
Definition idx_of (s : DSRL) (gradient_steps : Z) : list Z :=
  match actor_gradient_idx (actor_gradient_steps (hyper s)) gradient_steps with
  | Ok idx => idx
  | Raise _ => []
  end.

(** What a call of [train] leaves behind *)
Definition train_post (gradient_steps : Z) (s s' : DSRL) (r : result unit) : Prop :=
  hyper s' = hyper s /\ learned s' = learned s /\
  ent_coef_tensor s' = ent_coef_tensor s /\
  exists l1 l2 coefs partial n1 n2,
    range gradient_steps = l1 ++ l2 /\ length coefs = length l1 /\
    Forall (coef_ok s) coefs /\
    range (noise_critic_grad_steps (hyper s)) = n1 ++ n2 /\
    trace s' =
      trace s ++ (run_events s (idx_of s gradient_steps) l1 coefs ++ partial)
              ++ map EvNoiseCriticStep n1 /\
    (partial = [] \/
     exists i l3 a k, l2 = i :: l3 /\ coef_ok s a /\
       partial = firstn k (step_events s (idx_of s gradient_steps) i a)) /\
    (n1 <> [] -> l2 = [] /\ partial = []) /\
    (r = Ok tt ->
       (exists idx, actor_gradient_idx (actor_gradient_steps (hyper s)) gradient_steps
                    = Ok idx) /\
       l2 = [] /\ partial = [] /\ n2 = [] /\
       _n_updates s' = _n_updates s + gradient_steps /\
       In ("train/ent_coef", Np.mean coefs) (logger s')).

(** The calls appended to the trace between [s] and [s'] *)
Definition new_events (s s' : DSRL) : list event :=
  skipn (length (trace s)) (trace s').






(** Two lists of tensors with the same shapes *)
Definition same_shape (a b : list (list R)) : Prop :=
  Forall2 (fun x y => length x = length y) a b.

(** The collaborators of [train] keep the shapes: actions are [(batch, w)],
    rewards, dones and the [M] outputs of a critic are [(batch, 1)]. *)
Definition train_well_shaped (w M : nat) (batch : obs -> nat) : Prop :=
  (0 < M)%nat /\
  (forall r bs,
     batch (next_observations (sample_buffer r bs))
     = batch (observations (sample_buffer r bs)) /\
     shape2 (batch (observations (sample_buffer r bs))) w (actions (sample_buffer r bs)) /\
     shape2 (batch (observations (sample_buffer r bs))) 1 (rewards (sample_buffer r bs)) /\
     shape2 (batch (observations (sample_buffer r bs))) 1 (dones (sample_buffer r bs))) /\
  (forall a o r,
     shape2 (batch o) w (fst (action_log_prob a o r)) /\
     length (snd (action_log_prob a o r)) = batch o) /\
  (forall n o m,
     shape2 (batch o) w m ->
     length (q_values n o m) = M /\ Forall (shape2 (batch o) 1) (q_values n o m)) /\
  (forall B m, shape2 B w m -> shape2 B w (scale_action m)) /\
  (forall B m, shape2 B w m -> shape2 B w (unscale_action m)) /\
  (forall r B c d, shape3 B c d (randn r B c d)).

(** The object is set up for training with a decoder on [(batch, c, d)]. *)
Definition ready (c d : nat) (dp : decoder) (s : DSRL) : Prop :=
  (0 < c)%nat /\ (0 < d)%nat /\
  diffusion_act_chunk (hyper s) = Z.of_nat c /\
  diffusion_act_dim (hyper s) = Z.of_nat d /\
  diffusion_policy (hyper s) = Some dp /\
  (forall o B x, shape3 B c d x -> shape3 B c d (dp o x)) /\
  actor s <> None /\ critic s <> None /\ critic_target s <> None /\
  critic_noise s <> None /\
  (exists te, target_entropy s = PyFloat te) /\
  (learned s = true \/ ent_coef_tensor s <> None) /\
  target_update_interval (hyper s) <> 0 /\
  (critic_backup_combine_type (hyper s) = "min" \/
   critic_backup_combine_type (hyper s) = "mean").

End TrainVocabulary.

(** *** Further vocabulary: construction, saving, schedules and losses *)

Section CoverageVocabulary.
Context {ext : Externals}.
Local Open Scope string_scope.

(** The arguments [a] with another [_init_setup_model] *)
Definition with_setup (setup : bool) (a : Args) : Args :=
  {| arg_tau := arg_tau a;
     arg_gamma := arg_gamma a;
     arg_ent_coef := arg_ent_coef a;
     arg_target_update_interval := arg_target_update_interval a;
     arg_target_entropy := arg_target_entropy a;
     arg_use_sde := arg_use_sde a;
     arg_use_sde_at_warmup := arg_use_sde_at_warmup a;
     arg_init_setup_model := setup;
     arg_actor_gradient_steps := arg_actor_gradient_steps a;
     arg_diffusion_policy := arg_diffusion_policy a;
     arg_diffusion_act_dim := arg_diffusion_act_dim a;
     arg_noise_critic_grad_steps := arg_noise_critic_grad_steps a;
     arg_critic_backup_combine_type := arg_critic_backup_combine_type a |}.

(** The torch variable of the object that a saved name denotes *)
Definition saved_variable (s : DSRL) (name : String.string) : option R :=
  if String.eqb name "log_ent_coef" then log_ent_coef s
  else if String.eqb name "ent_coef_tensor" then ent_coef_tensor s
  else None.





(** Line 362, summed over the ensemble: half the mean squared difference
    between each critic and the noise critic of the same index *)
Definition distill_loss_spec (B : nat) (qs ns : list (list R)) : R :=
  sum_list
    (zip_with (fun q n => (1 / 2 * mse_spec B q (fun i => nth i n 0))%R) qs ns).

(** Line 313: the mean over the batch of
    [ent_coef * log_prob - combined noise-critic value] *)
Definition actor_loss_spec (combine_type : String.string) (ent_coef : R) (B : nat)
    (lp : list R) (qs : list (list R)) : R :=
  (sum_list
     (map (fun i => ent_coef * nth i lp 0 - combine_spec combine_type (ensemble_at qs i))
        (seq 0 B))
   / INR B)%R.

(** Line 259: minus the mean over the batch of
    [log_ent_coef * (log_prob + target_entropy)] *)
Definition ent_coef_loss_spec (log_ent_coef target_entropy : R) (lp : list R) : R :=
  (- (sum_list (map (fun x => log_ent_coef * (x + target_entropy)) lp)
      / INR (length lp)))%R.

(** What no call of [train] changes, whatever its outcome: the settings of
    the constructor, the counters of the rollout, the target entropy, the
    constant coefficient, and whether the learned coefficient and its
    optimizer exist. *)
Definition settings_kept (s s' : DSRL) : Prop :=
  hyper s' = hyper s /\ num_timesteps s' = num_timesteps s /\
  _last_obs s' = _last_obs s /\
  _current_progress_remaining s' = _current_progress_remaining s /\
  target_entropy s' = target_entropy s /\
  ent_coef_tensor s' = ent_coef_tensor s /\
  (ent_coef_optimizer s' = None <-> ent_coef_optimizer s = None) /\
  (log_ent_coef s' = None <-> log_ent_coef s = None).

(** The keys that the logger was given, in order *)
Definition keys (log : list (String.string * R)) : list String.string := map fst log.

(** The object after successive calls [train(gradient_steps, batch_size)] *)
Definition after_training (runs : list (Z * Z)) (s : DSRL) : DSRL :=
  fold_left (fun s run => fst (train (fst run) (snd run) s)) runs s.

(** Whether [ent_coef] asks for a learned coefficient (line 190) *)
Definition asks_learned (cfg : pyval) : bool :=
  match cfg with
  | PyStr str => PyStr.startswith "auto" str
  | PyFloat _ => false
  end.


End CoverageVocabulary.

(* ===================================================================== *)
(** ** Reasoning about methods *)
(* ===================================================================== *)

Section Hoare.
Context {S : Type}.

Lemma post_bind {A B} (c : M S A) (f : A -> M S B) s Q :
  post c s (fun s1 r1 =>
              match r1 with
              | Ok a => post (f a) s1 Q
              | Raise e => Q s1 (Raise e)
              end) ->
  post (bind c f) s Q.
Proof.
  unfold post. simpl. destruct (c s) as [s1 [a | e]]; simpl; auto.
Qed.

Lemma post_ret {A} (a : A) s (Q : S -> result A -> Prop) :
  Q s (Ok a) -> post (ret a) s Q.
Proof. auto. Qed.

Lemma post_get s (Q : S -> result S -> Prop) : Q s (Ok s) -> post get s Q.
Proof. auto. Qed.

Lemma post_modify (f : S -> S) s (Q : S -> result unit -> Prop) :
  Q (f s) (Ok tt) -> post (modify f) s Q.
Proof. auto. Qed.

Lemma post_lift {A} (r : result A) s (Q : S -> result A -> Prop) :
  Q s r -> post (lift r) s Q.
Proof. auto. Qed.

Lemma post_raise {A} e s (Q : S -> result A -> Prop) :
  Q s (Raise e) -> post (raise e) s Q.
Proof. auto. Qed.

Lemma post_weaken {A} (c : M S A) s (Q Q' : S -> result A -> Prop) :
  post c s Q -> (forall s' r, Q s' r -> Q' s' r) -> post c s Q'.
Proof. unfold post. auto. Qed.

Lemma post_run {A} (c : M S A) s s' r (Q : S -> result A -> Prop) :
  post c s Q -> c s = (s', r) -> Q s' r.
Proof. unfold post. intros H E. rewrite E in H. exact H. Qed.

(** A loop keeps an invariant that its body keeps, whatever the outcome. *)
Lemma post_for_each {A B} (body : A -> B -> M S B) (I : S -> Prop) :
  (forall x acc s, I s -> post (body x acc) s (fun s' _ => I s')) ->
  forall l acc s, I s -> post (for_each l body acc) s (fun s' _ => I s').
Proof.
  intros Hbody. induction l as [| x l IH]; intros acc s Hs.
  - exact Hs.
  - simpl. apply post_bind.
    eapply post_weaken; [apply (Hbody x acc s Hs) |].
    intros s' [b | e] Hs'; [apply IH; exact Hs' | exact Hs'].
Qed.

End Hoare.

(** Projections of updated objects *)
Ltac sim :=
  cbn [trace hyper _n_updates ent_coef_tensor logger target_entropy rng
       num_timesteps _last_obs _current_progress_remaining
       actor critic critic_target critic_noise log_ent_coef ent_coef_optimizer
       set_trace set_hyper set_n_updates set_ent_coef_tensor set_logger
       set_target_entropy set_actor set_critic set_critic_target
       set_critic_noise set_log_ent_coef set_ent_coef_optimizer set_rng
       tick log_event record fst snd] in *.

(** The tests that symbolic execution has decided *)
Ltac rewrite_tests :=
  repeat match goal with
    | H : ent_coef_optimizer _ = _ |- _ => rewrite H
    | H : log_ent_coef _ = _ |- _ => rewrite H
    | H : Np.contains _ _ = _ |- _ => rewrite H
    | H : (_ =? _) = _ |- _ => rewrite H
    end.

Ltac splits := repeat match goal with |- _ /\ _ => split end.

Ltac first_prefix tac :=
  first [tac 0%nat | tac 1%nat | tac 2%nat | tac 3%nat | tac 4%nat].

Ltac wp_step :=
  lazymatch goal with
  | |- post (bind _ _) _ _ => apply post_bind
  | |- post (ret _) _ _ => apply post_ret
  | |- post get _ _ => apply post_get
  | |- post (modify _) _ _ => apply post_modify
  | |- post (raise _) _ _ => apply post_raise
  | |- post (lift ?r) _ _ => apply post_lift; destruct r eqn:?
  | |- post (attr ?o) _ _ => destruct o eqn:?; [apply post_ret | apply post_raise]
  | |- post (if ?b then _ else _) _ _ => destruct b eqn:?
  | |- post (match ?x with _ => _ end) _ _ => destruct x eqn:?
  | |- post (let (_, _) := ?x in _) _ _ => destruct x eqn:?
  end; cbv beta iota.

(* ===================================================================== *)
(** ** Construction and setup *)
(* ===================================================================== *)

Section SetupSpec.
Context {ext : Externals}.
Local Open Scope string_scope.
Local Open Scope R_scope.

Ltac rewrite_bools :=
  repeat match goal with
    | H : ?b = true |- context [?b] => rewrite H
    | H : ?b = false |- context [?b] => rewrite H
    end.

Lemma setup_model_post s :
  post _setup_model s
    (fun s' r =>
       hyper s' = hyper s /\ trace s' = trace s ++ [EvSetupModel] /\
       (r = Ok tt -> ent_coef_configured s s')).
Proof.
  unfold _setup_model.
  repeat wp_step.
  all: unfold ent_coef_configured; sim.
  all: splits; try reflexivity.
  all: intros Hr; try discriminate Hr.
  all: repeat match goal with H : ent_coef _ = _ |- _ => rewrite H end.
  all: rewrite_bools.
  all: eauto 10.
  all: eexists; splits; eauto; try lra.
Qed.

(** When the collaborators succeed, setup does. *)
Lemma setup_model_returns s :
  (exists p, base_setup_model = Ok p) ->
  (exists t, resolve_target_entropy (target_entropy s) = Ok t) ->
  (exists cn, make_policy_critic = Ok cn) ->
  match ent_coef (hyper s) with
  | PyStr str =>
      if PyStr.startswith "auto" str then
        if PyStr.contains "_" str
        then exists w v, PyStr.getitem (PyStr.split "_" str) 1 = Ok w /\
                         py_float w = Ok v /\ 0 < v
        else True
      else exists v, py_float str = Ok v
  | PyFloat _ => True
  end ->
  snd (_setup_model s) = Ok tt.
Proof.
  intros [p Hp] [t Ht] [cn Hcn] Hent.
  change (post _setup_model s (fun _ r => r = Ok tt)).
  unfold _setup_model.
  repeat wp_step.
  all: sim.
  all: try reflexivity.
  all: try congruence.
  all: repeat match goal with H : ent_coef _ = _ |- _ => rewrite H in Hent end.
  all: repeat match goal with
         | H : ?b = true |- _ => rewrite H in Hent
         | H : ?b = false |- _ => rewrite H in Hent
         end.
  all: try (destruct Hent as (w & v & Hw & Hv & Hpos)).
  all: try (destruct Hent as (v & Hv)).
  all: try congruence.
  all: try (assert (w = s0) by congruence; subst; assert (v = r) by congruence; subst; lra).
Qed.

Lemma init_post a :
  post (__init__ a) blank
    (fun s' r =>
       (arg_diffusion_act_dim a = None -> r <> Ok tt /\ ~ In EvSetupModel (trace s')) /\
       (base_init = Ok tt -> arg_diffusion_act_dim a = None -> r = Raise TypeError) /\
       (r = Ok tt ->
          ent_coef (hyper s') = arg_ent_coef a /\
          critic_backup_combine_type (hyper s') = arg_critic_backup_combine_type a /\
          (arg_init_setup_model a = true ->
             ent_coef_configured
               (set_hyper (hyper s') (set_ent_coef_optimizer None (set_log_ent_coef None blank)))
               s'))).
Proof.
  unfold __init__. repeat wp_step.
  all: try (eapply post_weaken; [apply setup_model_post |]; sim;
            intros s' r (Hh & Ht & Hr)).
  all: try apply post_ret.
  all: sim.
  all: splits.
  all: try (intros Hnone;
            first [ rewrite Hnone in *; simpl in *; discriminate
                  | split; [discriminate | simpl; intuition discriminate] ]).
  all: try (intros Hb Hnone;
            first [ congruence | rewrite Hnone in *; simpl in *; congruence ]).
  all: intros Hok; try discriminate Hok.
  all: rewrite ?Hh; splits; try reflexivity.
  all: intros Hsetup; try discriminate Hsetup.
  all: exact (Hr Hok).
Qed.

(** C9: constructing the object with [diffusion_act_dim=None] raises, a
    TypeError when the base class constructor returns, and [_setup_model]
    has not been called. *)
Theorem init_without_act_dim_raises a :
  arg_diffusion_act_dim a = None ->
  (exists e, snd (new a) = Raise e) /\
  ~ In EvSetupModel (trace (fst (new a))) /\
  (base_init = Ok tt -> snd (new a) = Raise TypeError).
Proof.
  intros Hnone. destruct (init_post a) as (H1 & H2 & _).
  fold (new a) in H1, H2. destruct (H1 Hnone) as [Hr Ht].
  splits; auto.
  destruct (snd (new a)) as [[] | e]; [contradiction Hr; reflexivity | eauto].
Qed.

Lemma split_without_separator X :
  PyStr.contains "_" X = false -> PyStr.split "_" X = [X].
Proof.
  induction X as [| c X IH]; simpl; [reflexivity |].
  destruct (Ascii.eqb c "_"); simpl; [discriminate |].
  intros H. rewrite (IH H). reflexivity.
Qed.

Lemma auto_suffix_item X :
  PyStr.contains "_" X = false ->
  PyStr.getitem (PyStr.split "_" (String.append "auto_" X)) 1 = Ok X.
Proof.
  intros H. simpl. rewrite (split_without_separator X H). reflexivity.
Qed.

Lemma raises_unless_returns (r : result unit) :
  r <> Ok tt -> exists e, r = Raise e.
Proof. destruct r as [[] | e]; [intros H; contradiction H; reflexivity | eauto]. Qed.

(** C6 (amended): with [ent_coef] a string, [_setup_model] raises when the
    string has no ['auto'] prefix and [float] rejects it, and when it is
    ['auto_X'], [X] without a further underscore, with [float(X) <= 0]; for
    such an [X] with [float(X) > 0] a setup that returns has set
    [log_ent_coef = log(float(X))], and it returns when the base setup, the
    target entropy and the noise policy succeed. *)
Theorem setup_ent_coef_strings s str :
  ent_coef (hyper s) = PyStr str ->
  (PyStr.startswith "auto" str = false -> (exists e, py_float str = Raise e) ->
   exists e, snd (_setup_model s) = Raise e) /\
  (forall X x,
     str = String.append "auto_" X -> PyStr.contains "_" X = false ->
     py_float X = Ok x ->
     (x <= 0 -> exists e, snd (_setup_model s) = Raise e) /\
     (0 < x ->
        (snd (_setup_model s) = Ok tt ->
         log_ent_coef (fst (_setup_model s)) = Some (ln x)) /\
        ((exists p, base_setup_model = Ok p) ->
         (exists t, resolve_target_entropy (target_entropy s) = Ok t) ->
         (exists cn, make_policy_critic = Ok cn) ->
         snd (_setup_model s) = Ok tt))).
Proof.
  intros Hent.
  destruct (setup_model_post s) as (_ & _ & Hcfg).
  unfold ent_coef_configured in Hcfg. rewrite Hent in Hcfg.
  split.
  - intros Hauto [e He]. apply raises_unless_returns. intros Hok.
    specialize (Hcfg Hok). rewrite Hauto in Hcfg.
    destruct Hcfg as (v & Hv & _). congruence.
  - intros X x -> HX Hx.
    change (PyStr.startswith "auto" (String.append "auto_" X)) with true in Hcfg.
    change (PyStr.contains "_" (String.append "auto_" X)) with true in Hcfg.
    rewrite (auto_suffix_item X HX) in Hcfg.
    assert (Hinit : snd (_setup_model s) = Ok tt ->
                    0 < x /\ log_ent_coef (fst (_setup_model s)) = Some (ln x)).
    { intros Hok. destruct (Hcfg Hok) as (init & Hpos & Hlog & _ & w & Hw & Hf).
      injection Hw as <-. rewrite Hx in Hf. injection Hf as <-. auto. }
    split.
    + intros Hle. apply raises_unless_returns. intros Hok.
      destruct (Hinit Hok) as [Hpos _]. lra.
    + intros Hpos. split; [intros Hok; apply (Hinit Hok) |].
      intros Hb Ht Hn. apply setup_model_returns; auto.
      rewrite Hent.
      change (PyStr.startswith "auto" (String.append "auto_" X)) with true.
      change (PyStr.contains "_" (String.append "auto_" X)) with true.
      rewrite (auto_suffix_item X HX). eauto.
Qed.

End SetupSpec.

(* ===================================================================== *)
(** ** Shapes *)
(* ===================================================================== *)

Section Shapes.
Local Open Scope nat_scope.

Lemma chunks_multiple {A} n : 0 < n ->
  forall k fuel (l : list A),
    length l = k * n -> k <= fuel ->
    exists r, chunks fuel n l = Ok r /\ length r = k /\
              Forall (fun c => length c = n) r /\ concat r = l.
Proof.
  intros Hn. induction k as [| k IH]; intros fuel l Hl Hf.
  - destruct l; [| discriminate Hl]. exists []. destruct fuel; simpl; auto.
  - destruct fuel as [| fuel]; [lia |].
    destruct l as [| a l]; [simpl in Hl; lia |].
    cbn [chunks]. destruct (Nat.ltb_spec (length (a :: l)) n) as [Hlt | _]; [lia |].
    destruct (IH fuel (skipn n (a :: l))) as (r & Hr & Hlen & Hall & Hcat).
    + rewrite length_skipn, Hl. simpl. lia.
    + lia.
    + rewrite Hr. simpl. eexists. split; [reflexivity |].
      split; [simpl; lia |]. split.
      * constructor; [| exact Hall]. rewrite length_firstn. lia.
      * simpl. rewrite Hcat. apply firstn_skipn.
Qed.

Lemma length_concat_rows w (m : matrix) :
  Forall (fun row => length row = w) m -> length (concat m) = length m * w.
Proof.
  induction 1 as [| row m Hrow _ IH]; simpl; [reflexivity |].
  rewrite length_app, IH, Hrow. reflexivity.
Qed.

Lemma reshape3_shape B c d m :
  0 < c -> 0 < d -> shape2 B (c * d) m ->
  exists x, reshape3 (Z.of_nat c) (Z.of_nat d) m = Ok x /\ shape3 B c d x.
Proof.
  intros Hc Hd [HB Hw]. unfold reshape3.
  destruct (Z.leb_spec (Z.of_nat c) 0); [lia |].
  destruct (Z.leb_spec (Z.of_nat d) 0); [lia |]. simpl orb. cbv iota.
  rewrite !Nat2Z.id.
  pose proof (length_concat_rows _ _ Hw) as Hlen. rewrite HB in Hlen.
  destruct (chunks_multiple d Hd (B * c) (length (concat m)) (concat m))
    as (rows & Hrows & Hrl & Hrall & _); [lia | nia |].
  rewrite Hrows. simpl bind.
  destruct (chunks_multiple c Hc B (length rows) rows)
    as (x & Hx & Hxl & Hxall & Hxcat); [lia | nia |].
  rewrite Hx. exists x. split; [reflexivity |]. split; [exact Hxl |].
  apply Forall_forall. intros blk Hblk. split.
  - revert blk Hblk. apply Forall_forall. exact Hxall.
  - apply Forall_forall. intros row Hrow.
    assert (Hin : In row rows).
    { rewrite <- Hxcat. apply in_concat. eauto. }
    exact (proj1 (Forall_forall _ _) Hrall row Hin).
Qed.

Lemma length_flatten3 B c d t : shape3 B c d t -> length (flatten3 t) = B * (c * d).
Proof.
  intros [HB Hall]. unfold flatten3. subst B.
  induction Hall as [| blk t [Hc Hd] _ IH]; simpl; [reflexivity |].
  rewrite length_app, IH, (length_concat_rows d blk Hd), Hc. lia.
Qed.

Lemma reshape2_shape B c d t :
  0 < c -> 0 < d -> shape3 B c d t ->
  exists m, reshape2 (Z.of_nat c * Z.of_nat d) t = Ok m /\ shape2 B (c * d) m.
Proof.
  intros Hc Hd Ht. unfold reshape2.
  destruct (Z.leb_spec (Z.of_nat c * Z.of_nat d) 0); [nia |].
  rewrite <- Nat2Z.inj_mul, Nat2Z.id.
  pose proof (length_flatten3 _ _ _ _ Ht) as Hlen.
  destruct (chunks_multiple (c * d) ltac:(nia) B (length (flatten3 t)) (flatten3 t))
    as (m & Hm & Hml & Hmall & _); [lia | nia |].
  exists m. split; [exact Hm |]. split; assumption.
Qed.



End Shapes.

(* ===================================================================== *)
(** ** The critic loss *)
(* ===================================================================== *)

Section CriticLossSpec.
Local Open Scope R_scope.
Local Open Scope nat_scope.
Local Open Scope string_scope.

Lemma col_tab l : col l = tab (length l) (fun i => nth i l 0%R).
Proof.
  unfold col, tab. induction l as [| x l IH]; [reflexivity |].
  simpl. rewrite <- seq_shift, map_map, IH. reflexivity.
Qed.

Lemma mapM_ok {A B} (g : A -> B) l : mapM (fun x => Ok (g x)) l = Ok (map g l).
Proof. induction l as [| x l IH]; simpl; [| rewrite IH]; reflexivity. Qed.

Lemma mapM_ext {A B} (f g : A -> result B) l :
  (forall x, In x l -> f x = g x) -> mapM f l = mapM g l.
Proof.
  induction l as [| x l IH]; intros H; simpl; [reflexivity |].
  rewrite (H x (or_introl eq_refl)), IH; [reflexivity |].
  intros y Hy. apply H. right. exact Hy.
Qed.

Lemma mapM_map {A B C} (f : B -> result C) (g : A -> B) l :
  mapM f (map g l) = mapM (fun x => f (g x)) l.
Proof.
  induction l as [| x l IH]; simpl; [reflexivity |]. rewrite IH. reflexivity.
Qed.

Lemma zipM_cols f (F G : nat -> R) l :
  zipM (broadcast_row f) (map (fun i => [F i]) l) (map (fun i => [G i]) l)
  = Ok (map (fun i => [f (F i) (G i)]) l).
Proof. induction l as [| i l IH]; simpl; [| rewrite IH]; reflexivity. Qed.

Lemma broadcast_tab f B F G :
  broadcast f (tab B F) (tab B G) = Ok (tab B (fun i => f (F i) (G i))).
Proof.
  unfold tab. destruct (seq 0 B) as [| i [| j l]]; try reflexivity.
  unfold broadcast. apply (zipM_cols f F G (i :: j :: l)).
Qed.

Lemma map_tab (f : R -> R) B F : map (map f) (tab B F) = tab B (fun i => f (F i)).
Proof. unfold tab. rewrite map_map. reflexivity. Qed.

Lemma concat_tab B F : concat (tab B F) = map F (seq 0 B).
Proof.
  unfold tab. induction (seq 0 B) as [| i l IH]; simpl; [| rewrite IH]; reflexivity.
Qed.

Lemma tab_ext B F G : (forall i, i < B -> F i = G i) -> tab B F = tab B G.
Proof.
  intros H. unfold tab. apply map_ext_in. intros i Hi. apply in_seq in Hi.
  rewrite H by lia. reflexivity.
Qed.

Lemma length_tab B F : length (tab B F) = B.
Proof. unfold tab. rewrite length_map, length_seq. reflexivity. Qed.

Lemma zip_app_cols (F : nat -> R) (G : nat -> list R) l :
  zip_with (@app R) (map (fun i => [F i]) l) (map G l) = map (fun i => F i :: G i) l.
Proof. induction l as [| i l IH]; simpl; [| rewrite IH]; reflexivity. Qed.

Lemma cat_dim1_cols B (tq : list (list R)) :
  tq <> [] -> Forall (fun c => length c = B) tq ->
  cat_dim1 (map col tq) = Ok (map (ensemble_at tq) (seq 0 B)).
Proof.
  induction tq as [| c tq IH]; intros Hne Hlen; [contradiction Hne; reflexivity |].
  inversion Hlen as [| ? ? Hc Htq]; subst.
  destruct tq as [| c' tq].
  - simpl. rewrite col_tab. reflexivity.
  - change (cat_dim1 (map col (c :: c' :: tq)))
      with (rest <- cat_dim1 (map col (c' :: tq)) ;;
            if Nat.eqb (length (col c)) (length rest)
            then Ok (zip_with (@app R) (col c) rest) else Raise RuntimeError).
    rewrite IH by (auto; discriminate). simpl bind.
    rewrite col_tab, length_tab, length_map, length_seq, Nat.eqb_refl.
    f_equal. unfold tab. apply zip_app_cols.
Qed.

Lemma Rmin_swap x y z : Rmin y (Rmin x z) = Rmin x (Rmin y z).
Proof. rewrite !Rmin_assoc, (Rmin_comm y x). reflexivity. Qed.

Lemma fold_min_list_min l : forall x, fold_right Rmin x l = list_min x l.
Proof.
  induction l as [| y l IH]; intros x; simpl; [reflexivity |].
  rewrite IH. destruct l as [| z l]; simpl; [apply Rmin_comm | apply Rmin_swap].
Qed.

Lemma sum_fold_left ms : forall acc, fold_left Rplus ms acc = (acc + sum_list ms)%R.
Proof.
  induction ms as [| m ms IH]; intros acc; simpl; [lra |].
  rewrite IH. unfold sum_list. lra.
Qed.

Lemma py_sum_scalars ms : forall acc,
  py_sum true (Some (scalar acc true)) (map (fun m => scalar m true) ms)
  = Ok (Some (scalar (fold_left Rplus ms acc) true)).
Proof.
  induction ms as [| m ms IH]; intros acc; [reflexivity |].
  simpl. apply IH.
Qed.

Lemma op2_tab gm f B F G g1 g2 :
  op2 gm f (mkTensor (tab B F) g1) (mkTensor (tab B G) g2)
  = Ok (mkTensor (tab B (fun i => f (F i) (G i))) (gm && (g1 || g2))).
Proof. unfold op2. simpl. rewrite broadcast_tab. reflexivity. Qed.

Lemma op1_tab gm f B F g :
  op1 gm f (mkTensor (tab B F) g) = mkTensor (tab B (fun i => f (F i))) (gm && g).
Proof. unfold op1. simpl. rewrite map_tab. reflexivity. Qed.

Lemma data_with_grad gm ms : map data (with_grad gm ms) = ms.
Proof. unfold with_grad. rewrite map_map. simpl. apply map_id. Qed.

Lemma combine_tab combine_type B (tq : list (list R)) unbound g :
  combine_type = "min" \/ combine_type = "mean" ->
  tq <> [] ->
  combine false combine_type unbound (mkTensor (map (ensemble_at tq) (seq 0 B)) g)
  = Ok (Some (mkTensor (tab B (fun i => combine_spec combine_type (ensemble_at tq i))) false)).
Proof.
  intros Hct Hne. destruct tq as [| c tq]; [contradiction Hne; reflexivity |].
  unfold combine, combine_spec.
  destruct Hct as [-> | ->]; simpl String.eqb; cbv iota.
  - unfold min_dim1. simpl data.
    rewrite (mapM_ext _ (fun r => Ok [match r with [] => 0%R | x :: l => list_min x l end])).
    + rewrite mapM_ok, map_map. reflexivity.
    + intros r Hr. apply in_map_iff in Hr. destruct Hr as [i [<- _]].
      simpl. rewrite fold_min_list_min. reflexivity.
  - unfold mean_dim1. simpl. rewrite map_map. reflexivity.
Qed.

(** Whatever the operands, nothing propagates through the TD target. *)
Lemma td_target_no_grad combine_type gamma ent_coef rewards dones next_q_list next_log_prob t :
  td_target combine_type gamma ent_coef rewards dones next_q_list next_log_prob = Ok t ->
  requires_grad t = false.
Proof.
  unfold td_target. simpl.
  destruct (cat false next_q_list); [| discriminate].
  destruct (combine false combine_type (Some a) a); [| discriminate].
  destruct (local a0); [| discriminate].
  destruct (op2 false Rminus a1 _); [| discriminate].
  destruct (op2 false Rmult _ a2); [| discriminate].
  unfold op2. simpl. destruct (broadcast Rplus (data rewards) (data a3)); [| discriminate].
  intros H. injection H as <-. reflexivity.
Qed.

Lemma td_target_tab combine_type gamma ent_coef r d lp tq :
  combine_type = "min" \/ combine_type = "mean" ->
  length d = length r -> length lp = length r ->
  tq <> [] -> Forall (fun c => length c = length r) tq ->
  td_target combine_type gamma ent_coef
    (mkTensor (col r) false) (mkTensor (col d) false)
    (with_grad false (map col tq)) (mkTensor [lp] false)
  = Ok (mkTensor (tab (length r) (td_target_spec combine_type gamma ent_coef r d lp tq))
          false).
Proof.
  intros Hct Hd Hlp Hne Hlen. unfold td_target, cat, local.
  rewrite data_with_grad, (cat_dim1_cols (length r)) by assumption. simpl bind.
  rewrite combine_tab by assumption. simpl bind.
  unfold reshape_col. simpl data. simpl concat. rewrite app_nil_r.
  fold (col lp). rewrite (col_tab lp), Hlp, op1_tab, op2_tab. simpl bind.
  rewrite (col_tab d), Hd, !op1_tab, op2_tab. simpl bind.
  rewrite (col_tab r), op2_tab. reflexivity.
Qed.

Lemma mse_loss_tab B q target :
  length q = B ->
  mse_loss true (mkTensor (col q) true) (mkTensor (tab B target) false)
  = Ok (scalar (mse_spec B q target) true).
Proof.
  intros Hq. unfold mse_loss. rewrite (col_tab q), Hq, op2_tab. simpl bind.
  unfold mean, scalar, mse_spec, row_mean. simpl data.
  rewrite concat_tab, length_map, length_seq. reflexivity.
Qed.


End CriticLossSpec.

(* ===================================================================== *)
(** ** The steps selected for the actor *)
(* ===================================================================== *)




Lemma length_range n : length (range n) = Z.to_nat n.
Proof. unfold range. rewrite length_map, length_seq. reflexivity. Qed.









(* ===================================================================== *)
(** ** [train] returns *)
(* ===================================================================== *)

Section PureReturns.
Local Open Scope R_scope.
Local Open Scope nat_scope.
Local Open Scope string_scope.

Lemma shape2_tab B F : shape2 B 1 (tab B F).
Proof.
  split; [apply length_tab |]. unfold tab. apply Forall_map, Forall_forall. reflexivity.
Qed.

Lemma col_of_shape B m : shape2 B 1 m -> exists l, m = col l /\ length l = B.
Proof.
  intros [Hl Hall]. subst B. induction Hall as [| row m Hrow _ (l & -> & Hlen)].
  - exists []. auto.
  - destruct row as [| x [| y row]]; try discriminate Hrow.
    exists (x :: l). split; [reflexivity | simpl; f_equal; exact Hlen].
Qed.

Lemma cols_of_shapes B ms :
  Forall (shape2 B 1) ms -> exists qs, ms = map col qs /\ Forall (fun q => length q = B) qs.
Proof.
  induction 1 as [| m ms Hm _ (qs & -> & Hall)].
  - exists []. auto.
  - destruct (col_of_shape B m Hm) as (l & -> & Hl). exists (l :: qs). auto.
Qed.

Lemma td_target_returns combine_type gamma ent_coef rewards dones qs lp B :
  combine_type = "min" \/ combine_type = "mean" ->
  shape2 B 1 rewards -> shape2 B 1 dones ->
  qs <> [] -> Forall (shape2 B 1) qs -> length lp = B ->
  exists T,
    td_target combine_type gamma ent_coef (mkTensor rewards false) (mkTensor dones false)
      (with_grad false qs) (mkTensor [lp] false)
    = Ok (mkTensor (tab B T) false).
Proof.
  intros Hct Hr Hd Hne Hqs Hlp.
  destruct (col_of_shape _ _ Hr) as (r & -> & Hrl).
  destruct (col_of_shape _ _ Hd) as (d & -> & Hdl).
  destruct (cols_of_shapes _ _ Hqs) as (tq & -> & Htq).
  assert (HB : B = length r) by congruence. clear Hrl. rewrite HB in *. clear HB B.
  eexists. apply td_target_tab; auto; try congruence.
  intros ->. apply Hne. reflexivity.
Qed.

Lemma combine_rows gm combine_type B (tq : list (list R)) unbound g :
  combine_type = "min" \/ combine_type = "mean" ->
  tq <> [] ->
  combine gm combine_type unbound (mkTensor (map (ensemble_at tq) (seq 0 B)) g)
  = Ok (Some (mkTensor (tab B (fun i => combine_spec combine_type (ensemble_at tq i)))
                (gm && g))).
Proof.
  intros Hct Hne. destruct tq as [| c tq]; [contradiction Hne; reflexivity |].
  unfold combine, combine_spec.
  destruct Hct as [-> | ->]; simpl String.eqb; cbv iota.
  - unfold min_dim1. simpl data.
    rewrite (mapM_ext _ (fun r => Ok [match r with [] => 0%R | x :: l => list_min x l end])).
    + rewrite mapM_ok, map_map. reflexivity.
    + intros r Hr. apply in_map_iff in Hr. destruct Hr as [i [<- _]].
      simpl. rewrite fold_min_list_min. reflexivity.
  - unfold mean_dim1. simpl. rewrite map_map. reflexivity.
Qed.

Lemma mse_loss_cols gm B q1 q2 g1 g2 :
  length q1 = B -> length q2 = B ->
  exists x, mse_loss gm (mkTensor (col q1) g1) (mkTensor (col q2) g2)
            = Ok (scalar x (gm && (gm && (g1 || g2)))).
Proof.
  intros H1 H2. unfold mse_loss.
  rewrite (col_tab q1), (col_tab q2), H1, H2, op2_tab. simpl bind.
  eexists. reflexivity.
Qed.

Lemma critic_loss_tab B qs target :
  qs <> [] -> Forall (fun q => length q = B) qs ->
  critic_loss (with_grad true (map col qs)) (mkTensor (tab B target) false)
  = Ok (scalar (critic_loss_spec B qs target) true).
Proof.
  intros Hqne Hqlen.
  unfold critic_loss, with_grad. rewrite map_map, mapM_map.
  rewrite (mapM_ext _ (fun q => Ok (scalar (mse_spec B q target) true))).
  2:{ intros q Hq. apply mse_loss_tab. revert q Hq. apply Forall_forall. exact Hqlen. }
  rewrite mapM_ok. simpl bind.
  destruct qs as [| q qs]; [contradiction Hqne; reflexivity |].
  simpl map. simpl py_sum.
  rewrite <- (map_map (fun q => mse_spec B q target) (fun m => scalar m true)).
  rewrite py_sum_scalars. simpl bind. unfold op1, scalar, critic_loss_spec. simpl.
  rewrite sum_fold_left. reflexivity.
Qed.

Lemma critic_loss_returns B qs target :
  qs <> [] -> Forall (shape2 B 1) qs ->
  exists x, critic_loss (with_grad true qs) (mkTensor (tab B target) false)
            = Ok (scalar x true).
Proof.
  intros Hne Hqs. destruct (cols_of_shapes _ _ Hqs) as (tq & -> & Htq).
  eexists. apply critic_loss_tab; auto. intros ->. apply Hne. reflexivity.
Qed.

Lemma broadcast_scalar f (l : R) m :
  broadcast f [[l]] m = Ok (map (map (f l)) m).
Proof.
  unfold broadcast. induction m as [| row m IH]; [reflexivity |].
  simpl. simpl in IH. rewrite IH. reflexivity.
Qed.

Lemma ent_coef_loss_returns l te t :
  exists x, ent_coef_loss l te t = Ok (scalar x true).
Proof.
  unfold ent_coef_loss, op2. simpl data. rewrite broadcast_scalar. simpl bind.
  eexists. reflexivity.
Qed.

Lemma actor_loss_returns combine_type ent_coef lp qs B :
  combine_type = "min" \/ combine_type = "mean" ->
  length lp = B -> qs <> [] -> Forall (shape2 B 1) qs ->
  exists x,
    actor_loss combine_type ent_coef (reshape_col (mkTensor [lp] true)) (with_grad true qs)
    = Ok (scalar x true).
Proof.
  intros Hct Hlp Hne Hqs. destruct (cols_of_shapes _ _ Hqs) as (tq & -> & Htq).
  assert (Htne : tq <> []) by (intros ->; apply Hne; reflexivity).
  unfold actor_loss, cat, local.
  rewrite data_with_grad, (cat_dim1_cols B) by assumption. simpl bind.
  rewrite combine_rows by assumption. simpl bind.
  unfold reshape_col. simpl data. simpl concat. rewrite app_nil_r.
  fold (col lp). rewrite (col_tab lp), Hlp, op1_tab, op2_tab. simpl bind.
  eexists. unfold mean, scalar. simpl. reflexivity.
Qed.

Lemma distill_loss_returns B : forall qs1 qs2 acc,
  length qs1 = length qs2 ->
  Forall (shape2 B 1) qs1 -> Forall (shape2 B 1) qs2 ->
  (acc = None /\ qs1 <> [] \/ exists x g, acc = Some (scalar x g)) ->
  exists x g, distill_loss acc (with_grad false qs1) (with_grad true qs2)
              = Ok (Some (scalar x g)).
Proof.
  induction qs1 as [| q1 qs1 IH]; intros [| q2 qs2] acc Hlen H1 H2 Hacc;
    try discriminate Hlen.
  - destruct Hacc as [[_ Hne] | (x & g & ->)]; [contradiction Hne; reflexivity |].
    exists x, g. reflexivity.
  - inversion H1 as [| ? ? Hq1 Hqs1]; inversion H2 as [| ? ? Hq2 Hqs2]; subst.
    destruct (col_of_shape _ _ Hq1) as (c1 & -> & Hc1).
    destruct (col_of_shape _ _ Hq2) as (c2 & -> & Hc2).
    destruct (mse_loss_cols true B c1 c2 false true Hc1 Hc2) as (m & Hm).
    cbn [with_grad map distill_loss]. unfold detach. cbn [data].
    rewrite Hm. simpl bind.
    destruct Hacc as [[-> _] | (x & g & ->)].
    + simpl bind. apply IH; auto. right. unfold op1, scalar. simpl. eauto.
    + unfold op2, op1, scalar. simpl. apply IH; auto. right. unfold scalar. eauto.
Qed.

End PureReturns.

Section TrainReturns.
Context {ext : Externals}.
Local Open Scope string_scope.

Ltac wp_det :=
  lazymatch goal with
  | |- post (bind _ _) _ _ => apply post_bind
  | |- post (ret _) _ _ => apply post_ret
  | |- post get _ _ => apply post_get
  | |- post (modify _) _ _ => apply post_modify
  end; cbv beta iota.

(** The attributes whose value is known *)
Ltac rw_fields :=
  repeat match goal with
    | H : actor ?s = _ |- context [actor ?s] => rewrite H
    | H : critic ?s = _ |- context [critic ?s] => rewrite H
    | H : critic_target ?s = _ |- context [critic_target ?s] => rewrite H
    | H : critic_noise ?s = _ |- context [critic_noise ?s] => rewrite H
    | H : target_entropy ?s = _ |- context [target_entropy ?s] => rewrite H
    | H : ent_coef_optimizer ?s = _ |- context [ent_coef_optimizer ?s] => rewrite H
    | H : log_ent_coef ?s = _ |- context [log_ent_coef ?s] => rewrite H
    | H : ent_coef_tensor ?s = _ |- context [ent_coef_tensor ?s] => rewrite H
    | H : diffusion_policy (hyper ?s) = _ |- context [diffusion_policy (hyper ?s)] =>
        rewrite H
    end.

Lemma decode_post s o a B c d dp :
  (0 < c)%nat -> (0 < d)%nat ->
  diffusion_act_chunk (hyper s) = Z.of_nat c ->
  diffusion_act_dim (hyper s) = Z.of_nat d ->
  diffusion_policy (hyper s) = Some dp ->
  (forall o B x, shape3 B c d x -> shape3 B c d (dp o x)) ->
  shape2 B (c * d) a ->
  post (decode o a) s (fun s' r => s' = s /\ exists m, r = Ok m /\ shape2 B (c * d) m).
Proof.
  intros Hc Hd Hchunk Hdim Hdp Hshape Ha.
  destruct (reshape3_shape B c d a Hc Hd Ha) as (x & Hx & Hx3).
  destruct (reshape2_shape B c d (dp o x) Hc Hd (Hshape _ _ _ Hx3)) as (m & Hm & Hm2).
  unfold decode, post. simpl. rewrite Hchunk, Hdim, Hx. simpl.
  rewrite Hdp. simpl. rewrite Hm. simpl. eauto.
Qed.

Lemma q_values_nonempty w M batch n o m :
  train_well_shaped w M batch -> shape2 (batch o) w m ->
  q_values n o m <> [] /\ Forall (shape2 (batch o) 1) (q_values n o m).
Proof.
  intros (HM & _ & _ & Hq & _) Hm. destruct (Hq n o m Hm) as [Hlen Hall].
  split; [| exact Hall]. intros E. rewrite E in Hlen. simpl in Hlen. lia.
Qed.

Lemma gradient_step_body_returns w M batch c d dp batch_size idx i loc s :
  train_well_shaped w M batch -> w = (c * d)%nat -> ready c d dp s ->
  post (gradient_step_body batch_size idx i loc) s
    (fun s' r => ready c d dp s' /\ exists loc', r = Ok loc').
Proof.
  intros Hws -> Hready.
  pose proof Hws as (HM & Hbuf & Hact & Hq & Hsc & Hun & Hrandn).
  pose proof Hready as (Hc & Hd & Hchunk & Hdim & Hdp & Hshape & Ha & Hcr & Hct & Hcn
                        & [te Hte] & Hmode & Hint & Hcomb).
  destruct (actor s) as [a |] eqn:Ea; [| contradiction Ha; reflexivity].
  destruct (critic s) as [cr |] eqn:Ecr; [| contradiction Hcr; reflexivity].
  destruct (critic_target s) as [ct |] eqn:Ect; [| contradiction Hct; reflexivity].
  destruct (critic_noise s) as [cn |] eqn:Ecn; [| contradiction Hcn; reflexivity].
  unfold learned in Hmode.
  destruct (Hbuf (rng s) batch_size) as (Hb1 & Hb2 & Hb3 & Hb4).
  assert (Hint0 : (target_update_interval (hyper s) =? 0) = false)
    by (apply Z.eqb_neq; assumption).
  unfold gradient_step_body, draw, sync_target.
  destruct (ent_coef_optimizer s) as [opt |] eqn:Eo;
    destruct (log_ent_coef s) as [l |] eqn:El;
    destruct (ent_coef_tensor s) as [v |] eqn:Ev;
    try (destruct Hmode as [Hm | Hm]; [discriminate Hm | contradiction Hm; reflexivity]).
  all: repeat first
      [ wp_det
      | progress (sim; rw_fields; rewrite ?Hint0; cbn [attr])
      | match goal with
        | |- post (if ?b then _ else _) _ _ => destruct b eqn:?
        | |- post (let (_, _) := action_log_prob ?a ?o ?r in _) _ _ =>
            let H := fresh "Hshp" in
            pose proof (Hact a o r) as H;
            destruct (action_log_prob a o r) as [? ?]; simpl in H; destruct H
        | |- post (let (_, _) := ?x in _) _ _ => destruct x as [? ?]
        | |- post (lift (ent_coef_loss ?l ?te ?t)) _ _ =>
            let H := fresh in
            destruct (ent_coef_loss_returns l te t) as [? H]; rewrite H; apply post_lift
        | |- post (lift (item (scalar _ _))) _ _ => apply post_lift; cbn [item scalar data]
        | |- post (lift (td_target ?k ?g ?e (mkTensor ?rw false) (mkTensor ?dn false)
                           (with_grad false (q_values ?n ?o ?m))
                           (mkTensor [?lp] false))) _ _ =>
            let H := fresh in let Hne := fresh in let Hall := fresh in
            destruct (q_values_nonempty (c * d) M batch n o m Hws) as [Hne Hall];
            [ assumption |];
            destruct (td_target_returns k g e rw dn (q_values n o m) lp (batch o)) as [? H];
            [ assumption | rewrite Hb1; assumption | rewrite Hb1; assumption
            | assumption | assumption | assumption |];
            rewrite H; apply post_lift; cbv beta iota
        | |- post (lift (critic_loss (with_grad true (q_values ?n ?o ?m))
                           (mkTensor (tab _ ?T) false))) _ _ =>
            let H := fresh in let Hne := fresh in let Hall := fresh in
            destruct (q_values_nonempty (c * d) M batch n o m Hws) as [Hne Hall];
            [ assumption |];
            destruct (critic_loss_returns (batch o) (q_values n o m) T) as [? H];
            [ assumption | assumption |];
            rewrite Hb1 in *; rewrite H; apply post_lift; cbv beta iota
        | |- post (lift (actor_loss ?k ?e (reshape_col (mkTensor [?lp] true))
                           (with_grad true (q_values ?n ?o ?m)))) _ _ =>
            let H := fresh in let Hne := fresh in let Hall := fresh in
            destruct (q_values_nonempty (c * d) M batch n o m Hws) as [Hne Hall];
            [ assumption |];
            destruct (actor_loss_returns k e lp (q_values n o m) (batch o)) as [? H];
            [ assumption | assumption | assumption | assumption |];
            rewrite H; apply post_lift; cbv beta iota
        | |- post (decode ?o ?x) ?s0 _ =>
            eapply post_weaken;
            [ apply (decode_post s0 o x (batch o) c d dp); sim; auto
            | intros ? ? [-> (? & -> & ?)] ]
        end ].
  all: split; [| eexists; reflexivity].
  all: unfold ready, learned; sim; rw_fields.
  all: splits; try assumption; try discriminate; eauto.
  all: try (left; reflexivity); try (right; discriminate).
Qed.

Lemma noise_critic_body_returns w M batch c d dp batch_size j loc s :
  train_well_shaped w M batch -> w = (c * d)%nat -> ready c d dp s ->
  post (noise_critic_body batch_size j loc) s
    (fun s' r => ready c d dp s' /\ exists loc', r = Ok loc').
Proof.
  intros Hws -> Hready.
  pose proof Hws as (HM & Hbuf & Hact & Hq & Hsc & Hun & Hrandn).
  pose proof Hready as (Hc & Hd & Hchunk & Hdim & Hdp & Hshape & Ha & Hcr & Hct & Hcn
                        & [te Hte] & Hmode & Hint & Hcomb).
  destruct (actor s) as [a |] eqn:Ea; [| contradiction Ha; reflexivity].
  destruct (critic s) as [cr |] eqn:Ecr; [| contradiction Hcr; reflexivity].
  destruct (critic_target s) as [ct |] eqn:Ect; [| contradiction Hct; reflexivity].
  destruct (critic_noise s) as [cn |] eqn:Ecn; [| contradiction Hcn; reflexivity].
  destruct (Hbuf (rng s) batch_size) as (Hb1 & Hb2 & Hb3 & Hb4).
  assert (Hneg : (Z.of_nat c <? 0) || (Z.of_nat d <? 0) = false).
  { destruct (Z.ltb_spec (Z.of_nat c) 0); [lia |].
    destruct (Z.ltb_spec (Z.of_nat d) 0); [lia | reflexivity]. }
  unfold noise_critic_body, update_noise_critic, draw.
  pose proof (proj1 Hb2) as Hlen.
  repeat first
      [ wp_det
      | progress (sim; rw_fields; rewrite ?Hchunk, ?Hdim, ?Hneg, ?Nat2Z.id, ?Hlen;
                  cbn [attr callable])
      | match goal with
        | |- post (lift (reshape2 _ ?t)) _ _ =>
            let H := fresh in
            destruct (reshape2_shape
                        (batch (observations (sample_buffer (rng s) batch_size)))
                        c d t Hc Hd) as (? & H & ?);
            [ first [apply Hshape; apply Hrandn | apply Hrandn]
            | rewrite H; apply post_lift; cbv beta iota ]
        | |- post (lift (distill_loss None (with_grad false (q_values ?n1 ?o ?m1))
                           (with_grad true (q_values ?n2 ?o ?m2)))) _ _ =>
            let H := fresh in
            let L1 := fresh in let L2 := fresh in
            let F1 := fresh in let F2 := fresh in
            destruct (Hq n1 o m1) as [L1 F1]; [assumption |];
            destruct (Hq n2 o m2) as [L2 F2]; [apply Hsc; assumption |];
            destruct (distill_loss_returns (batch o) (q_values n1 o m1) (q_values n2 o m2)
                        None) as (? & ? & H);
            [ congruence | assumption | assumption
            | left; split; [reflexivity | intros E0; rewrite E0 in L1; simpl in L1; lia]
            | rewrite H; apply post_lift; cbv beta iota ]
        | |- post (lift (item (scalar _ _))) _ _ => apply post_lift; cbn [item scalar data]
        end ].
  all: split; [| eexists; reflexivity].
  all: unfold ready, learned; sim; rw_fields.
  all: splits; try assumption; try discriminate; eauto.
Qed.

(** A loop whose body returns and keeps an invariant returns and keeps it. *)
Lemma for_each_returns {A B} (body : A -> B -> M DSRL B) (I : DSRL -> Prop) :
  (forall x acc s, I s -> post (body x acc) s (fun s' r => I s' /\ exists b, r = Ok b)) ->
  forall l acc s,
    I s -> post (for_each l body acc) s (fun s' r => I s' /\ exists b, r = Ok b).
Proof.
  intros Hbody. induction l as [| x l IH]; intros acc s Hs.
  - apply post_ret. eauto.
  - simpl. apply post_bind. eapply post_weaken; [apply Hbody; exact Hs |].
    intros s' r [Hs' [b ->]]. apply IH. exact Hs'.
Qed.

Lemma train_prologue_returns c d dp s :
  ready c d dp s ->
  post train_prologue s
    (fun s' r => ready c d dp s' /\ hyper s' = hyper s /\ r = Ok tt).
Proof.
  intros Hready.
  pose proof Hready as (Hc & Hd & Hchunk & Hdim & Hdp & Hshape & Ha & Hcr & Hct & Hcn
                        & [te Hte] & Hmode & Hint & Hcomb).
  destruct (actor s) as [a |] eqn:Ea; [| contradiction Ha; reflexivity].
  destruct (critic s) as [cr |] eqn:Ecr; [| contradiction Hcr; reflexivity].
  destruct (critic_noise s) as [cn |] eqn:Ecn; [| contradiction Hcn; reflexivity].
  unfold train_prologue.
  repeat first [ wp_det | progress (sim; rw_fields; cbn [attr]) ].
  split; [| split; reflexivity].
  unfold ready, learned in *; sim; rw_fields.
  splits; try assumption; try discriminate; eauto.
  destruct (ent_coef_optimizer s); simpl; assumption.
Qed.

Lemma train_epilogue_returns c d dp G loc s :
  ready c d dp s ->
  post (train_epilogue G loc) s (fun s' r => r = Ok tt).
Proof.
  intros Hready.
  pose proof Hready as (Hc & Hd & Hchunk & Hdim & Hdp & Hshape & Ha & Hcr & Hct & Hcn & _).
  destruct (critic_noise s) as [cn |] eqn:Ecn; [| contradiction Hcn; reflexivity].
  unfold train_epilogue.
  repeat first
    [ wp_det
    | progress (sim; rw_fields; cbn [attr])
    | match goal with |- post (if ?b then _ else _) _ _ => destruct b end ].
  all: reflexivity.
Qed.

Lemma actor_gradient_idx_returns K G :
  K <> 0 -> 0 <= G -> exists idx, actor_gradient_idx K G = Ok idx.
Proof.
  intros HK HG. unfold actor_gradient_idx, Np.linspace_int.
  destruct (Z.ltb_spec K 0).
  - destruct (Z.ltb_spec G 0); [lia |]. eauto.
  - destruct (Z.eqb_spec K 0); [contradiction |].
    destruct (Z.ltb_spec K 0); [lia |]. eauto.
Qed.

(** [train] returns: with a decoder, critics and a buffer of matching
    shapes, a combination type among ['min'] and ['mean'] and a number of
    actor updates other than zero, no statement of [train] raises. *)
Lemma train_returns w M batch c d dp gradient_steps batch_size s :
  train_well_shaped w M batch -> w = (c * d)%nat -> ready c d dp s ->
  actor_gradient_steps (hyper s) <> 0 -> 0 <= gradient_steps ->
  snd (train gradient_steps batch_size s) = Ok tt.
Proof.
  intros Hws Hw Hready HK HG.
  enough (H : post (train gradient_steps batch_size) s (fun _ r => r = Ok tt)) by exact H.
  unfold train. apply post_bind.
  eapply post_weaken; [apply train_prologue_returns; exact Hready |].
  intros s0 r0 (Hr0 & Hh0 & ->).
  apply post_bind, post_get. cbv beta iota.
  destruct (actor_gradient_idx_returns (actor_gradient_steps (hyper s0)) gradient_steps)
    as [idx Hidx]; [| exact HG |].
  { rewrite Hh0. exact HK. }
  rewrite Hidx. apply post_bind, post_lift. cbv beta iota.
  apply post_bind. unfold critic_phase.
  eapply post_weaken.
  { apply (for_each_returns _ (ready c d dp)); [| exact Hr0].
    intros i acc s1 Hs1.
    apply (gradient_step_body_returns w M batch c d dp); assumption. }
  intros s1 r1 [Hr1 [loc1 ->]].
  apply post_bind. unfold noise_critic_phase. apply post_bind, post_get. cbv beta iota.
  eapply post_weaken.
  { apply (for_each_returns _ (ready c d dp)); [| exact Hr1].
    intros j acc s2 Hs2.
    apply (noise_critic_body_returns w M batch c d dp); assumption. }
  intros s2 r2 [Hr2 [loc2 ->]].
  apply (train_epilogue_returns c d dp). exact Hr2.
Qed.

End TrainReturns.

Section TrainSpec.
Context {ext : Externals}.
Local Open Scope string_scope.

Lemma gradient_step_body_post batch_size idx i loc s :
  post (gradient_step_body batch_size idx i loc) s (body_post s idx i loc).
Proof.
  unfold gradient_step_body, draw, decode, callable, sync_target.
  repeat wp_step.
  all: unfold body_post, frame, step_events, coef_of, learned.
  all: sim.
  all: rewrite_tests.
  all: split; [repeat split; reflexivity |].
  all: first
    [ left; split; [reflexivity | eexists; reflexivity]
    | right; eexists;
      first_prefix ltac:(fun k =>
        exists k;
        split; [first [reflexivity | eassumption] |];
        split; [cbn [firstn app]; rewrite <- ?app_assoc; reflexivity |];
        intros loc' Hloc;
        first [ discriminate Hloc
              | injection Hloc as <-;
                split; [cbn [app]; rewrite <- ?app_assoc; reflexivity | reflexivity] ])
    | idtac ].
Qed.

Lemma noise_critic_body_post batch_size j loc s :
  post (noise_critic_body batch_size j loc) s (noise_post s j loc).
Proof.
  unfold noise_critic_body, update_noise_critic, draw, callable.
  repeat wp_step.
  all: unfold noise_post, frame, learned.
  all: sim.
  all: split; [repeat split; reflexivity |].
  all: first
    [ left; split; [reflexivity | eexists; reflexivity]
    | right; split; [reflexivity | eexists; split; reflexivity] ].
Qed.

Lemma coef_of_ok s a : coef_of s a -> coef_ok s a.
Proof.
  unfold coef_of, coef_ok, learned.
  destruct (ent_coef_optimizer s), (log_ent_coef s); eauto.
Qed.

Lemma frame_refl s : frame s s.
Proof. unfold frame. repeat split; reflexivity. Qed.

Lemma frame_trans s1 s2 s3 : frame s1 s2 -> frame s2 s3 -> frame s1 s3.
Proof.
  unfold frame. intros (A1 & A2 & A3 & A4 & A5 & A6) (B1 & B2 & B3 & B4 & B5 & B6).
  repeat split; congruence.
Qed.

Lemma frame_coef_ok s s' a : frame s s' -> coef_ok s' a -> coef_ok s a.
Proof.
  unfold frame, coef_ok. intros (_ & _ & Ht & Hl & _). rewrite Hl, Ht. auto.
Qed.

Lemma frame_step_events s s' idx i a :
  frame s s' -> step_events s' idx i a = step_events s idx i a.
Proof.
  unfold frame, step_events. intros (Hh & _ & _ & Hl & _). rewrite Hl, Hh. reflexivity.
Qed.

Lemma frame_run_events s s' idx l coefs :
  frame s s' -> run_events s' idx l coefs = run_events s idx l coefs.
Proof.
  intros F. revert coefs. induction l as [| i l IH]; intros [| a coefs]; simpl; auto.
  rewrite (frame_step_events _ _ _ _ _ F), IH. reflexivity.
Qed.

Lemma critic_loop_post batch_size idx l :
  forall loc s,
    post (for_each l (gradient_step_body batch_size idx) loc) s (phase_post s idx l loc).
Proof.
  induction l as [| i l IH]; intros loc s.
  - apply post_ret. split; [apply frame_refl |].
    exists [], [], [], []. simpl. rewrite !app_nil_r.
    splits; auto.
    intros loc' H. injection H as <-. rewrite ?app_nil_r. auto.
  - simpl. apply post_bind.
    eapply post_weaken; [apply gradient_step_body_post |].
    intros s1 r1 [F1 H1]. destruct r1 as [loc1 | e].
    + destruct H1 as [[_ [e He]] | (a & k & Ha & _ & Hok)]; [discriminate He |].
      destruct (Hok loc1 eq_refl) as [Ht1 Hc1].
      eapply post_weaken; [apply IH |].
      intros s' r (F2 & l1 & l2 & coefs & partial & El & Elen & Hcoefs & Ht & Hp & Hr).
      split; [eapply frame_trans; eauto |].
      exists (i :: l1), l2, (a :: coefs), partial.
      splits.
      * simpl. congruence.
      * simpl. congruence.
      * constructor; [apply coef_of_ok; exact Ha |].
        eapply Forall_impl; [| exact Hcoefs]. intros x. apply frame_coef_ok. exact F1.
      * rewrite Ht, Ht1. simpl.
        rewrite (frame_run_events _ _ _ _ _ F1). rewrite <- !app_assoc. reflexivity.
      * destruct Hp as [-> | (i' & l3 & a' & k' & E2 & Ha' & Ep)]; [left; reflexivity |].
        right. exists i', l3, a', k'. splits; auto.
        -- eapply frame_coef_ok; eauto.
        -- rewrite Ep, (frame_step_events _ _ _ _ _ F1). reflexivity.
      * intros loc' H. destruct (Hr _ H) as (-> & -> & ->).
        rewrite Hc1, <- app_assoc. auto.
    + split; [exact F1 |].
      destruct H1 as [[Ht _] | (a & k & Ha & Ht & _)].
      * exists [], (i :: l), [], []. simpl. rewrite app_nil_r.
        splits; auto; intros loc' H; discriminate H.
      * exists [], (i :: l), [], (firstn k (step_events s idx i a)). simpl.
        splits; auto.
        -- right. exists i, l, a, k. splits; auto. apply coef_of_ok. exact Ha.
        -- intros loc' H; discriminate H.
Qed.

Lemma noise_loop_post batch_size l :
  forall loc s,
    post (for_each l (noise_critic_body batch_size) loc) s (noise_phase_post s l loc).
Proof.
  induction l as [| j l IH]; intros loc s.
  - apply post_ret. split; [apply frame_refl |].
    exists [], []. simpl. rewrite app_nil_r. splits; auto.
    intros loc' H. injection H as <-. auto.
  - simpl. apply post_bind.
    eapply post_weaken; [apply noise_critic_body_post |].
    intros s1 r1 [F1 H1]. destruct r1 as [loc1 | e].
    + destruct H1 as [[_ [e He]] | (Ht1 & loc' & Hl & Hc1)]; [discriminate He |].
      injection Hl as <-.
      eapply post_weaken; [apply IH |].
      intros s' r (F2 & l1 & l2 & El & Ht & Hr).
      split; [eapply frame_trans; eauto |].
      exists (j :: l1), l2. splits.
      * simpl. congruence.
      * rewrite Ht, Ht1. simpl. rewrite <- app_assoc. reflexivity.
      * intros loc2 H. destruct (Hr _ H) as [-> ->]. auto.
    + split; [exact F1 |].
      destruct H1 as [[Ht _] | (_ & loc' & Hl & _)]; [| discriminate Hl].
      exists [], (j :: l). simpl. rewrite app_nil_r.
      splits; auto; intros loc' H; discriminate H.
Qed.

Lemma train_prologue_post s :
  post train_prologue s (fun s' _ => frame s s' /\ trace s' = trace s).
Proof.
  unfold train_prologue.
  repeat wp_step.
  all: unfold frame, learned; sim.
  all: splits; try reflexivity.
  all: destruct (ent_coef_optimizer s); reflexivity.
Qed.

Lemma train_epilogue_post gradient_steps loc s :
  post (train_epilogue gradient_steps loc) s
    (fun s' r =>
       trace s' = trace s /\ hyper s' = hyper s /\ learned s' = learned s /\
       ent_coef_tensor s' = ent_coef_tensor s /\
       (r = Ok tt ->
          _n_updates s' = _n_updates s + gradient_steps /\
          In ("train/ent_coef", Np.mean (ent_coefs loc)) (logger s'))).
Proof.
  unfold train_epilogue.
  repeat wp_step.
  all: unfold learned; sim.
  all: splits; try reflexivity.
  all: intros H; first [discriminate H | split; [reflexivity |]].
  all: rewrite ?in_app_iff; simpl; tauto.
Qed.

Lemma train_post_stuck gradient_steps s s' e :
  frame s s' -> trace s' = trace s ->
  train_post gradient_steps s s' (Raise e).
Proof.
  intros F Ht. split; [apply F |]. split; [apply F |]. split; [apply F |].
  exists [], (range gradient_steps), [], [], [], (range (noise_critic_grad_steps (hyper s))).
  simpl. rewrite !app_nil_r.
  splits; auto.
  - intros H. contradiction H. reflexivity.
  - intros H. discriminate H.
Qed.

Lemma train_spec gradient_steps batch_size s :
  post (train gradient_steps batch_size) s (train_post gradient_steps s).
Proof.
  unfold train. apply post_bind.
  eapply post_weaken; [apply train_prologue_post |].
  intros s0 r0 [F0 T0].
  assert (Hh0 : hyper s0 = hyper s) by apply F0.
  destruct r0 as [[] | e]; [| apply train_post_stuck; auto].
  apply post_bind, post_get, post_bind, post_lift.
  rewrite Hh0.
  destruct (actor_gradient_idx (actor_gradient_steps (hyper s)) gradient_steps)
    as [idx | e] eqn:Hidx; [| apply train_post_stuck; auto].
  assert (Hio : idx_of s gradient_steps = idx) by (unfold idx_of; rewrite Hidx; reflexivity).
  unfold train_post. rewrite Hio. clear Hio.
  apply post_bind. unfold critic_phase.
  eapply post_weaken; [apply critic_loop_post |].
  intros s1 r1 (F1 & l1 & l2 & coefs & partial & El & Elen & Hcoefs & T1 & Hp & Hr1).
  assert (F01 : frame s s1) by (eapply frame_trans; eauto).
  assert (Hh1 : hyper s1 = hyper s) by apply F01.
  assert (Hcoefs' : Forall (coef_ok s) coefs).
  { eapply Forall_impl; [| exact Hcoefs]. intros x. apply frame_coef_ok. exact F0. }
  assert (Hp' : partial = [] \/
     exists i l3 a k, l2 = i :: l3 /\ coef_ok s a /\
       partial = firstn k (step_events s idx i a)).
  { destruct Hp as [-> | (i & l3 & a & k & E2 & Ha & Ep)]; [left; reflexivity |].
    right. exists i, l3, a, k. splits; auto.
    - exact (frame_coef_ok _ _ _ F0 Ha).
    - rewrite Ep, (frame_step_events _ _ _ _ _ F0). reflexivity. }
  rewrite (frame_run_events _ _ _ _ _ F0), T0 in T1.
  destruct r1 as [loc1 | e].
  2:{ split; [exact Hh1 |]. split; [apply F01 |]. split; [apply F01 |].
      exists l1, l2, coefs, partial, [], (range (noise_critic_grad_steps (hyper s))).
      simpl. rewrite app_nil_r. splits; auto.
      - intros H. contradiction H. reflexivity.
      - intros H. discriminate H. }
  destruct (Hr1 loc1 eq_refl) as (-> & -> & Hc1).
  apply post_bind. unfold noise_critic_phase. apply post_bind, post_get.
  eapply post_weaken; [apply noise_loop_post |].
  intros s2 r2 (F2 & n1 & n2 & En & T2 & Hr2).
  assert (F02 : frame s s2) by (eapply frame_trans; eauto).
  assert (Hh2 : hyper s2 = hyper s) by apply F02.
  rewrite Hh1 in En. rewrite T1 in T2.
  destruct r2 as [loc2 | e].
  2:{ split; [exact Hh2 |]. split; [apply F02 |]. split; [apply F02 |].
      exists l1, [], coefs, [], n1, n2. splits; auto.
      - rewrite T2, <- !app_assoc. reflexivity.
      - intros H. discriminate H. }
  destruct (Hr2 loc2 eq_refl) as (-> & Hc2).
  eapply post_weaken; [apply train_epilogue_post |].
  intros s3 r3 (T3 & Hh3 & Hl3 & He3 & Hr3).
  split; [congruence |].
  split; [rewrite Hl3; apply F02 |]. split; [rewrite He3; apply F02 |].
  exists l1, [], coefs, [], n1, []. splits; auto.
  - rewrite T3, T2, <- !app_assoc. reflexivity.
  - intros H. destruct (Hr3 H) as [Hn Hlog].
    splits; eauto.
    + rewrite Hn. f_equal. transitivity (_n_updates s1); [apply F2 | apply F01].
    + rewrite Hc2, Hc1 in Hlog. exact Hlog.
Qed.

(** *** Reading the trace *)


Lemma train_run gradient_steps batch_size s :
  train_post gradient_steps s (fst (train gradient_steps batch_size s))
    (snd (train gradient_steps batch_size s)).
Proof. exact (train_spec gradient_steps batch_size s). Qed.













(** C10: a call of [train] that returns has added exactly [gradient_steps]
    to [_n_updates], whatever [noise_critic_grad_steps] and the number of
    actor updates are; and the call returns when the object is set up with
    a decoder, critics and a buffer of matching shapes, a combination type
    among ['min'] and ['mean'] and [actor_gradient_steps] other than 0. *)
Theorem train_counts_gradient_steps gradient_steps batch_size s :
  (snd (train gradient_steps batch_size s) = Ok tt ->
   _n_updates (fst (train gradient_steps batch_size s)) = _n_updates s + gradient_steps) /\
  (forall w M batch c d dp,
     train_well_shaped w M batch -> w = (c * d)%nat -> ready c d dp s ->
     actor_gradient_steps (hyper s) <> 0 -> 0 <= gradient_steps ->
     snd (train gradient_steps batch_size s) = Ok tt /\
     _n_updates (fst (train gradient_steps batch_size s)) = _n_updates s + gradient_steps).
Proof.
  assert (Hpart : snd (train gradient_steps batch_size s) = Ok tt ->
                  _n_updates (fst (train gradient_steps batch_size s))
                  = _n_updates s + gradient_steps).
  { intros Hok.
    destruct (train_run gradient_steps batch_size s)
      as (_ & _ & _ & l1 & l2 & coefs & partial & n1 & n2 & _ & _ & _ & _ & _ & _ & _ & Hr).
    apply (Hr Hok). }
  split; [exact Hpart |].
  intros w M batch c d dp Hws Hw Hready HK HG.
  assert (Hok : snd (train gradient_steps batch_size s) = Ok tt)
    by (apply (train_returns w M batch c d dp); assumption).
  split; [exact Hok | exact (Hpart Hok)].
Qed.









(** *** The entropy coefficient *)






(** *** The target networks *)

Section Polyak.
Local Open Scope R_scope.

Lemma polyak_tensor (tau : R) x : forall y k,
  length x = length y ->
  nth k (zip_with (fun theta theta_targ => (1 - tau) * theta_targ + tau * theta) x y) 0
  = (1 - tau) * nth k y 0 + tau * nth k x 0.
Proof.
  induction x as [| a x IH]; intros [| b y] k Hlen; try discriminate Hlen.
  - destruct k; simpl; lra.
  - destruct k; simpl; [reflexivity |]. apply IH. simpl in Hlen. lia.
Qed.

Lemma polyak_update_entries tau params target :
  same_shape params target ->
  same_shape (polyak_update params target tau) target /\
  forall p k,
    nth k (nth p (polyak_update params target tau) []) 0
    = (1 - tau) * nth k (nth p target []) 0 + tau * nth k (nth p params []) 0.
Proof.
  unfold polyak_update. induction 1 as [| x y params target Hxy Hrest [IH1 IH2]].
  - split; [constructor |]. intros [| p] [| k]; simpl; lra.
  - split.
    + constructor; [| exact IH1].
      clear - Hxy. revert y Hxy.
      induction x as [| a x IH]; intros [| b y] H; try discriminate H; simpl; auto.
    + intros [| p] k; simpl; [apply polyak_tensor; exact Hxy | apply IH2].
Qed.

Lemma polyak_update_copy params target :
  same_shape params target -> polyak_update params target 1 = params.
Proof.
  unfold polyak_update. induction 1 as [| x y params target Hxy Hrest IH]; [reflexivity |].
  simpl. rewrite IH. f_equal.
  clear - Hxy. revert y Hxy.
  induction x as [| a x IH]; intros [| b y] H; try discriminate H; [reflexivity |].
  simpl. rewrite IH by (simpl in H; lia). f_equal. lra.
Qed.

(** C5: one synchronisation of the target networks, for any [tau] and
    critics of equal shapes, leaves every target parameter at
    [(1 - tau) * old_target + tau * online] and the target's running
    statistics equal to the online critic's; the actor, the online critic
    and the noise critic are not touched. *)
Theorem sync_target_is_polyak gradient_step s c ct :
  critic s = Some c -> critic_target s = Some ct ->
  same_shape (parameters c) (parameters ct) ->
  same_shape (running_stats c) (running_stats ct) ->
  let s' := fst (sync_target gradient_step s) in
  snd (sync_target gradient_step s) = Ok tt /\
  (exists ct',
     critic_target s' = Some ct' /\
     same_shape (parameters ct') (parameters ct) /\
     (forall p k,
        nth k (nth p (parameters ct') []) 0
        = (1 - tau (hyper s)) * nth k (nth p (parameters ct) []) 0
          + tau (hyper s) * nth k (nth p (parameters c) []) 0) /\
     running_stats ct' = running_stats c) /\
  actor s' = actor s /\ critic s' = critic s /\ critic_noise s' = critic_noise s.
Proof.
  intros Hc Hct Hp Hr s'. subst s'.
  unfold sync_target. simpl. rewrite Hc, Hct. simpl.
  split; [reflexivity |]. split; [| auto].
  eexists. split; [reflexivity |]. simpl.
  destruct (polyak_update_entries (tau (hyper s)) _ _ Hp) as [H1 H2].
  splits; auto.
  apply polyak_update_copy. exact Hr.
Qed.

End Polyak.

(** *** The exploration action *)

Lemma sample_actions_post n : forall s,
  post (sample_actions n) s
    (fun s' r => hyper s' = hyper s /\ _last_obs s' = _last_obs s /\ exists m, r = Ok m).
Proof.
  induction n as [| n IH]; intros s.
  - apply post_ret. eauto.
  - change (sample_actions (S n))
      with (r <- draw ;; rest <- sample_actions n ;; ret (space_sample r :: rest)).
    specialize (IH (tick s)). unfold post, draw in *. simpl.
    destruct (sample_actions n (tick s)) as [s' r]. simpl in *.
    destruct IH as (Hh & Ho & m & ->). simpl. eauto.
Qed.






End TrainSpec.

(* ===================================================================== *)
(** ** Construction, setup and saving: further properties *)
(* ===================================================================== *)

Section ConstructionSpec.
Context {ext : Externals}.
Local Open Scope string_scope.
Local Open Scope R_scope.

(** X1: [_init_setup_model] only decides whether [_setup_model] is called
    as the last statement of the constructor.  Building the object without
    setup and calling [_setup_model] afterwards gives the object and the
    outcome of building it with setup; and a constructor that raises
    without setup raises the same way, in the same state, with it. *)
Theorem deferred_setup_is_setup a :
  (snd (new (with_setup false a)) = Ok tt ->
   _setup_model (fst (new (with_setup false a))) = new (with_setup true a)) /\
  (forall e, snd (new (with_setup false a)) = Raise e ->
             new (with_setup true a) = new (with_setup false a)).
Proof.
  unfold new, __init__. cbn [with_setup arg_init_setup_model arg_diffusion_act_dim
    arg_target_entropy arg_tau arg_gamma arg_use_sde arg_use_sde_at_warmup arg_ent_coef
    arg_target_update_interval arg_actor_gradient_steps arg_diffusion_policy
    arg_noise_critic_grad_steps arg_critic_backup_combine_type].
  cbn [bind Monad_M lift modify ret].
  destruct base_init as [[] | e0]; cbn [fst snd].
  - destruct (subscript (arg_diffusion_act_dim a) 0) as [c | e1]; cbn [fst snd].
    + destruct (subscript (arg_diffusion_act_dim a) 1) as [d | e2]; cbn [fst snd].
      * split; [reflexivity | discriminate].
      * split; [discriminate | reflexivity].
    + split; [discriminate | reflexivity].
  - split; [discriminate | reflexivity].
Qed.

(** X2: the constructor reads [diffusion_act_dim[0]] and
    [diffusion_act_dim[1]] and nothing else of it.  An object that was
    constructed got its chunk length and action dimension from the first
    two entries, whatever follows them; with fewer than two entries the
    constructor raises IndexError (when the base class constructor
    returns) and [_setup_model] is not called. *)
Theorem init_reads_two_entries a :
  (snd (new a) = Ok tt ->
   exists c d rest,
     arg_diffusion_act_dim a = Some (c :: d :: rest) /\
     diffusion_act_chunk (hyper (fst (new a))) = c /\
     diffusion_act_dim (hyper (fst (new a))) = d) /\
  (forall l, arg_diffusion_act_dim a = Some l -> (length l < 2)%nat ->
             base_init = Ok tt ->
             snd (new a) = Raise IndexError /\
             ~ In EvSetupModel (trace (fst (new a)))).
Proof.
  unfold new, __init__. split.
  - intros Hok.
    assert (H : post (__init__ a) blank
                  (fun s' r => r = Ok tt ->
                     exists c d rest,
                       arg_diffusion_act_dim a = Some (c :: d :: rest) /\
                       diffusion_act_chunk (hyper s') = c /\
                       diffusion_act_dim (hyper s') = d)).
    { unfold __init__. repeat wp_step.
      all: try (eapply post_weaken; [apply setup_model_post |]; sim;
                intros s' r (Hh & _ & _)).
      all: try apply post_ret.
      all: intros Hr; try discriminate Hr.
      all: rewrite ?Hh; sim.
      all: destruct (arg_diffusion_act_dim a) as [[| c [| d rest]] |];
        try discriminate.
      all: repeat match goal with
             | H : subscript _ _ = Ok _ |- _ => injection H as <-
             end.
      all: do 3 eexists; splits; reflexivity. }
    apply H. exact Hok.
  - intros l Hl Hlen Hbase. rewrite Hbase, Hl.
    destruct l as [| c [| d rest]]; [| | simpl in Hlen; lia].
    + split; [reflexivity | simpl; intuition discriminate].
    + split; [reflexivity | simpl; intuition discriminate].
Qed.

(** X3: [_setup_model] leaves a float in [target_entropy]: minus the
    dimension of the action space for ['auto'], the number itself for a
    float, [float(str)] for another string.  When that conversion raises,
    setup raises the same error with the entropy coefficient not
    configured and no noise critic created. *)
Theorem setup_target_entropy s :
  let s' := fst (_setup_model s) in
  (snd (_setup_model s) = Ok tt ->
   exists te,
     target_entropy s' = PyFloat te /\
     match target_entropy s with
     | PyFloat v => te = v
     | PyStr str => if String.eqb str "auto" then te = - IZR action_space_dim
                    else py_float str = Ok te
     end) /\
  (forall str e p,
     target_entropy s = PyStr str -> String.eqb str "auto" = false ->
     py_float str = Raise e -> base_setup_model = Ok p ->
     snd (_setup_model s) = Raise e /\
     log_ent_coef s' = log_ent_coef s /\
     ent_coef_optimizer s' = ent_coef_optimizer s /\
     ent_coef_tensor s' = ent_coef_tensor s /\
     critic_noise s' = critic_noise s).
Proof.
  intros s'. split.
  - assert (H : post _setup_model s
                  (fun s' r => r = Ok tt ->
                     exists te,
                       target_entropy s' = PyFloat te /\
                       resolve_target_entropy (target_entropy s) = Ok te)).
    { unfold _setup_model. repeat wp_step.
      all: sim; intros Hr; try discriminate Hr.
      all: eauto. }
    intros Hok. destruct (H Hok) as (te & Hte & Hres). exists te.
    split; [exact Hte |]. unfold resolve_target_entropy in Hres.
    destruct (target_entropy s) as [str | v].
    + destruct (String.eqb str "auto"); [injection Hres as <-; reflexivity | exact Hres].
    + injection Hres as <-. reflexivity.
  - intros str e [[a c] ct] Hte Hauto Hf Hbase. subst s'.
    unfold _setup_model. cbn [bind Monad_M lift modify ret get]. rewrite Hbase.
    cbn [fst snd]. sim. unfold resolve_target_entropy. rewrite Hte, Hauto, Hf.
    cbn. auto.
Qed.

Lemma split_two_fields P X : forall R,
  PyStr.contains "_" P = false -> PyStr.contains "_" X = false ->
  R = String.EmptyString \/ (exists R', R = String.String "_" R') ->
  PyStr.getitem
    (PyStr.split "_" (String.append P (String.String "_" (String.append X R)))) 1
  = Ok X.
Proof.
  intros R HP HX HR.
  assert (HXR : exists rest, PyStr.split "_" (String.append X R) = X :: rest).
  { clear HP. induction X as [| c X IH]; simpl in *.
    - destruct HR as [-> | [R' ->]]; simpl; eauto.
    - apply orb_false_elim in HX. destruct HX as [Hc HX].
      rewrite Hc. destruct (IH HX) as [rest ->]. eauto. }
  destruct HXR as [rest HXR].
  assert (HPs : PyStr.split "_" (String.append P (String.String "_" (String.append X R)))
                = P :: X :: rest).
  { induction P as [| c P IH]; simpl in *.
    - rewrite HXR. reflexivity.
    - apply orb_false_elim in HP. destruct HP as [Hc HP].
      rewrite Hc, (IH HP). reflexivity. }
  rewrite HPs. reflexivity.
Qed.

(** X4: for an [ent_coef] string that starts with ["auto"], a setup that
    returns has initialised [log_ent_coef] to [log 1] when the string holds
    no underscore, whatever follows ["auto"], and otherwise to
    [log(float(X))], [X] being the text between the first and the second
    underscore (or the end): what precedes the first underscore and what
    follows the second are not read. *)
Theorem setup_reads_between_underscores s str :
  ent_coef (hyper s) = PyStr str -> PyStr.startswith "auto" str = true ->
  snd (_setup_model s) = Ok tt ->
  (PyStr.contains "_" str = false ->
   log_ent_coef (fst (_setup_model s)) = Some (ln 1)) /\
  (forall P X R,
     str = String.append P (String.String "_" (String.append X R)) ->
     PyStr.contains "_" P = false -> PyStr.contains "_" X = false ->
     R = String.EmptyString \/ (exists R', R = String.String "_" R') ->
     exists x, py_float X = Ok x /\ 0 < x /\
               log_ent_coef (fst (_setup_model s)) = Some (ln x)).
Proof.
  intros Hent Hauto Hok.
  destruct (setup_model_post s) as (_ & _ & Hcfg). specialize (Hcfg Hok).
  unfold ent_coef_configured in Hcfg. rewrite Hent, Hauto in Hcfg.
  destruct Hcfg as (init & Hpos & Hlog & _ & Hinit).
  split.
  - intros Hno. rewrite Hno in Hinit. subst init. exact Hlog.
  - intros P X R -> HP HX HR.
    assert (Hc : PyStr.contains "_"
                   (String.append P (String.String "_" (String.append X R))) = true).
    { clear. induction P as [| c P IH]; simpl; [reflexivity |].
      rewrite IH. apply orb_true_r. }
    rewrite Hc in Hinit. destruct Hinit as (w & Hw & Hf).
    rewrite (split_two_fields P X R HP HX HR) in Hw. injection Hw as <-.
    exists init. auto.
Qed.

End ConstructionSpec.

(* ===================================================================== *)
(** ** The other losses *)
(* ===================================================================== *)

Section LossSpec.
Context {ext : Externals}.
Local Open Scope R_scope.
Local Open Scope nat_scope.
Local Open Scope string_scope.

Lemma mse_loss_value gm B q n g1 g2 :
  length q = B -> length n = B ->
  mse_loss gm (mkTensor (col q) g1) (mkTensor (col n) g2)
  = Ok (scalar (mse_spec B q (fun i => nth i n 0%R)) (gm && (gm && (g1 || g2)))).
Proof.
  intros Hq Hn. unfold mse_loss.
  rewrite (col_tab q), (col_tab n), Hq, Hn, op2_tab. simpl bind.
  unfold mean, scalar, mse_spec, row_mean. simpl data.
  rewrite concat_tab, length_map, length_seq. reflexivity.
Qed.

Lemma distill_loss_from B : forall qs ns extra acc,
  length ns = length qs ->
  Forall (fun q => length q = B) qs -> Forall (fun n => length n = B) ns ->
  distill_loss (Some (scalar acc true)) (with_grad false (map col qs))
    (with_grad true (map col ns ++ extra))
  = Ok (Some (scalar (acc + distill_loss_spec B qs ns) true)).
Proof.
  induction qs as [| q qs IH]; intros [| n ns] extra acc Hlen Hq Hn;
    try discriminate Hlen.
  - cbn [map with_grad distill_loss]. unfold distill_loss_spec. simpl.
    rewrite Rplus_0_r. reflexivity.
  - inversion Hq as [| ? ? Hq1 Hqs]; inversion Hn as [| ? ? Hn1 Hns]; subst.
    cbn [map with_grad distill_loss app]. unfold detach. cbn [data].
    rewrite (mse_loss_value true (length q) q n false true eq_refl Hn1). simpl bind.
    unfold op2, op1, scalar. simpl.
    fold (with_grad false (map col qs)). fold (with_grad true (map col ns ++ extra)).
    fold (scalar (acc + 1 / 2 * mse_spec (length q) q (fun i => nth i n 0%R))%R true).
    rewrite IH by (auto; injection Hlen; auto).
    unfold distill_loss_spec. simpl. rewrite Rplus_assoc. reflexivity.
Qed.

(** X10: the distillation loss of [update_noise_critic] (lines 358-363).
    With [M >= 1] critic outputs and at least as many noise-critic outputs,
    all columns over the same batch, the loss is the sum over the first
    [M] indices of half the mean squared difference between the critic and
    the noise critic of that index; it requires grad; noise-critic outputs
    beyond the [M]-th are not read. *)
Theorem distill_loss_is_half_sum_of_mse B q qs n ns extra :
  length ns = length qs ->
  Forall (fun q => length q = B) (q :: qs) -> Forall (fun n => length n = B) (n :: ns) ->
  distill_loss None (with_grad false (map col (q :: qs)))
    (with_grad true (map col (n :: ns) ++ extra))
  = Ok (Some (scalar (distill_loss_spec B (q :: qs) (n :: ns)) true)).
Proof.
  intros Hlen Hq Hn.
  inversion Hq as [| ? ? Hq1 Hqs]; inversion Hn as [| ? ? Hn1 Hns]; subst.
  cbn [map with_grad distill_loss app]. unfold detach. cbn [data].
  rewrite (mse_loss_value true (length q) q n false true eq_refl Hn1). simpl bind.
  unfold op1, scalar. simpl.
  fold (with_grad false (map col qs)). fold (with_grad true (map col ns ++ extra)).
  fold (scalar (1 / 2 * mse_spec (length q) q (fun i => nth i n 0%R))%R true).
  rewrite (distill_loss_from (length q)) by assumption.
  reflexivity.
Qed.

Lemma distill_loss_short B : forall qs ns acc,
  length ns < length qs ->
  Forall (fun q => length q = B) qs -> Forall (fun n => length n = B) ns ->
  distill_loss (Some (scalar acc true)) (with_grad false (map col qs))
    (with_grad true (map col ns))
  = Raise IndexError.
Proof.
  induction qs as [| q qs IH]; intros [| n ns] acc Hlen Hq Hn;
    simpl in Hlen; try lia.
  - reflexivity.
  - inversion Hq as [| ? ? Hq1 Hqs]; inversion Hn as [| ? ? Hn1 Hns]; subst.
    cbn [map with_grad distill_loss]. unfold detach. cbn [data].
    rewrite (mse_loss_value true (length q) q n false true eq_refl Hn1). simpl bind.
    unfold op2, op1, scalar. simpl.
    fold (with_grad false (map col qs)). fold (with_grad true (map col ns)).
    fold (scalar (acc + 1 / 2 * mse_spec (length q) q (fun i => nth i n 0%R))%R true).
    apply IH; auto. lia.
Qed.

(** X11: the two ensembles are indexed by the critic's (line 359).  When
    the noise critic has fewer outputs than the critic, the loss raises
    IndexError although every shape agrees; with no critic output at all
    the loss stays the integer [0], whatever the noise critic answers. *)
Theorem distill_loss_missing_head B qs ns :
  (length ns < length qs ->
   Forall (fun q => length q = B) qs -> Forall (fun n => length n = B) ns ->
   distill_loss None (with_grad false (map col qs)) (with_grad true (map col ns))
   = Raise IndexError) /\
  (forall noise_vals, distill_loss None [] noise_vals = Ok None).
Proof.
  split; [| reflexivity].
  intros Hlen Hq Hn.
  destruct qs as [| q qs]; [simpl in Hlen; lia |].
  destruct ns as [| n ns]; [reflexivity |].
  inversion Hq as [| ? ? Hq1 Hqs]; inversion Hn as [| ? ? Hn1 Hns]; subst.
  cbn [map with_grad distill_loss]. unfold detach. cbn [data].
  rewrite (mse_loss_value true (length q) q n false true eq_refl Hn1). simpl bind.
  unfold op1, scalar. simpl.
  fold (with_grad false (map col qs)). fold (with_grad true (map col ns)).
  fold (scalar (1 / 2 * mse_spec (length q) q (fun i => nth i n 0%R))%R true).
  apply (distill_loss_short (length q)); auto. simpl in Hlen. lia.
Qed.

Lemma concat_col {A} (f : A -> R) l : concat (map (fun x => [f x]) l) = map f l.
Proof. induction l as [| x l IH]; simpl; [| rewrite IH]; reflexivity. Qed.

(** X13: the actor loss (lines 308-313) over a batch of [B] transitions,
    with [M >= 1] noise-critic outputs and combine rule ['min'] or
    ['mean'], is the mean over the batch of
    [ent_coef * log_prob - combined value], and requires grad. *)
Theorem actor_loss_is_mean_of_differences combine_type ent_coef lp qs B :
  combine_type = "min" \/ combine_type = "mean" ->
  length lp = B -> qs <> [] -> Forall (fun q => length q = B) qs ->
  actor_loss combine_type ent_coef (reshape_col (mkTensor [lp] true))
    (with_grad true (map col qs))
  = Ok (scalar (actor_loss_spec combine_type ent_coef B lp qs) true).
Proof.
  intros Hct Hlp Hne Hqs.
  unfold actor_loss, cat, local.
  rewrite data_with_grad, (cat_dim1_cols B) by assumption. simpl bind.
  rewrite combine_rows by assumption. simpl bind.
  unfold reshape_col. simpl data. simpl concat. rewrite app_nil_r.
  fold (col lp). rewrite (col_tab lp), Hlp, op1_tab, op2_tab. simpl bind.
  unfold mean, scalar, actor_loss_spec, row_mean. simpl data.
  rewrite concat_tab, length_map, length_seq.
  destruct (existsb requires_grad (with_grad true (map col qs))); reflexivity.
Qed.

(** X14: the loss of the entropy coefficient (line 259) is minus the mean
    over the batch of [log_ent_coef * (log_prob + target_entropy)]; it
    requires grad through [log_ent_coef] only, the other factor being
    detached. *)
Theorem ent_coef_loss_is_minus_mean log_ent_coef target_entropy lp :
  ent_coef_loss log_ent_coef target_entropy (reshape_col (mkTensor [lp] true))
  = Ok (scalar (ent_coef_loss_spec log_ent_coef target_entropy lp) true) /\
  requires_grad
    (detach (op1 true (fun x => (x + target_entropy)%R) (reshape_col (mkTensor [lp] true))))
  = false.
Proof.
  split; [| reflexivity].
  unfold ent_coef_loss, op2, reshape_col. simpl data. simpl concat. rewrite app_nil_r.
  rewrite broadcast_scalar. simpl bind.
  unfold op1, mean, scalar, ent_coef_loss_spec, row_mean. simpl.
  rewrite !map_map. simpl.
  rewrite (concat_col (fun x => (log_ent_coef * (x + target_entropy))%R)).
  rewrite length_map. reflexivity.
Qed.

End LossSpec.

(* ===================================================================== *)
(** ** Decoding actions *)
(* ===================================================================== *)

Section DecodeSpec.
Context {ext : Externals}.
Local Open Scope nat_scope.

Lemma chunks_not_multiple {A} n : 0 < n ->
  forall fuel (l : list A), length l mod n <> 0 -> chunks fuel n l = Raise RuntimeError.
Proof.
  intros Hn. induction fuel as [| fuel IH]; intros l Hl.
  - destruct l; [simpl in Hl; rewrite Nat.Div0.mod_0_l in Hl; contradiction | reflexivity].
  - destruct l as [| a l]; [simpl in Hl; rewrite Nat.Div0.mod_0_l in Hl; contradiction |].
    cbn [chunks]. destruct (Nat.ltb_spec (length (a :: l)) n) as [Hlt | Hge]; [reflexivity |].
    rewrite IH; [reflexivity |].
    rewrite length_skipn.
    replace (length (a :: l)) with ((length (a :: l) - n) + 1 * n) in Hl by lia.
    rewrite Nat.Div0.mod_add in Hl. exact Hl.
Qed.

Lemma reshape3_flat n c d m :
  0 < c -> 0 < d -> length (concat m) = n * (c * d) ->
  exists x, reshape3 (Z.of_nat c) (Z.of_nat d) m = Ok x /\ shape3 n c d x.
Proof.
  intros Hc Hd Hlen. unfold reshape3.
  destruct (Z.leb_spec (Z.of_nat c) 0); [lia |].
  destruct (Z.leb_spec (Z.of_nat d) 0); [lia |]. simpl orb. cbv iota.
  rewrite !Nat2Z.id.
  destruct (chunks_multiple d Hd (n * c) (length (concat m)) (concat m))
    as (rows & Hrows & Hrl & Hrall & _); [lia | nia |].
  rewrite Hrows. simpl bind.
  destruct (chunks_multiple c Hc n (length rows) rows)
    as (x & Hx & Hxl & Hxall & Hxcat); [lia | nia |].
  rewrite Hx. exists x. split; [reflexivity |]. split; [exact Hxl |].
  apply Forall_forall. intros blk Hblk. split.
  - revert blk Hblk. apply Forall_forall. exact Hxall.
  - apply Forall_forall. intros row Hrow.
    assert (Hin : In row rows).
    { rewrite <- Hxcat. apply in_concat. eauto. }
    exact (proj1 (Forall_forall _ _) Hrall row Hin).
Qed.

Lemma reshape3_not_multiple c d m :
  0 < c -> 0 < d -> length (concat m) mod (c * d) <> 0 ->
  reshape3 (Z.of_nat c) (Z.of_nat d) m = Raise RuntimeError.
Proof.
  intros Hc Hd Hmod. unfold reshape3.
  destruct (Z.leb_spec (Z.of_nat c) 0); [lia |].
  destruct (Z.leb_spec (Z.of_nat d) 0); [lia |]. simpl orb. cbv iota.
  rewrite !Nat2Z.id.
  destruct (Nat.eq_dec (length (concat m) mod d) 0) as [Hd0 | Hd0].
  - apply Nat.Div0.mod_divides in Hd0. destruct Hd0 as [k Hk].
    destruct (chunks_multiple d Hd k (length (concat m)) (concat m))
      as (rows & Hrows & Hrl & _); [lia | nia |].
    rewrite Hrows. simpl bind. apply chunks_not_multiple; [exact Hc |].
    rewrite Hrl. intros Hk0. apply Hmod.
    apply Nat.Div0.mod_divides in Hk0. destruct Hk0 as [j Hj].
    apply Nat.Div0.mod_divides. exists j. rewrite Hk, Hj. lia.
  - rewrite chunks_not_multiple by assumption. reflexivity.
Qed.

(** X8: [decode] regroups the entries of the action in blocks of
    [chunk * dim], whatever the width of the action.  An action of shape
    [(B, w)] with [B * w = n * chunk * dim] is decoded as [n] chunks, so
    the result has [n] rows and not [B]; when [B * w] is not a multiple of
    [chunk * dim] the reshape raises RuntimeError. *)
Theorem decode_regroups s o a c d dp B w :
  0 < c -> 0 < d ->
  diffusion_act_chunk (hyper s) = Z.of_nat c ->
  diffusion_act_dim (hyper s) = Z.of_nat d ->
  diffusion_policy (hyper s) = Some dp ->
  (forall n x, shape3 n c d x -> shape3 n c d (dp o x)) ->
  shape2 B w a ->
  (forall n, B * w = n * (c * d) ->
             exists m x, reshape3 (Z.of_nat c) (Z.of_nat d) a = Ok x /\ shape3 n c d x /\
                         decode o a s = (s, Ok m) /\ shape2 n (c * d) m) /\
  ((B * w) mod (c * d) <> 0 -> decode o a s = (s, Raise RuntimeError)).
Proof.
  intros Hc Hd Hchunk Hdim Hdp Hshape [HB Hw].
  pose proof (length_concat_rows _ _ Hw) as Hlen. rewrite HB in Hlen.
  split.
  - intros n Hn.
    destruct (reshape3_flat n c d a Hc Hd) as (x & Hx & Hx3); [lia |].
    destruct (reshape2_shape n c d (dp o x) Hc Hd (Hshape _ _ Hx3)) as (m & Hm & Hm2).
    exists m, x. splits; auto.
    unfold decode. cbn [bind Monad_M get lift]. rewrite Hchunk, Hdim, Hx. cbn [fst snd].
    rewrite Hdp. cbn [callable ret Monad_M]. rewrite Hm. reflexivity.
  - intros Hmod. unfold decode. cbn [bind Monad_M get lift]. rewrite Hchunk, Hdim.
    rewrite reshape3_not_multiple; [reflexivity | | | rewrite Hlen]; assumption.
Qed.

End DecodeSpec.

(* ===================================================================== *)
(** ** [predict_diffused] and the exploration action *)
(* ===================================================================== *)

Section PredictSpec.
Context {ext : Externals} {pystate : Type}.
Variable policy_predict :
  Net optim -> obs -> option pystate -> option (list bool) -> bool -> nat
  -> matrix * option pystate.


(** X7: outside the warm-up phase and without action noise,
    [_sample_action] is [predict_diffused] on the last observation: when
    the algorithm's [predict] is the policy's (no recurrent state, not
    deterministic), both leave the same object and both return the same
    action or raise the same exception. *)
Theorem sample_action_is_predict_diffused learning_starts n_envs s o :
  _last_obs s = Some o ->
  (num_timesteps s <? learning_starts)
  && negb (use_sde (hyper s) && use_sde_at_warmup (hyper s)) = false ->
  (forall a r, predict a o r = fst (policy_predict a o None None false r)) ->
  fst (_sample_action learning_starts None n_envs s)
  = fst (predict_diffused policy_predict o None None false s) /\
  snd (_sample_action learning_starts None n_envs s)
  = match snd (predict_diffused policy_predict o None None false s) with
    | Ok (action, _) => Ok (action, action)
    | Raise e => Raise e
    end.
Proof.
  intros Ho Hwarm Hpred.
  unfold _sample_action, predict_diffused, draw.
  cbn [bind Monad_M get modify ret lift]. rewrite Hwarm, Ho.
  destruct (actor s) as [a |]; cbn [attr ret raise Monad_M fst snd]; [| auto].
  sim. rewrite Hpred.
  destruct (policy_predict a o None None false (rng s)) as [unscaled second].
  cbn [fst snd].
  destruct action_space_is_box; cbn [ret Monad_M fst snd].
  - destruct (decode o (unscale_action (scale_action unscaled)) (tick s))
      as [s1 [m | e]]; auto.
  - destruct (decode o unscaled (tick s)) as [s1 [m | e]]; auto.
Qed.

End PredictSpec.

(* ===================================================================== *)
(** ** Chunk lengths and action dimensions that are not positive *)
(* ===================================================================== *)

Section NonPositiveDims.
Context {ext : Externals} {pystate : Type}.
Variable policy_predict :
  Net optim -> obs -> option pystate -> option (list bool) -> bool -> nat
  -> matrix * option pystate.

Lemma decode_non_positive o a s :
  diffusion_act_chunk (hyper s) <= 0 \/ diffusion_act_dim (hyper s) <= 0 ->
  post (decode o a) s (fun _ r => exists e, r = Raise e).
Proof.
  intros Hbad. unfold decode, post. cbn [bind Monad_M get lift]. unfold reshape3.
  destruct (Z.leb_spec (diffusion_act_chunk (hyper s)) 0);
    destruct (Z.leb_spec (diffusion_act_dim (hyper s)) 0); simpl; eauto; lia.
Qed.

Lemma reshape2_positive n t m : reshape2 n t = Ok m -> 0 < n.
Proof.
  unfold reshape2. destruct (Z.leb_spec n 0); [discriminate | lia].
Qed.

Lemma range_first n : 1 <= n -> exists l, range n = 0 :: l.
Proof.
  intros Hn. unfold range. destruct (Z.to_nat n) as [| k] eqn:Hk; [lia |].
  simpl. eauto.
Qed.

Lemma for_each_first_raises {A B} (body : A -> B -> M DSRL B) x l acc s :
  post (body x acc) s (fun _ r => exists e, r = Raise e) ->
  post (for_each (x :: l) body acc) s (fun _ r => exists e, r = Raise e).
Proof.
  intros H. simpl. apply post_bind. eapply post_weaken; [exact H |].
  intros s' r [e ->]. eauto.
Qed.

Lemma gradient_step_body_non_positive batch_size idx i loc s :
  diffusion_act_chunk (hyper s) <= 0 \/ diffusion_act_dim (hyper s) <= 0 ->
  post (gradient_step_body batch_size idx i loc) s (fun _ r => exists e, r = Raise e).
Proof.
  intros Hbad. unfold gradient_step_body, draw.
  repeat wp_step.
  all: try (eexists; reflexivity).
  all: eapply post_weaken; [apply decode_non_positive; sim; exact Hbad |].
  all: intros ? ? [? ->]; eauto.
Qed.

Lemma noise_critic_body_non_positive batch_size j loc s :
  diffusion_act_chunk (hyper s) <= 0 \/ diffusion_act_dim (hyper s) <= 0 ->
  post (noise_critic_body batch_size j loc) s (fun _ r => exists e, r = Raise e).
Proof.
  intros Hbad. unfold noise_critic_body, update_noise_critic, draw, callable.
  repeat wp_step.
  all: try (eexists; reflexivity).
  all: sim.
  all: repeat match goal with
         | H : reshape2 _ _ = Ok _ |- _ => apply reshape2_positive in H
         | H : (_ || _) = false |- _ => apply orb_false_elim in H; destruct H
         | H : (_ <? _) = false |- _ => apply Z.ltb_ge in H
         end.
  all: nia.
Qed.

(** X9: the constructor takes the chunk length and the action dimension
    as they are.  When one of them is zero or negative, every reshape to
    [(-1, chunk, dim)] or [(-1, chunk * dim)] raises: [_sample_action] and
    [predict_diffused] never return, and neither does a call of [train]
    that has a gradient step or a noise-critic step to do. *)
Theorem non_positive_dims_never_decode s :
  diffusion_act_chunk (hyper s) <= 0 \/ diffusion_act_dim (hyper s) <= 0 ->
  (forall learning_starts action_noise n_envs,
     exists e, snd (_sample_action learning_starts action_noise n_envs s) = Raise e) /\
  (forall observation state episode_start deterministic,
     exists e, snd (predict_diffused policy_predict observation state episode_start
                      deterministic s) = Raise e) /\
  (forall gradient_steps batch_size,
     1 <= gradient_steps \/ 1 <= noise_critic_grad_steps (hyper s) ->
     exists e, snd (train gradient_steps batch_size s) = Raise e).
Proof.
  intros Hbad. splits.
  - intros learning_starts action_noise n_envs.
    change (post (_sample_action learning_starts action_noise n_envs) s
              (fun _ r => exists e, r = Raise e)).
    unfold _sample_action, draw.
    repeat wp_step.
    all: try (eapply post_weaken; [apply sample_actions_post |];
              intros s1 r1 (Hh & Ho & m & ->); cbv beta iota; repeat wp_step).
    all: try (eexists; reflexivity).
    all: eapply post_weaken; [apply decode_non_positive; sim; rewrite ?Hh; exact Hbad |].
    all: intros ? ? [? ->]; eauto.
  - intros observation state episode_start deterministic.
    change (post (predict_diffused policy_predict observation state episode_start
                    deterministic) s (fun _ r => exists e, r = Raise e)).
    unfold predict_diffused, draw.
    repeat wp_step.
    all: try (eexists; reflexivity).
    all: eapply post_weaken; [apply decode_non_positive; sim; exact Hbad |].
    all: intros ? ? [? ->]; eauto.
  - intros gradient_steps batch_size Hsteps.
    change (post (train gradient_steps batch_size) s (fun _ r => exists e, r = Raise e)).
    unfold train. apply post_bind.
    eapply post_weaken; [apply train_prologue_post |].
    intros s0 r0 [F0 _].
    assert (Hh0 : hyper s0 = hyper s) by apply F0.
    destruct r0 as [[] | e]; [| eauto].
    apply post_bind, post_get, post_bind, post_lift.
    destruct (actor_gradient_idx (actor_gradient_steps (hyper s0)) gradient_steps)
      as [idx | e]; [| eauto].
    apply post_bind. unfold critic_phase.
    destruct (Z_le_gt_dec 1 gradient_steps) as [HG | HG].
    + destruct (range_first _ HG) as [l ->].
      eapply post_weaken.
      { apply for_each_first_raises, gradient_step_body_non_positive.
        rewrite Hh0. exact Hbad. }
      intros s1 r1 [e ->]. eauto.
    + assert (Hr : range gradient_steps = []).
      { unfold range. replace (Z.to_nat gradient_steps) with O by lia. reflexivity. }
      rewrite Hr. cbn [for_each]. apply post_ret.
      apply post_bind. unfold noise_critic_phase. apply post_bind, post_get.
      destruct Hsteps as [HG' | HN]; [lia |].
      rewrite Hh0. destruct (range_first _ HN) as [l ->].
      eapply post_weaken.
      { apply for_each_first_raises, noise_critic_body_non_positive.
        rewrite Hh0. exact Hbad. }
      intros s1 r1 [e ->]. eauto.
Qed.

(** X12: [update_noise_critic] computes the loss and nothing else: for
    every outcome it leaves all the attributes of the object as they were,
    except that it has consumed one random draw when it got as far as
    sampling the noise.  The optimizer step of the noise critic is the
    caller's. *)
Theorem update_noise_critic_only_draws replay_data s :
  let s' := fst (update_noise_critic replay_data s) in
  (s' = s \/ s' = tick s) /\
  (forall loss noise,
     snd (update_noise_critic replay_data s) = Ok (loss, noise) ->
     s' = tick s /\
     noise = randn (rng s) (length (actions replay_data))
               (Z.to_nat (diffusion_act_chunk (hyper s)))
               (Z.to_nat (diffusion_act_dim (hyper s)))).
Proof.
  change (post (update_noise_critic replay_data) s
            (fun s' r =>
               (s' = s \/ s' = tick s) /\
               forall loss noise, r = Ok (loss, noise) ->
                 s' = tick s /\
                 noise = randn (rng s) (length (actions replay_data))
                           (Z.to_nat (diffusion_act_chunk (hyper s)))
                           (Z.to_nat (diffusion_act_dim (hyper s))))).
  unfold update_noise_critic, draw, callable.
  repeat wp_step.
  all: sim.
  all: split; [auto |].
  all: intros loss noise Hr; try discriminate Hr.
  injection Hr as <- <-. auto.
Qed.

End NonPositiveDims.

(* ===================================================================== *)
(** ** What [train] keeps and what it reports *)
(* ===================================================================== *)

Section TrainKeeps.
Context {ext : Externals}.
Local Open Scope string_scope.

Lemma settings_kept_refl s : settings_kept s s.
Proof. unfold settings_kept. splits; tauto. Qed.

Lemma settings_kept_trans s1 s2 s3 :
  settings_kept s1 s2 -> settings_kept s2 s3 -> settings_kept s1 s3.
Proof.
  unfold settings_kept.
  intros (A1 & A2 & A3 & A4 & A5 & A6 & A7 & A8) (B1 & B2 & B3 & B4 & B5 & B6 & B7 & B8).
  splits; try congruence; tauto.
Qed.

Lemma settings_kept_learned s s' : settings_kept s s' -> learned s' = learned s.
Proof.
  unfold settings_kept, learned. intros (_ & _ & _ & _ & _ & _ & [A1 A2] & [B1 B2]).
  destruct (ent_coef_optimizer s), (ent_coef_optimizer s'), (log_ent_coef s),
    (log_ent_coef s'); try reflexivity;
    try (discriminate A1; reflexivity); try (discriminate A2; reflexivity);
    try (discriminate B1; reflexivity); try (discriminate B2; reflexivity).
Qed.

Ltac kept_leaf :=
  unfold settings_kept, learned; sim; rewrite_tests;
  splits; try reflexivity; try tauto; try (split; intros; congruence).

Lemma gradient_step_body_keeps batch_size idx i loc s :
  post (gradient_step_body batch_size idx i loc) s
    (fun s' r =>
       settings_kept s s' /\ _n_updates s' = _n_updates s /\ logger s' = logger s /\
       forall loc', r = Ok loc' ->
         length (ent_coef_losses loc')
         = (length (ent_coef_losses loc) + (if learned s then 1 else 0))%nat).
Proof.
  unfold gradient_step_body, draw, decode, callable, sync_target.
  repeat wp_step.
  all: kept_leaf.
  all: intros loc' Hloc; try discriminate Hloc.
  all: injection Hloc as <-; cbn [ent_coef_losses]; rewrite ?length_app; simpl; lia.
Qed.

Lemma noise_critic_body_keeps batch_size j loc s :
  post (noise_critic_body batch_size j loc) s
    (fun s' r =>
       settings_kept s s' /\ _n_updates s' = _n_updates s /\ logger s' = logger s /\
       forall loc', r = Ok loc' -> ent_coef_losses loc' = ent_coef_losses loc).
Proof.
  unfold noise_critic_body, update_noise_critic, draw, callable.
  repeat wp_step.
  all: kept_leaf.
  all: intros loc' Hloc; try discriminate Hloc.
  all: injection Hloc as <-; reflexivity.
Qed.

Lemma critic_loop_keeps batch_size idx l : forall loc s,
  post (for_each l (gradient_step_body batch_size idx) loc) s
    (fun s' r =>
       settings_kept s s' /\ _n_updates s' = _n_updates s /\ logger s' = logger s /\
       forall loc', r = Ok loc' ->
         length (ent_coef_losses loc')
         = (length (ent_coef_losses loc) + (if learned s then length l else 0))%nat).
Proof.
  induction l as [| i l IH]; intros loc s.
  - apply post_ret. splits; auto using settings_kept_refl.
    intros loc' H. injection H as <-. destruct (learned s); simpl; lia.
  - simpl. apply post_bind.
    eapply post_weaken; [apply gradient_step_body_keeps |].
    intros s1 r1 (K1 & N1 & L1 & H1).
    destruct r1 as [loc1 | e]; [| splits; auto; intros ? H; discriminate H].
    eapply post_weaken; [apply IH |].
    intros s2 r2 (K2 & N2 & L2 & H2).
    splits; try congruence; [eapply settings_kept_trans; eauto |].
    intros loc' Hr. rewrite (H2 loc' Hr), (H1 loc1 eq_refl).
    rewrite (settings_kept_learned _ _ K1). destruct (learned s); simpl; lia.
Qed.

Lemma noise_loop_keeps batch_size l : forall loc s,
  post (for_each l (noise_critic_body batch_size) loc) s
    (fun s' r =>
       settings_kept s s' /\ _n_updates s' = _n_updates s /\ logger s' = logger s /\
       forall loc', r = Ok loc' -> ent_coef_losses loc' = ent_coef_losses loc).
Proof.
  induction l as [| j l IH]; intros loc s.
  - apply post_ret. splits; auto using settings_kept_refl.
    intros loc' H. injection H as <-. reflexivity.
  - simpl. apply post_bind.
    eapply post_weaken; [apply noise_critic_body_keeps |].
    intros s1 r1 (K1 & N1 & L1 & H1).
    destruct r1 as [loc1 | e]; [| splits; auto; intros ? H; discriminate H].
    eapply post_weaken; [apply IH |].
    intros s2 r2 (K2 & N2 & L2 & H2).
    splits; try congruence; [eapply settings_kept_trans; eauto |].
    intros loc' Hr. rewrite (H2 loc' Hr), (H1 loc1 eq_refl). reflexivity.
Qed.

Lemma train_prologue_keeps s :
  post train_prologue s
    (fun s' r =>
       settings_kept s s' /\ _n_updates s' = _n_updates s /\
       (r = Ok tt ->
        logger s' = logger s
                    ++ [("train/learning_rate", lr_schedule (_current_progress_remaining s))])).
Proof.
  unfold train_prologue.
  repeat wp_step.
  all: kept_leaf.
  all: try (intros H; first [discriminate H | reflexivity]).
  all: destruct (ent_coef_optimizer s); simpl; split; intros; congruence.
Qed.

Lemma train_epilogue_keeps gradient_steps loc s :
  post (train_epilogue gradient_steps loc) s
    (fun s' r =>
       settings_kept s s' /\
       (r <> Ok tt -> _n_updates s' = _n_updates s) /\
       (r = Ok tt ->
        (exists cn, critic_noise s' = Some cn /\ training cn = false) /\
        _n_updates s' = _n_updates s + gradient_steps /\
        In ("train/n_updates", IZR (_n_updates s + gradient_steps)) (logger s') /\
        keys (logger s')
        = keys (logger s)
          ++ ["train/n_updates"; "train/ent_coef"; "train/actor_loss";
              "train/critic_loss"; "train/noise_critic_loss"]
          ++ (if (0 <? length (ent_coef_losses loc))%nat
              then ["train/ent_coef_loss"] else []))).
Proof.
  unfold train_epilogue.
  repeat wp_step.
  all: kept_leaf.
  all: try (intros H; contradiction H; reflexivity).
  all: try (intros H; discriminate H).
  all: intros _; splits.
  all: try (eexists; split; reflexivity).
  all: try reflexivity.
  all: unfold keys; rewrite ?map_app, ?in_app_iff, <- ?app_assoc; simpl; auto 10.
Qed.

(** The outcome of a call: the settings are kept; a call that raises has
    not counted its steps; a call that returns leaves the noise critic in
    evaluation mode and has recorded its metrics. *)
Lemma train_keeps gradient_steps batch_size s :
  post (train gradient_steps batch_size) s
    (fun s' r =>
       settings_kept s s' /\
       (r <> Ok tt -> _n_updates s' = _n_updates s) /\
       (r = Ok tt ->
        (exists cn, critic_noise s' = Some cn /\ training cn = false) /\
        In ("train/n_updates", IZR (_n_updates s + gradient_steps)) (logger s') /\
        keys (logger s')
        = keys (logger s)
          ++ ["train/learning_rate"; "train/n_updates"; "train/ent_coef";
              "train/actor_loss"; "train/critic_loss"; "train/noise_critic_loss"]
          ++ (if learned s && (0 <? gradient_steps)
              then ["train/ent_coef_loss"] else []))).
Proof.
  unfold train. apply post_bind.
  eapply post_weaken; [apply train_prologue_keeps |].
  intros s0 r0 (K0 & N0 & L0).
  destruct r0 as [[] | e]; [| splits; auto; intros H; discriminate H].
  specialize (L0 eq_refl).
  apply post_bind, post_get, post_bind, post_lift.
  destruct (actor_gradient_idx (actor_gradient_steps (hyper s0)) gradient_steps)
    as [idx | e]; [| splits; auto; intros H; discriminate H].
  apply post_bind. unfold critic_phase.
  eapply post_weaken; [apply critic_loop_keeps |].
  intros s1 r1 (K1 & N1 & L1 & H1).
  assert (K01 : settings_kept s s1) by (eapply settings_kept_trans; eauto).
  destruct r1 as [loc1 | e];
    [| splits; auto; [intros _; congruence | intros H; discriminate H]].
  specialize (H1 loc1 eq_refl).
  apply post_bind. unfold noise_critic_phase. apply post_bind, post_get.
  eapply post_weaken; [apply noise_loop_keeps |].
  intros s2 r2 (K2 & N2 & L2 & H2).
  assert (K02 : settings_kept s s2) by (eapply settings_kept_trans; eauto).
  destruct r2 as [loc2 | e];
    [| splits; auto; [intros _; congruence | intros H; discriminate H]].
  specialize (H2 loc2 eq_refl).
  eapply post_weaken; [apply train_epilogue_keeps |].
  intros s3 r3 (K3 & N3 & H3).
  splits.
  - eapply settings_kept_trans; eauto.
  - intros Hr. rewrite (N3 Hr). congruence.
  - intros Hr. destruct (H3 Hr) as (Hcn & Hn & Hin & Hkeys).
    splits; auto.
    + replace (_n_updates s) with (_n_updates s2) by congruence. exact Hin.
    + rewrite Hkeys, L2, L1, L0. unfold keys. rewrite map_app, <- app_assoc. simpl.
      do 2 f_equal. rewrite H2, H1. simpl.
      rewrite (settings_kept_learned _ _ K0), length_range.
      destruct (learned s); simpl; [| reflexivity].
      destruct (Z.ltb_spec 0 gradient_steps);
        destruct (Nat.ltb_spec 0 (Z.to_nat gradient_steps)); try reflexivity; lia.
Qed.

End TrainKeeps.

Section TrainReports.
Context {ext : Externals}.
Local Open Scope string_scope.

(** X18: whatever its outcome, a call of [train] keeps the settings of
    the constructor, the rollout counters, the target entropy and the
    constant coefficient, and neither creates nor deletes the learned
    coefficient and its optimizer; a call that raises leaves [_n_updates]
    as it was, at whatever step it stopped. *)
Theorem failed_train_does_not_count gradient_steps batch_size s :
  let s' := fst (train gradient_steps batch_size s) in
  settings_kept s s' /\
  (snd (train gradient_steps batch_size s) <> Ok tt -> _n_updates s' = _n_updates s).
Proof.
  intros s'. destruct (train_keeps gradient_steps batch_size s) as (H1 & H2 & _).
  split; assumption.
Qed.

(** X20: a call of [train] that returns leaves the noise critic in
    evaluation mode and has recorded, in this order, the learning rate,
    [train/n_updates] (the new value of the counter), the entropy
    coefficient and the actor, critic and noise-critic losses, followed by
    [train/ent_coef_loss] exactly when the coefficient is learned and
    there was at least one gradient step. *)
Theorem returning_train_reports gradient_steps batch_size s :
  snd (train gradient_steps batch_size s) = Ok tt ->
  let s' := fst (train gradient_steps batch_size s) in
  (exists cn, critic_noise s' = Some cn /\ training cn = false) /\
  In ("train/n_updates", IZR (_n_updates s + gradient_steps)) (logger s') /\
  keys (logger s')
  = keys (logger s)
    ++ ["train/learning_rate"; "train/n_updates"; "train/ent_coef";
        "train/actor_loss"; "train/critic_loss"; "train/noise_critic_loss"]
    ++ (if learned s && (0 <? gradient_steps) then ["train/ent_coef_loss"] else []).
Proof.
  intros Hok s'. destruct (train_keeps gradient_steps batch_size s) as (_ & _ & H).
  exact (H Hok).
Qed.

Lemma after_training_kept runs : forall s, settings_kept s (after_training runs s).
Proof.
  induction runs as [| [G bs] runs IH]; intros s; [apply settings_kept_refl |].
  simpl. eapply settings_kept_trans; [| apply IH].
  apply (train_keeps G bs s).
Qed.

(** X5: the names that [_get_torch_save_params] returns follow the
    configuration, at construction and after any number of calls of
    [train]: with an ['auto'] entropy coefficient the saved variable is
    [log_ent_coef] and the optimizer of the coefficient is among the state
    dicts, otherwise the saved variable is [ent_coef_tensor]; in both cases
    the saved variable is an attribute that is set. *)
Theorem save_params_follow_ent_coef a runs :
  snd (new a) = Ok tt -> arg_init_setup_model a = true ->
  let s := after_training runs (fst (new a)) in
  _get_torch_save_params s
  = (if asks_learned (arg_ent_coef a)
     then (["policy"; "actor.optimizer"; "critic.optimizer"; "critic_noise";
            "ent_coef_optimizer"], ["log_ent_coef"])
     else (["policy"; "actor.optimizer"; "critic.optimizer"; "critic_noise"],
           ["ent_coef_tensor"])) /\
  Forall (fun name => saved_variable s name <> None) (snd (_get_torch_save_params s)).
Proof.
  intros Hok Hsetup s.
  destruct (init_post a) as (_ & _ & H). fold (new a) in H.
  destruct (H Hok) as (Hent & _ & Hcfg). specialize (Hcfg Hsetup).
  unfold ent_coef_configured in Hcfg. sim. rewrite Hent in Hcfg.
  destruct (after_training_kept runs (fst (new a)))
    as (_ & _ & _ & _ & _ & Ht & Ho & Hl).
  fold s in Ht, Ho, Hl.
  unfold _get_torch_save_params, saved_variable, asks_learned.
  destruct (arg_ent_coef a) as [str | c]; [destruct (PyStr.startswith "auto" str) |].
  - destruct Hcfg as (init & _ & Hlog & Hopt & _).
    destruct (ent_coef_optimizer s) eqn:Eo;
      [| rewrite (proj1 Ho eq_refl) in Hopt; discriminate Hopt].
    split; [reflexivity |]. constructor; [| constructor]. simpl.
    intros Hn. rewrite (proj1 Hl Hn) in Hlog. discriminate Hlog.
  - destruct Hcfg as (v & _ & Hv & _ & Hopt). simpl in Hopt.
    rewrite (proj2 Ho Hopt). split; [reflexivity |]. constructor; [| constructor].
    simpl. rewrite Ht, Hv. discriminate.
  - destruct Hcfg as (Hv & _ & Hopt). simpl in Hopt.
    rewrite (proj2 Ho Hopt). split; [reflexivity |]. constructor; [| constructor].
    simpl. rewrite Ht, Hv. discriminate.
Qed.

(** *** The schedule of a call that returns *)













(** *** Step counts that are rejected *)

(** X15: [train] computes the steps of the actor before the first
    gradient step.  With [actor_gradient_steps = 0] it raises
    ZeroDivisionError for every [gradient_steps], and with a negative
    [actor_gradient_steps] and a negative [gradient_steps] it raises
    ValueError; in both cases no optimizer has stepped, the counter and
    the parameters of the networks are as before: only the training mode
    and the learning rates were set. *)
Theorem train_rejects_step_counts gradient_steps batch_size s a c cn :
  actor s = Some a -> critic s = Some c -> critic_noise s = Some cn ->
  let K := actor_gradient_steps (hyper s) in
  let s' := fst (train gradient_steps batch_size s) in
  (K = 0 -> snd (train gradient_steps batch_size s) = Raise ZeroDivisionError) /\
  (K < 0 -> gradient_steps < 0 ->
   snd (train gradient_steps batch_size s) = Raise ValueError) /\
  (K = 0 \/ (K < 0 /\ gradient_steps < 0) ->
   new_events s s' = [] /\ _n_updates s' = _n_updates s /\
   option_map parameters (actor s') = Some (parameters a) /\
   option_map parameters (critic s') = Some (parameters c) /\
   option_map parameters (critic_noise s') = Some (parameters cn) /\
   critic_target s' = critic_target s).
Proof.
  intros Ha Hc Hcn K s'.
  assert (Hrun : forall e,
            actor_gradient_idx K gradient_steps = Raise e ->
            snd (train gradient_steps batch_size s) = Raise e /\
            new_events s s' = [] /\ _n_updates s' = _n_updates s /\
            option_map parameters (actor s') = Some (parameters a) /\
            option_map parameters (critic s') = Some (parameters c) /\
            option_map parameters (critic_noise s') = Some (parameters cn) /\
            critic_target s' = critic_target s).
  { intros e He. subst s'. unfold train, train_prologue.
    cbn [bind Monad_M get modify ret lift]. rewrite Ha, Hc, Hcn.
    cbn [attr ret Monad_M fst snd]. unfold modify. cbv beta iota. sim.
    unfold K in He. rewrite He. cbn [fst snd]. sim.
    splits; try reflexivity.
    unfold new_events. sim. apply skipn_all. }
  assert (H0 : K = 0 -> actor_gradient_idx K gradient_steps = Raise ZeroDivisionError).
  { intros ->. reflexivity. }
  assert (Hneg : K < 0 -> gradient_steps < 0 ->
                 actor_gradient_idx K gradient_steps = Raise ValueError).
  { intros HK HG. unfold actor_gradient_idx, Np.linspace_int.
    destruct (Z.ltb_spec K 0); [| lia].
    destruct (Z.ltb_spec gradient_steps 0); [reflexivity | lia]. }
  splits.
  - intros HK. apply (Hrun _ (H0 HK)).
  - intros HK HG. apply (Hrun _ (Hneg HK HG)).
  - intros [HK | [HK HG]]; [apply (Hrun _ (H0 HK)) | apply (Hrun _ (Hneg HK HG))].
Qed.

End TrainReports.

(* ===================================================================== *)
(** ** A target update interval of zero *)
(* ===================================================================== *)

Section ZeroInterval.
Context {ext : Externals}.
Local Open Scope string_scope.






End ZeroInterval.

(* ===================================================================== *)
(** ** The TD target: terminal transitions and the two combine rules *)
(* ===================================================================== *)

Section TargetSpec.
Local Open Scope R_scope.
Local Open Scope string_scope.

(** X21: the TD target (lines 280-288) of a terminal transition
    ([done = 1]) is its reward, whatever the target critics, the entropy
    coefficient and the combine rule say; and with [gamma = 0] the target
    of every transition is its reward. *)
Theorem td_target_of_terminal combine_type gamma ent_coef r d lp tq :
  combine_type = "min" \/ combine_type = "mean" ->
  length d = length r -> length lp = length r ->
  tq <> [] -> Forall (fun c => length c = length r) tq ->
  exists T,
    td_target combine_type gamma ent_coef
      (mkTensor (col r) false) (mkTensor (col d) false)
      (with_grad false (map col tq)) (mkTensor [lp] false)
    = Ok (mkTensor (tab (length r) T) false) /\
    (forall i, nth i d 0 = 1 -> T i = nth i r 0) /\
    (gamma = 0 -> forall i, T i = nth i r 0).
Proof.
  intros Hct Hd Hlp Hne Htq.
  exists (td_target_spec combine_type gamma ent_coef r d lp tq).
  split; [apply td_target_tab; assumption |].
  unfold td_target_spec. split.
  - intros i Hi. rewrite Hi. ring.
  - intros -> i. ring.
Qed.

Lemma list_min_le_sum l : forall x,
  list_min x l * INR (S (length l)) <= x + sum_list l.
Proof.
  induction l as [| y l IH]; intros x.
  - simpl. unfold sum_list. simpl. lra.
  - cbn [list_min length]. specialize (IH y).
    rewrite S_INR. rewrite S_INR in IH.
    pose proof (pos_INR (length l)) as Hpos. rewrite S_INR.
    pose proof (Rmin_l x (list_min y l)) as H1.
    pose proof (Rmin_r x (list_min y l)) as H2.
    unfold sum_list in *. cbn [fold_right].
    set (m := Rmin x (list_min y l)) in *. set (m' := list_min y l) in *.
    set (n := INR (length l)) in *.
    assert (m * (n + 1) <= m' * (n + 1)) by (apply Rmult_le_compat_r; lra).
    lra.
Qed.

Lemma combine_spec_min_le_mean qs :
  qs <> [] -> combine_spec "min" qs <= combine_spec "mean" qs.
Proof.
  intros Hne. destruct qs as [| x l]; [contradiction Hne; reflexivity |].
  unfold combine_spec. simpl String.eqb. cbv iota.
  pose proof (list_min_le_sum l x) as H.
  assert (Hpos : 0 < INR (length (x :: l))) by (apply lt_0_INR; simpl; lia).
  cbn [length] in *. unfold sum_list in *. cbn [fold_right].
  apply (Rmult_le_reg_r (INR (S (length l)))); [exact Hpos |].
  unfold Rdiv. rewrite Rmult_assoc, Rinv_l by lra. lra.
Qed.

(** X22: on the same batch the ['min'] backup is the pessimistic one:
    for a discount [gamma >= 0], the TD target computed with
    [critic_backup_combine_type = 'min'] is, on every transition whose
    [done] flag is at most 1, at most the target computed with ['mean']. *)
Theorem min_backup_is_below_mean gamma ent_coef r d lp tq :
  0 <= gamma ->
  length d = length r -> length lp = length r ->
  tq <> [] -> Forall (fun c => length c = length r) tq ->
  exists Tmin Tmean,
    td_target "min" gamma ent_coef
      (mkTensor (col r) false) (mkTensor (col d) false)
      (with_grad false (map col tq)) (mkTensor [lp] false)
    = Ok (mkTensor (tab (length r) Tmin) false) /\
    td_target "mean" gamma ent_coef
      (mkTensor (col r) false) (mkTensor (col d) false)
      (with_grad false (map col tq)) (mkTensor [lp] false)
    = Ok (mkTensor (tab (length r) Tmean) false) /\
    forall i, nth i d 0 <= 1 -> Tmin i <= Tmean i.
Proof.
  intros Hg Hd Hlp Hne Htq.
  exists (td_target_spec "min" gamma ent_coef r d lp tq),
         (td_target_spec "mean" gamma ent_coef r d lp tq).
  split; [apply td_target_tab; auto |].
  split; [apply td_target_tab; auto |].
  intros i Hi. unfold td_target_spec.
  assert (Hq : combine_spec "min" (ensemble_at tq i)
               <= combine_spec "mean" (ensemble_at tq i)).
  { apply combine_spec_min_le_mean. unfold ensemble_at.
    destruct tq; [contradiction Hne; reflexivity | discriminate]. }
  assert (Hf : 0 <= (1 - nth i d 0) * gamma) by (apply Rmult_le_pos; lra).
  apply Rplus_le_compat_l. apply Rmult_le_compat_l; lra.
Qed.

End TargetSpec.

Section LastObservation.
Context {ext : Externals}.


End LastObservation.

(* ===================================================================== *)
(** ** From the constructor to training *)
(* ===================================================================== *)

Section ConstructedTrains.
Context {ext : Externals}.
Local Open Scope string_scope.

Lemma setup_model_installs s :
  post _setup_model s
    (fun s' r =>
       r = Ok tt ->
       hyper s' = hyper s /\
       actor s' <> None /\ critic s' <> None /\ critic_target s' <> None /\
       critic_noise s' <> None /\
       (exists te, target_entropy s' = PyFloat te) /\
       (learned s' = true \/ ent_coef_tensor s' <> None)).
Proof.
  unfold _setup_model. repeat wp_step.
  all: unfold learned; sim.
  all: intros Hr; try discriminate Hr.
  all: splits; try reflexivity; try discriminate; eauto.
  all: try (left; reflexivity); try (right; discriminate).
Qed.

Lemma init_installs a :
  post (__init__ a) blank
    (fun s' r =>
       r = Ok tt -> arg_init_setup_model a = true ->
       (exists c d rest, arg_diffusion_act_dim a = Some (c :: d :: rest) /\
                         diffusion_act_chunk (hyper s') = c /\
                         diffusion_act_dim (hyper s') = d) /\
       diffusion_policy (hyper s') = arg_diffusion_policy a /\
       target_update_interval (hyper s') = arg_target_update_interval a /\
       actor_gradient_steps (hyper s') = arg_actor_gradient_steps a /\
       critic_backup_combine_type (hyper s') = arg_critic_backup_combine_type a /\
       actor s' <> None /\ critic s' <> None /\ critic_target s' <> None /\
       critic_noise s' <> None /\
       (exists te, target_entropy s' = PyFloat te) /\
       (learned s' = true \/ ent_coef_tensor s' <> None)).
Proof.
  unfold __init__. repeat wp_step.
  all: try (eapply post_weaken; [apply setup_model_installs |]; sim;
            intros s' r Hpost).
  all: try apply post_ret.
  all: intros Hr Hsetup; try discriminate Hr; try discriminate Hsetup.
  all: destruct (Hpost Hr) as (Hh & Ha & Hc & Hct & Hcn & Hte & Hmode).
  all: rewrite Hh; sim.
  all: destruct (arg_diffusion_act_dim a) as [[| c [| d rest]] |];
    try discriminate.
  all: repeat match goal with
         | H : subscript _ _ = Ok _ |- _ => injection H as <-
         end.
  all: splits; try reflexivity; try assumption.
  all: do 3 eexists; splits; reflexivity.
Qed.

Lemma train_epilogue_ready c d dp gradient_steps loc s :
  ready c d dp s ->
  post (train_epilogue gradient_steps loc) s (fun s' r => ready c d dp s' /\ r = Ok tt).
Proof.
  intros Hready.
  pose proof Hready as (Hc & Hd & Hchunk & Hdim & Hdp & Hshape & Ha & Hcr & Hct & Hcn
                        & Hte & Hmode & Hint & Hcomb).
  destruct (critic_noise s) as [cn |] eqn:Ecn; [| contradiction Hcn; reflexivity].
  unfold train_epilogue.
  repeat wp_step.
  all: try discriminate.
  all: split; [| reflexivity].
  all: unfold ready, learned in *; sim.
  all: splits; try assumption; try discriminate.
Qed.

Lemma train_keeps_ready w M batch c d dp gradient_steps batch_size s :
  train_well_shaped w M batch -> w = (c * d)%nat -> ready c d dp s ->
  actor_gradient_steps (hyper s) <> 0 -> 0 <= gradient_steps ->
  post (train gradient_steps batch_size) s
    (fun s' r => ready c d dp s' /\ hyper s' = hyper s /\ r = Ok tt).
Proof.
  intros Hws Hw Hready HK HG.
  assert (Hh : hyper (fst (train gradient_steps batch_size s)) = hyper s)
    by apply (train_run gradient_steps batch_size s).
  enough (H : post (train gradient_steps batch_size) s
                (fun s' r => ready c d dp s' /\ r = Ok tt)).
  { destruct H as [H1 H2]. unfold post. splits; assumption. }
  unfold train. apply post_bind.
  eapply post_weaken; [apply train_prologue_returns; exact Hready |].
  intros s0 r0 (Hr0 & Hh0 & ->).
  apply post_bind, post_get. cbv beta iota.
  destruct (actor_gradient_idx_returns (actor_gradient_steps (hyper s0)) gradient_steps)
    as [idx Hidx]; [rewrite Hh0; exact HK | exact HG |].
  rewrite Hidx. apply post_bind, post_lift. cbv beta iota.
  apply post_bind. unfold critic_phase.
  eapply post_weaken.
  { apply (for_each_returns _ (ready c d dp)); [| exact Hr0].
    intros i acc s1 Hs1.
    apply (gradient_step_body_returns w M batch c d dp); assumption. }
  intros s1 r1 [Hr1 [loc1 ->]].
  apply post_bind. unfold noise_critic_phase. apply post_bind, post_get. cbv beta iota.
  eapply post_weaken.
  { apply (for_each_returns _ (ready c d dp)); [| exact Hr1].
    intros j acc s2 Hs2.
    apply (noise_critic_body_returns w M batch c d dp); assumption. }
  intros s2 r2 [Hr2 [loc2 ->]].
  apply (train_epilogue_ready c d dp). exact Hr2.
Qed.

(** X24: the constructor establishes what [train] needs, and [train]
    keeps it.  An object constructed with setup from a decoder that keeps
    the shape [(batch, c, d)], [diffusion_act_dim] starting with the
    positive [(c, d)], a combination type among ['min'] and ['mean'] and
    non-zero [target_update_interval] and [actor_gradient_steps] is ready;
    with collaborators that keep the shapes, every call of [train] with
    [gradient_steps >= 0] on it returns, also after any number of earlier
    such calls. *)
Theorem constructed_object_trains a w M batch c d dp rest runs gradient_steps batch_size :
  snd (new a) = Ok tt -> arg_init_setup_model a = true ->
  arg_diffusion_act_dim a = Some (Z.of_nat c :: Z.of_nat d :: rest) ->
  (0 < c)%nat -> (0 < d)%nat ->
  arg_diffusion_policy a = Some dp ->
  (forall o B x, shape3 B c d x -> shape3 B c d (dp o x)) ->
  arg_critic_backup_combine_type a = "min" \/ arg_critic_backup_combine_type a = "mean" ->
  arg_target_update_interval a <> 0 -> arg_actor_gradient_steps a <> 0 ->
  train_well_shaped w M batch -> w = (c * d)%nat ->
  Forall (fun run => 0 <= fst run) runs -> 0 <= gradient_steps ->
  ready c d dp (fst (new a)) /\
  ready c d dp (after_training runs (fst (new a))) /\
  snd (train gradient_steps batch_size (after_training runs (fst (new a)))) = Ok tt.
Proof.
  intros Hok Hsetup Hdim Hc Hd Hdp Hshape Hcomb Hint HK Hws Hw Hruns HG.
  destruct (init_installs a Hok Hsetup)
    as ((c0 & d0 & rest0 & E & Ec & Ed) & Hp & Hi & Hk & Hct & Hnets).
  rewrite Hdim in E. injection E as <- <- <-.
  assert (Hready : ready c d dp (fst (new a))).
  { unfold ready. fold (new a) in *. rewrite Ec, Ed, Hp, Hi, Hct.
    destruct Hnets as (? & ? & ? & ? & ? & ?). splits; auto. }
  assert (HK0 : actor_gradient_steps (hyper (fst (new a))) <> 0).
  { fold (new a) in Hk. rewrite Hk. exact HK. }
  split; [exact Hready |].
  assert (Hinv : forall s, ready c d dp s -> actor_gradient_steps (hyper s) <> 0 ->
                   ready c d dp (after_training runs s) /\
                   actor_gradient_steps (hyper (after_training runs s)) <> 0).
  { clear Hready HK0. induction Hruns as [| [G bs] runs HGr _ IH]; intros s Hs Hks.
    - split; assumption.
    - simpl. simpl in HGr.
      destruct (train_keeps_ready w M batch c d dp G bs s Hws Hw Hs Hks HGr)
        as (Hs' & Hh' & _).
      apply IH; [exact Hs' | rewrite Hh'; exact Hks]. }
  destruct (Hinv _ Hready HK0) as [Hr' Hk'].
  split; [exact Hr' |].
  apply (train_keeps_ready w M batch c d dp gradient_steps batch_size _ Hws Hw Hr' Hk' HG).
Qed.

End ConstructedTrains.

(* ===================================================================== *)
(** ** Concrete runs *)
(* ===================================================================== *)

Section Runs.
Import Toy.
Local Open Scope string_scope.
Local Open Scope R_scope.

(** C3: an unrecognised combine rule is not rejected.  The constructor,
    setup included, returns with ['max']; the first gradient step of
    [train] then steps the critic's optimizer on a target that was never
    reduced over the ensemble, and only the actor's loss raises, an
    UnboundLocalError. *)
Theorem unrecognised_combine_type_trains_the_critic :
  snd (new (toy_args_with (PyStr "auto") true (Some [1; 1]%Z) "max")) = Ok tt /\
  critic_backup_combine_type (hyper toy_max) = "max" /\
  td_target "max" (1 / 2) 1
    (mkTensor [[1]; [0]] false) (mkTensor [[0]; [1]] false)
    (with_grad false [[[4]; [3]]; [[6]; [5]]]) (mkTensor [[-1; -2]] false)
  = Ok (mkTensor
          [[1 + (1 - 0) * (1 / 2) * (4 - 1 * -1); 1 + (1 - 0) * (1 / 2) * (6 - 1 * -1)];
           [0 + (1 - 1) * (1 / 2) * (3 - 1 * -2); 0 + (1 - 1) * (1 / 2) * (5 - 1 * -2)]]
          false) /\
  snd (train 3 64 toy_max) = Raise UnboundLocalError /\
  new_events toy_max (fst (train 3 64 toy_max))
  = [EvEntCoefStep 0; EvCriticStep 0 (exp (ln 1))].
Proof. repeat split; reflexivity. Qed.


Lemma Q2R_inject_Z z : Q2R (inject_Z z) = IZR z.
Proof. unfold Q2R, inject_Z. simpl. lra. Qed.

(** C6, as stated, fails: [float("1_000")] is [1000.0], but for
    [ent_coef = "auto_1_000"] setup reads ["1"] and sets
    [log_ent_coef = log(1)]. *)
Lemma auto_with_second_underscore :
  exists x,
    py_float "1_000" = Ok x /\ 0 < x /\
    snd (_setup_model (toy_unset "auto_1_000")) = Ok tt /\
    log_ent_coef (fst (_setup_model (toy_unset "auto_1_000"))) <> Some (ln x).
Proof.
  exists (Q2R (inject_Z 1000)).
  split; [reflexivity |].
  split; [rewrite Q2R_inject_Z; lra |].
  assert (Hok : snd (_setup_model (toy_unset "auto_1_000")) = Ok tt).
  { apply setup_model_returns.
    - eexists. reflexivity.
    - eexists. reflexivity.
    - eexists. reflexivity.
    - exists "1", (Q2R (inject_Z 1)).
      split; [reflexivity |]. split; [reflexivity |]. rewrite Q2R_inject_Z. lra. }
  split; [exact Hok |].
  destruct (setup_model_post (toy_unset "auto_1_000")) as (_ & _ & Hcfg).
  specialize (Hcfg Hok).
  destruct Hcfg as (init & _ & Hlog & _ & w & Hw & Hf).
  injection Hw as <-. injection Hf as <-.
  rewrite Hlog. intros H. injection H as H.
  apply ln_inv in H; rewrite ?Q2R_inject_Z in *; lra.
Qed.

(** The critic loss on a batch of four transitions with two target and
    two online critics *)
(** The toy collaborators keep the shapes, and the toy object is ready. *)
Lemma toy_well_shaped : train_well_shaped 1 2 (fun _ : obs => 2%nat).
Proof.
  unfold train_well_shaped, shape2, shape3. simpl.
  splits.
  - lia.
  - intros _ _. splits; try reflexivity; repeat constructor.
  - intros _ _ _. splits; try reflexivity; repeat constructor.
  - intros n o m [Hl Hw]. split; [reflexivity |].
    unfold toy_q_values. simpl.
    repeat constructor; try (rewrite length_map; exact Hl);
      apply Forall_map, Forall_forall; reflexivity.
  - auto.
  - auto.
  - intros _ B c d. split; [apply repeat_length |].
    apply Forall_forall. intros x Hx. apply repeat_spec in Hx. subst x.
    split; [apply repeat_length |].
    apply Forall_forall. intros y Hy. apply repeat_spec in Hy. subst y.
    apply repeat_length.
Qed.

Lemma toy_ready : ready 1 1 (fun _ x => x) toy.
Proof.
  unfold ready. splits; try (simpl; lia); try reflexivity; try discriminate.
  - auto.
  - exists (-1)%R. reflexivity.
  - left. reflexivity.
  - left. reflexivity.
Qed.




Lemma sync_target_is_polyak_witness : snd (sync_target 0 toy) = Ok tt.
Proof.
  refine (proj1 (sync_target_is_polyak 0 toy (net [[1]; [2]]) (net [[3]; [5]]) _ _ _ _)).
  - reflexivity.
  - reflexivity.
  - repeat constructor.
  - repeat constructor.
Defined.

Lemma setup_ent_coef_strings_witness :
  snd (_setup_model (toy_unset "auto_0.5")) = Ok tt /\
  log_ent_coef (fst (_setup_model (toy_unset "auto_0.5"))) = Some (ln (Q2R (5 # 10))).
Proof.
  destruct (setup_ent_coef_strings (toy_unset "auto_0.5") "auto_0.5" eq_refl) as [_ H].
  destruct (H "0.5" (Q2R (5 # 10)) eq_refl eq_refl eq_refl) as [_ H2].
  assert (Hpos : 0 < Q2R (5 # 10)) by (unfold Q2R; simpl; lra).
  destruct (H2 Hpos) as [Hlog Hret].
  assert (Hok : snd (_setup_model (toy_unset "auto_0.5")) = Ok tt).
  { apply Hret; eexists; reflexivity. }
  split; [exact Hok | exact (Hlog Hok)].
Defined.


Lemma init_without_act_dim_raises_witness :
  snd (new (toy_args_with (PyStr "auto") true None "min")) = Raise TypeError.
Proof.
  refine (proj2 (proj2 (init_without_act_dim_raises
                          (toy_args_with (PyStr "auto") true None "min") eq_refl)) eq_refl).
Defined.

Lemma train_counts_gradient_steps_witness :
  snd (train 3 64 toy) = Ok tt /\
  _n_updates (fst (train 3 64 toy)) = (_n_updates toy + 3)%Z.
Proof.
  refine (proj2 (train_counts_gradient_steps 3 64 toy)
            1%nat 2%nat (fun _ => 2%nat) 1%nat 1%nat (fun _ x => x) _ _ _ _ _).
  - exact toy_well_shaped.
  - reflexivity.
  - exact toy_ready.
  - discriminate.
  - discriminate.
Defined.


End Runs.

(* ===================================================================== *)
(** ** Concrete runs of the further properties *)
(* ===================================================================== *)

Section CoverageRuns.
Import Toy ToyMore.
Local Open Scope string_scope.
Local Open Scope R_scope.

Lemma deferred_setup_is_setup_witness :
  _setup_model (fst (new (with_setup false toy_args))) = new (with_setup true toy_args).
Proof. exact (proj1 (deferred_setup_is_setup toy_args) eq_refl). Defined.

Lemma init_reads_two_entries_witness :
  exists c d rest,
    Some [1; 1; 7]%Z = Some (c :: d :: rest) /\
    diffusion_act_chunk (hyper (fst (new (toy_args_steps 2 1 [1; 1; 7]%Z)))) = c /\
    diffusion_act_dim (hyper (fst (new (toy_args_steps 2 1 [1; 1; 7]%Z)))) = d.
Proof. exact (proj1 (init_reads_two_entries (toy_args_steps 2 1 [1; 1; 7]%Z)) eq_refl). Defined.

Lemma setup_target_entropy_witness :
  exists te,
    target_entropy (fst (_setup_model (toy_unset "auto"))) = PyFloat te /\
    te = - IZR action_space_dim.
Proof. exact (proj1 (setup_target_entropy (toy_unset "auto")) eq_refl). Defined.

Lemma setup_reads_between_underscores_witness :
  exists x,
    py_float "0.5" = Ok x /\ 0 < x /\
    log_ent_coef (fst (_setup_model (toy_unset "autoX_0.5_zz"))) = Some (ln x).
Proof.
  refine (proj2 (setup_reads_between_underscores (toy_unset "autoX_0.5_zz")
                   "autoX_0.5_zz" eq_refl eq_refl _)
            "autoX" "0.5" "_zz" eq_refl eq_refl eq_refl _).
  - apply setup_model_returns.
    + eexists. reflexivity.
    + eexists. reflexivity.
    + eexists. reflexivity.
    + exists "0.5", (Q2R (5 # 10)).
      split; [reflexivity |]. split; [reflexivity |]. unfold Q2R. simpl. lra.
  - right. eexists. reflexivity.
Defined.

Lemma save_params_follow_ent_coef_witness :
  _get_torch_save_params (after_training [(3, 64); (1, 64)]%Z (fst (new toy_args)))
  = (["policy"; "actor.optimizer"; "critic.optimizer"; "critic_noise";
      "ent_coef_optimizer"], ["log_ent_coef"]).
Proof.
  exact (proj1 (save_params_follow_ent_coef toy_args [(3, 64); (1, 64)]%Z eq_refl eq_refl)).
Defined.


Lemma sample_action_is_predict_diffused_witness :
  snd (_sample_action 0 None 1 toy_rollout)
  = match snd (predict_diffused toy_policy_predict tt None None false toy_rollout) with
    | Ok (action, _) => Ok (action, action)
    | Raise e => Raise e
    end.
Proof.
  refine (proj2 (sample_action_is_predict_diffused toy_policy_predict 0 1 toy_rollout tt
                   eq_refl eq_refl _)).
  intros a r. reflexivity.
Defined.

Lemma decode_regroups_witness :
  exists m x,
    reshape3 1 1 [[1; 2]] = Ok x /\ shape3 2 1 1 x /\
    decode tt [[1; 2]] toy = (toy, Ok m) /\ shape2 2 (1 * 1) m.
Proof.
  refine (proj1 (decode_regroups toy tt [[1; 2]] 1 1 (fun _ x => x) 1 2 _ _ eq_refl eq_refl
                   eq_refl _ _) 2%nat eq_refl).
  - lia.
  - lia.
  - intros n x H. exact H.
  - split; [reflexivity | repeat constructor].
Defined.

Lemma non_positive_dims_never_decode_witness :
  exists e, snd (train 1 64 toy_no_chunk) = Raise e.
Proof.
  refine (proj2 (proj2 (non_positive_dims_never_decode toy_policy_predict toy_no_chunk _))
            1%Z 64%Z _).
  - left. simpl. lia.
  - left. lia.
Defined.

Lemma distill_loss_is_half_sum_of_mse_witness :
  distill_loss None (with_grad false (map col [[1; 2]; [0; 1]]))
    (with_grad true (map col [[3; 4]; [5; 6]] ++ [[[9]]]))
  = Ok (Some (scalar (distill_loss_spec 2 [[1; 2]; [0; 1]] [[3; 4]; [5; 6]]) true)).
Proof.
  apply distill_loss_is_half_sum_of_mse.
  - reflexivity.
  - repeat constructor.
  - repeat constructor.
Defined.

Lemma distill_loss_missing_head_witness :
  distill_loss None (with_grad false (map col [[1; 2]; [0; 1]]))
    (with_grad true (map col [[3; 4]]))
  = Raise IndexError.
Proof.
  apply (proj1 (distill_loss_missing_head 2 [[1; 2]; [0; 1]] [[3; 4]])).
  - simpl. lia.
  - repeat constructor.
  - repeat constructor.
Defined.

Lemma update_noise_critic_only_draws_witness :
  exists loss noise,
    snd (update_noise_critic (sample_buffer 0 64) toy) = Ok (loss, noise) /\
    fst (update_noise_critic (sample_buffer 0 64) toy) = tick toy.
Proof.
  destruct (snd (update_noise_critic (sample_buffer 0 64) toy)) as [[loss noise] | e] eqn:Hrun.
  - exists loss, noise. split; [reflexivity |].
    exact (proj1 (proj2 (update_noise_critic_only_draws (sample_buffer 0 64) toy) loss noise Hrun)).
  - discriminate Hrun.
Defined.

Lemma actor_loss_is_mean_of_differences_witness :
  actor_loss "min" (1 / 5) (reshape_col (mkTensor [[-1; -2]] true))
    (with_grad true (map col [[3; 1]; [5; 9]]))
  = Ok (scalar (actor_loss_spec "min" (1 / 5) 2 [-1; -2] [[3; 1]; [5; 9]]) true).
Proof.
  apply actor_loss_is_mean_of_differences.
  - left. reflexivity.
  - reflexivity.
  - discriminate.
  - repeat constructor.
Defined.

Lemma train_rejects_step_counts_witness :
  snd (train 3 64 (toy_steps 0 1)) = Raise ZeroDivisionError /\
  snd (train (-1) 64 (toy_steps (-1) 1)) = Raise ValueError.
Proof.
  split.
  - refine (proj1 (train_rejects_step_counts 3 64 (toy_steps 0 1) _ _ _
                     eq_refl eq_refl eq_refl) eq_refl).
  - refine (proj1 (proj2 (train_rejects_step_counts (-1) 64 (toy_steps (-1) 1) _ _ _
                            eq_refl eq_refl eq_refl)) _ _); reflexivity.
Defined.



Lemma failed_train_does_not_count_witness :
  _n_updates (fst (train 3 64 toy_max)) = _n_updates toy_max.
Proof.
  refine (proj2 (failed_train_does_not_count 3 64 toy_max) _).
  assert (E : snd (train 3 64 toy_max) = Raise UnboundLocalError) by reflexivity.
  rewrite E. discriminate.
Defined.



Lemma returning_train_reports_witness :
  keys (logger (fst (train 3 64 toy)))
  = keys (logger toy)
    ++ ["train/learning_rate"; "train/n_updates"; "train/ent_coef";
        "train/actor_loss"; "train/critic_loss"; "train/noise_critic_loss"]
    ++ ["train/ent_coef_loss"].
Proof. exact (proj2 (proj2 (returning_train_reports 3 64 toy eq_refl))). Defined.

Lemma td_target_of_terminal_witness :
  exists T,
    td_target "min" (99 / 100) (1 / 5)
      (mkTensor (col [1; 7]) false) (mkTensor (col [0; 1]) false)
      (with_grad false (map col [[3; 1]; [5; 9]])) (mkTensor [[-1; -2]] false)
    = Ok (mkTensor (tab 2 T) false) /\
    T 1%nat = 7.
Proof.
  destruct (td_target_of_terminal "min" (99 / 100) (1 / 5) [1; 7] [0; 1] [-1; -2]
              [[3; 1]; [5; 9]]) as (T & HT & Hterm & _).
  - left. reflexivity.
  - reflexivity.
  - reflexivity.
  - discriminate.
  - repeat constructor.
  - exists T. split; [exact HT |]. apply (Hterm 1%nat). reflexivity.
Defined.

Lemma min_backup_is_below_mean_witness :
  exists Tmin Tmean,
    td_target "min" (99 / 100) (1 / 5)
      (mkTensor (col [1; 7]) false) (mkTensor (col [0; 1]) false)
      (with_grad false (map col [[3; 1]; [5; 9]])) (mkTensor [[-1; -2]] false)
    = Ok (mkTensor (tab 2 Tmin) false) /\
    td_target "mean" (99 / 100) (1 / 5)
      (mkTensor (col [1; 7]) false) (mkTensor (col [0; 1]) false)
      (with_grad false (map col [[3; 1]; [5; 9]])) (mkTensor [[-1; -2]] false)
    = Ok (mkTensor (tab 2 Tmean) false) /\
    Tmin 0%nat <= Tmean 0%nat.
Proof.
  destruct (min_backup_is_below_mean (99 / 100) (1 / 5) [1; 7] [0; 1] [-1; -2]
              [[3; 1]; [5; 9]]) as (Tmin & Tmean & H1 & H2 & H3).
  - lra.
  - reflexivity.
  - reflexivity.
  - discriminate.
  - repeat constructor.
  - exists Tmin, Tmean. splits; auto. apply H3. simpl. lra.
Defined.


Lemma constructed_object_trains_witness :
  snd (train 2 64 (after_training [(3, 64)]%Z (fst (new toy_args)))) = Ok tt.
Proof.
  refine (proj2 (proj2 (constructed_object_trains toy_args 1 2 (fun _ => 2%nat) 1 1
                          (fun _ x => x) [] [(3, 64)]%Z 2 64
                          eq_refl eq_refl eq_refl _ _ eq_refl _ _ _ _
                          toy_well_shaped eq_refl _ _))).
  - lia.
  - lia.
  - intros o B x H. exact H.
  - left. reflexivity.
  - discriminate.
  - discriminate.
  - repeat constructor. simpl. lia.
  - lia.
Defined.

End CoverageRuns.
